(** * parca, package storage: the in-memory series and its appender

    A shallow embedding of [pkg/storage/series.go]: the [MemSeries] record,
    [NewMemSeries], [MemSeries.Labels], [MemSeries.Appender],
    [MemSeries.appendTree], [MemSeries.stats] and [MemSeriesAppender.Append],
    followed by the properties of the append protocol.

    Conventions.
    - [int64] values (timestamps, durations, periods, sample values) are [Z];
      the code only compares and copies them, so no wrap-around arises.
    - [numSamples] is a [uint16]: it is a [Z] and its increment is written
      out modulo [2^16].
    - A Go slice of chunks is a [list]; a Go map is a [gmap].
    - A [chunkenc.Appender] is a cursor into one chunk object.  Columns only
      ever grow at their tail and chunk objects are never replaced, so the
      cursor is the ordinal of its chunk inside the column it was taken
      from, and a write through the cursor updates the chunk at that ordinal.
    - The mutex [mu] serialises readers against the writer; the embedding is
      sequential and runs every critical section in one step. *)

From Stdlib Require Import ZArith String List Lia.
From stdpp Require Import base option list gmap strings.

Local Open Scope Z_scope.

(** ** Errors and results *)

(** [ErrOutOfOrderSample] is declared in series.go; the two mismatch errors
    are the package's other sentinel values.  [ErrEncoder] is an error of the
    chunk encoder, [ErrWrap ctx e] is [fmt.Errorf(ctx + ": %w", e)]. *)
Inductive error : Type :=
  | ErrOutOfOrderSample
  | ErrPeriodTypeMismatch
  | ErrSampleTypeMismatch
  | ErrEncoder (msg : string)
  | ErrWrap (ctx : string) (e : error).

(** What a call does: return normally, return an error, or panic with an
    index out of range. *)
Inductive result (A : Type) : Type :=
  | Ok (a : A)
  | Fail (e : error)
  | Panic.
Arguments Ok {A} a.
Arguments Fail {A} e.
Arguments Panic {A}.

(** ** The chunk encoder interface *)

Module chunkenc.

(** Modelled from the spec: package [chunkenc] (the [Chunk] and [Appender]
    interfaces and the three constructors) is used by series.go but its
    source is not at hand.  The class lists the operations series.go calls.
    [Appender c] is [None] when the chunk yields a write cursor and [Some e]
    when cursor construction fails with [e]; [AppendAt slot v c] is the chunk
    after a cursor on [c] wrote [v] at [slot]. *)
Class Chunk (C : Type) : Type := {
  NewDeltaChunk : C;
  NewRLEChunk : C;
  NewXORChunk : C;
  NumSamples : C → Z;
  Bytes : C → list Z;
  Appender : C → option error;
  AppendAt : Z → Z → C → C
}.

(** Modelled from the spec: the contract of a chunk.  A fresh chunk holds
    no sample, and a write at the next free slot adds one sample. *)
Class ChunkContract (C : Type) `{Chunk C} : Prop := {
  NumSamples_NewDeltaChunk : NumSamples NewDeltaChunk = 0;
  NumSamples_NewRLEChunk : NumSamples NewRLEChunk = 0;
  NumSamples_NewXORChunk : NumSamples NewXORChunk = 0;
  NumSamples_AppendAt_next :
    ∀ (c : C) (v : Z), NumSamples (AppendAt (NumSamples c) v c) = NumSamples c + 1
}.

End chunkenc.

(** ** Data model *)

(** Modelled from the spec: [ValueType] and [equalValueType] live in
    another file of the package; a later sample's tag "must match exactly". *)
Record ValueType : Type := mkValueType {
  Type_ : string;
  Unit_ : string
}.

Definition equalValueType (a b : ValueType) : bool :=
  (Type_ a =? Type_ b)%string && (Unit_ a =? Unit_ b)%string.

(** Modelled from the spec: the identity of a stack node, the key of the
    per-key maps. *)
Definition ProfileTreeValueNodeKey : Type := string.

(** Modelled from the spec: a value of a stack node, with its descriptive
    labels. *)
Record ProfileTreeValueNode : Type := mkValueNode {
  key : ProfileTreeValueNodeKey;
  Value : Z;
  Label : gmap string (list string);
  NumLabel : gmap string (list Z);
  NumUnit : gmap string (list string)
}.

(** Modelled from the spec: the hierarchical value tree of a sample.  Every
    node carries its flat and its cumulative values. *)
Local Unset Elimination Schemes.
Inductive ProfileTreeNode : Type :=
  | Node (locationID : Z)
         (FlatValues CumulativeValues : list ProfileTreeValueNode)
         (Children : list ProfileTreeNode).
Local Set Elimination Schemes.

Record ProfileTree : Type := mkProfileTree {
  Roots : ProfileTreeNode
}.

Record InstantProfileMeta : Type := mkMeta {
  PeriodType : ValueType;
  SampleType : ValueType;
  Timestamp : Z;
  Duration : Z;
  Period : Z
}.

Record Profile : Type := mkProfile {
  Tree : ProfileTree;
  Meta : InstantProfileMeta
}.

Module timestampChunk.
(** An element of [timestampChunks]: a chunk with its time window. *)
Record t (C : Type) : Type := mk {
  minTime : Z;
  maxTime : Z;
  chunk : C
}.
Arguments mk {C} _ _ _.
Arguments minTime {C} _.
Arguments maxTime {C} _.
Arguments chunk {C} _.
End timestampChunk.

(** Modelled from the spec: the node structure kept by the series tree is
    outside this core; only the tree's effect on the per-key maps of the
    series is part of the model, so the tree itself carries no data. *)
Inductive MemSeriesTree : Type := mkMemSeriesTree.

Definition MaxInt64 : Z := 9223372036854775807.
Definition MinInt64 : Z := -9223372036854775808.

(** [type MemSeries struct]; [id_] is the field [id], [samplesAppended] is
    the optional counter with the number of increments it has received. *)
Record MemSeries (C : Type) : Type := mkMemSeries {
  lset : list (string * string);
  id_ : Z;
  periodType : ValueType;
  sampleType : ValueType;
  minTime : Z;
  maxTime : Z;
  timestamps : list (timestampChunk.t C);
  durations : list C;
  periods : list C;
  flatValues : gmap ProfileTreeValueNodeKey (list C);
  cumulativeValues : gmap ProfileTreeValueNodeKey (list C);
  labels : gmap ProfileTreeValueNodeKey (gmap string (list string));
  numLabels : gmap ProfileTreeValueNodeKey (gmap string (list Z));
  numUnits : gmap ProfileTreeValueNodeKey (gmap string (list string));
  seriesTree : option MemSeriesTree;
  numSamples : Z;
  samplesAppended : option Z
}.
Arguments mkMemSeries {C}.
Arguments lset {C} _.
Arguments id_ {C} _.
Arguments periodType {C} _.
Arguments sampleType {C} _.
Arguments minTime {C} _.
Arguments maxTime {C} _.
Arguments timestamps {C} _.
Arguments durations {C} _.
Arguments periods {C} _.
Arguments flatValues {C} _.
Arguments cumulativeValues {C} _.
Arguments labels {C} _.
Arguments numLabels {C} _.
Arguments numUnits {C} _.
Arguments seriesTree {C} _.
Arguments numSamples {C} _.
Arguments samplesAppended {C} _.

Module MemSeriesAppender.
(** [type MemSeriesAppender struct]: the three cursors, each the ordinal
    of the chunk it writes to.  The field [s] is the series the state monad
    below threads along. *)
Record t : Type := mk {
  timestamps : nat;
  duration : nat;
  periods : nat
}.
End MemSeriesAppender.

Module MemSeriesValueStats.
(** [type MemSeriesValueStats struct]. *)
Record t : Type := mk {
  samples : Z;
  bytes : Z
}.
End MemSeriesValueStats.

Module MemSeriesStats.
(** [type MemSeriesStats struct]. *)
Record t : Type := mk {
  samples : Z;
  Cumulatives : list MemSeriesValueStats.t;
  Flat : list MemSeriesValueStats.t
}.
End MemSeriesStats.

Definition samplesPerChunk : Z := 120.

(** ** Field assignments

    [set_f v s] is the series after the assignment [s.f = v]. *)

Section Setters.
Context {C : Type}.

Definition set_periodType (v : ValueType) (s : MemSeries C) : MemSeries C :=
  {| lset := lset s;
     id_ := id_ s;
     periodType := v;
     sampleType := sampleType s;
     minTime := minTime s;
     maxTime := maxTime s;
     timestamps := timestamps s;
     durations := durations s;
     periods := periods s;
     flatValues := flatValues s;
     cumulativeValues := cumulativeValues s;
     labels := labels s;
     numLabels := numLabels s;
     numUnits := numUnits s;
     seriesTree := seriesTree s;
     numSamples := numSamples s;
     samplesAppended := samplesAppended s |}.

Definition set_sampleType (v : ValueType) (s : MemSeries C) : MemSeries C :=
  {| lset := lset s;
     id_ := id_ s;
     periodType := periodType s;
     sampleType := v;
     minTime := minTime s;
     maxTime := maxTime s;
     timestamps := timestamps s;
     durations := durations s;
     periods := periods s;
     flatValues := flatValues s;
     cumulativeValues := cumulativeValues s;
     labels := labels s;
     numLabels := numLabels s;
     numUnits := numUnits s;
     seriesTree := seriesTree s;
     numSamples := numSamples s;
     samplesAppended := samplesAppended s |}.

Definition set_minTime (v : Z) (s : MemSeries C) : MemSeries C :=
  {| lset := lset s;
     id_ := id_ s;
     periodType := periodType s;
     sampleType := sampleType s;
     minTime := v;
     maxTime := maxTime s;
     timestamps := timestamps s;
     durations := durations s;
     periods := periods s;
     flatValues := flatValues s;
     cumulativeValues := cumulativeValues s;
     labels := labels s;
     numLabels := numLabels s;
     numUnits := numUnits s;
     seriesTree := seriesTree s;
     numSamples := numSamples s;
     samplesAppended := samplesAppended s |}.

Definition set_maxTime (v : Z) (s : MemSeries C) : MemSeries C :=
  {| lset := lset s;
     id_ := id_ s;
     periodType := periodType s;
     sampleType := sampleType s;
     minTime := minTime s;
     maxTime := v;
     timestamps := timestamps s;
     durations := durations s;
     periods := periods s;
     flatValues := flatValues s;
     cumulativeValues := cumulativeValues s;
     labels := labels s;
     numLabels := numLabels s;
     numUnits := numUnits s;
     seriesTree := seriesTree s;
     numSamples := numSamples s;
     samplesAppended := samplesAppended s |}.

Definition set_timestamps (v : list (timestampChunk.t C)) (s : MemSeries C) : MemSeries C :=
  {| lset := lset s;
     id_ := id_ s;
     periodType := periodType s;
     sampleType := sampleType s;
     minTime := minTime s;
     maxTime := maxTime s;
     timestamps := v;
     durations := durations s;
     periods := periods s;
     flatValues := flatValues s;
     cumulativeValues := cumulativeValues s;
     labels := labels s;
     numLabels := numLabels s;
     numUnits := numUnits s;
     seriesTree := seriesTree s;
     numSamples := numSamples s;
     samplesAppended := samplesAppended s |}.

Definition set_durations (v : list C) (s : MemSeries C) : MemSeries C :=
  {| lset := lset s;
     id_ := id_ s;
     periodType := periodType s;
     sampleType := sampleType s;
     minTime := minTime s;
     maxTime := maxTime s;
     timestamps := timestamps s;
     durations := v;
     periods := periods s;
     flatValues := flatValues s;
     cumulativeValues := cumulativeValues s;
     labels := labels s;
     numLabels := numLabels s;
     numUnits := numUnits s;
     seriesTree := seriesTree s;
     numSamples := numSamples s;
     samplesAppended := samplesAppended s |}.

Definition set_periods (v : list C) (s : MemSeries C) : MemSeries C :=
  {| lset := lset s;
     id_ := id_ s;
     periodType := periodType s;
     sampleType := sampleType s;
     minTime := minTime s;
     maxTime := maxTime s;
     timestamps := timestamps s;
     durations := durations s;
     periods := v;
     flatValues := flatValues s;
     cumulativeValues := cumulativeValues s;
     labels := labels s;
     numLabels := numLabels s;
     numUnits := numUnits s;
     seriesTree := seriesTree s;
     numSamples := numSamples s;
     samplesAppended := samplesAppended s |}.

Definition set_flatValues (v : gmap ProfileTreeValueNodeKey (list C)) (s : MemSeries C) : MemSeries C :=
  {| lset := lset s;
     id_ := id_ s;
     periodType := periodType s;
     sampleType := sampleType s;
     minTime := minTime s;
     maxTime := maxTime s;
     timestamps := timestamps s;
     durations := durations s;
     periods := periods s;
     flatValues := v;
     cumulativeValues := cumulativeValues s;
     labels := labels s;
     numLabels := numLabels s;
     numUnits := numUnits s;
     seriesTree := seriesTree s;
     numSamples := numSamples s;
     samplesAppended := samplesAppended s |}.

Definition set_cumulativeValues (v : gmap ProfileTreeValueNodeKey (list C)) (s : MemSeries C) : MemSeries C :=
  {| lset := lset s;
     id_ := id_ s;
     periodType := periodType s;
     sampleType := sampleType s;
     minTime := minTime s;
     maxTime := maxTime s;
     timestamps := timestamps s;
     durations := durations s;
     periods := periods s;
     flatValues := flatValues s;
     cumulativeValues := v;
     labels := labels s;
     numLabels := numLabels s;
     numUnits := numUnits s;
     seriesTree := seriesTree s;
     numSamples := numSamples s;
     samplesAppended := samplesAppended s |}.

Definition set_labels (v : gmap ProfileTreeValueNodeKey (gmap string (list string))) (s : MemSeries C) : MemSeries C :=
  {| lset := lset s;
     id_ := id_ s;
     periodType := periodType s;
     sampleType := sampleType s;
     minTime := minTime s;
     maxTime := maxTime s;
     timestamps := timestamps s;
     durations := durations s;
     periods := periods s;
     flatValues := flatValues s;
     cumulativeValues := cumulativeValues s;
     labels := v;
     numLabels := numLabels s;
     numUnits := numUnits s;
     seriesTree := seriesTree s;
     numSamples := numSamples s;
     samplesAppended := samplesAppended s |}.

Definition set_numLabels (v : gmap ProfileTreeValueNodeKey (gmap string (list Z))) (s : MemSeries C) : MemSeries C :=
  {| lset := lset s;
     id_ := id_ s;
     periodType := periodType s;
     sampleType := sampleType s;
     minTime := minTime s;
     maxTime := maxTime s;
     timestamps := timestamps s;
     durations := durations s;
     periods := periods s;
     flatValues := flatValues s;
     cumulativeValues := cumulativeValues s;
     labels := labels s;
     numLabels := v;
     numUnits := numUnits s;
     seriesTree := seriesTree s;
     numSamples := numSamples s;
     samplesAppended := samplesAppended s |}.

Definition set_numUnits (v : gmap ProfileTreeValueNodeKey (gmap string (list string))) (s : MemSeries C) : MemSeries C :=
  {| lset := lset s;
     id_ := id_ s;
     periodType := periodType s;
     sampleType := sampleType s;
     minTime := minTime s;
     maxTime := maxTime s;
     timestamps := timestamps s;
     durations := durations s;
     periods := periods s;
     flatValues := flatValues s;
     cumulativeValues := cumulativeValues s;
     labels := labels s;
     numLabels := numLabels s;
     numUnits := v;
     seriesTree := seriesTree s;
     numSamples := numSamples s;
     samplesAppended := samplesAppended s |}.

Definition set_seriesTree (v : option MemSeriesTree) (s : MemSeries C) : MemSeries C :=
  {| lset := lset s;
     id_ := id_ s;
     periodType := periodType s;
     sampleType := sampleType s;
     minTime := minTime s;
     maxTime := maxTime s;
     timestamps := timestamps s;
     durations := durations s;
     periods := periods s;
     flatValues := flatValues s;
     cumulativeValues := cumulativeValues s;
     labels := labels s;
     numLabels := numLabels s;
     numUnits := numUnits s;
     seriesTree := v;
     numSamples := numSamples s;
     samplesAppended := samplesAppended s |}.

Definition set_numSamples (v : Z) (s : MemSeries C) : MemSeries C :=
  {| lset := lset s;
     id_ := id_ s;
     periodType := periodType s;
     sampleType := sampleType s;
     minTime := minTime s;
     maxTime := maxTime s;
     timestamps := timestamps s;
     durations := durations s;
     periods := periods s;
     flatValues := flatValues s;
     cumulativeValues := cumulativeValues s;
     labels := labels s;
     numLabels := numLabels s;
     numUnits := numUnits s;
     seriesTree := seriesTree s;
     numSamples := v;
     samplesAppended := samplesAppended s |}.

Definition set_samplesAppended (v : option Z) (s : MemSeries C) : MemSeries C :=
  {| lset := lset s;
     id_ := id_ s;
     periodType := periodType s;
     sampleType := sampleType s;
     minTime := minTime s;
     maxTime := maxTime s;
     timestamps := timestamps s;
     durations := durations s;
     periods := periods s;
     flatValues := flatValues s;
     cumulativeValues := cumulativeValues s;
     labels := labels s;
     numLabels := numLabels s;
     numUnits := numUnits s;
     seriesTree := seriesTree s;
     numSamples := numSamples s;
     samplesAppended := v |}.

End Setters.

(** ** The state monad of the appender

    A method of the appender reads and assigns the appender's cursors and
    the series behind its pointer [s], and returns, fails or panics.  What
    was assigned before an error return stays assigned. *)

Section Operations.
Context {C : Type} `{!chunkenc.Chunk C}.

Definition state : Type := MemSeriesAppender.t * MemSeries C.

Definition M (A : Type) : Type := state → result A * state.

#[global] Instance M_ret : MRet M := λ A a st, (Ok a, st).

#[global] Instance M_bind : MBind M := λ A B f m st,
  match m st with
  | (Ok a, st') => f a st'
  | (Fail e, st') => (Fail e, st')
  | (Panic, st') => (Panic, st')
  end.

Definition getSeries : M (MemSeries C) := λ st, (Ok st.2, st).

Definition getAppender : M MemSeriesAppender.t := λ st, (Ok st.1, st).

Definition modifySeries (f : MemSeries C → MemSeries C) : M unit :=
  λ st, (Ok tt, (st.1, f st.2)).

Definition modifyAppender (f : MemSeriesAppender.t → MemSeriesAppender.t) : M unit :=
  λ st, (Ok tt, (f st.1, st.2)).

Definition throw {A : Type} (e : error) : M A := λ st, (Fail e, st).

Definition panic {A : Type} : M A := λ st, (Panic, st).

(** [l[i]], which panics out of range. *)
Definition index {A : Type} (l : list A) (i : nat) : M A :=
  match l !! i with
  | Some x => mret x
  | None => panic
  end.

(** [len(l)-1] as used in [l[len(l)-1]]: on the empty list the Go index is
    [-1] and the access panics; here the ordinal is [0] and the lookup of
    the empty list fails all the same. *)
Definition lastIndex {A : Type} (l : list A) : nat := (length l - 1)%nat.

Fixpoint forEach {A : Type} (f : A → M unit) (l : list A) : M unit :=
  match l with
  | [] => mret tt
  | x :: l' => f x ;; forEach f l'
  end.

(** [a.s.numSamples++] on a [uint16]. *)
Definition uint16_incr (n : Z) : Z := (n + 1) mod 65536.

(** *** series.go, lines 61-82 *)
Definition NewMemSeries (lset : list (string * string)) (id : Z) : MemSeries C :=
  {| lset := lset;
     id_ := id;
     periodType := mkValueType "" "";
     sampleType := mkValueType "" "";
     minTime := 0;
     maxTime := 0;
     timestamps := [timestampChunk.mk MaxInt64 MinInt64 chunkenc.NewDeltaChunk];
     durations := [chunkenc.NewRLEChunk];
     periods := [chunkenc.NewRLEChunk];
     flatValues := ∅;
     cumulativeValues := ∅;
     labels := ∅;
     numLabels := ∅;
     numUnits := ∅;
     seriesTree := Some mkMemSeriesTree;
     numSamples := 0;
     samplesAppended := None |}.

(** *** series.go, lines 84-86 *)
Definition Labels (s : MemSeries C) : list (string * string) := lset s.

(** *** series.go, lines 88-108

    The durations and periods cursors are taken at the ordinal
    [len(s.timestamps)-1], as the code does. *)
Definition Appender (s : MemSeries C) : result MemSeriesAppender.t :=
  let i := lastIndex (timestamps s) in
  match timestamps s !! i with
  | None => Panic
  | Some tc =>
    match chunkenc.Appender (timestampChunk.chunk tc) with
    | Some err => Fail err
    | None =>
      match durations s !! i with
      | None => Panic
      | Some d =>
        match chunkenc.Appender d with
        | Some err => Fail err
        | None =>
          match periods s !! i with
          | None => Panic
          | Some pr =>
            match chunkenc.Appender pr with
            | Some err => Fail err
            | None => Ok (MemSeriesAppender.mk i i i)
            end
          end
        end
      end
    end
  end.

(** *** The series tree *)

Inductive column : Type := FlatColumn | CumulativeColumn.

Definition columnMap (col : column) (s : MemSeries C)
  : gmap ProfileTreeValueNodeKey (list C) :=
  match col with
  | FlatColumn => flatValues s
  | CumulativeColumn => cumulativeValues s
  end.

Definition set_columnMap (col : column)
    (m : gmap ProfileTreeValueNodeKey (list C)) (s : MemSeries C) : MemSeries C :=
  match col with
  | FlatColumn => set_flatValues m s
  | CumulativeColumn => set_cumulativeValues m s
  end.

(** The values of a tree in the order of a pre-order walk: at each node the
    flat values, then the cumulative values, then the children. *)
Fixpoint treeValues (n : ProfileTreeNode) : list (column * ProfileTreeValueNode) :=
  match n with
  | Node _ fl cu ch =>
      map (pair FlatColumn) fl ++ map (pair CumulativeColumn) cu
        ++ concat (map treeValues ch)
  end.

(** Modelled from the spec: the per-key descriptive maps are created lazily,
    the first time a key is seen. *)
Definition recordLabels (n : ProfileTreeValueNode) (s : MemSeries C) : MemSeries C :=
  let s1 := match labels s !! key n with
            | None => set_labels (<[key n := Label n]> (labels s)) s
            | Some _ => s
            end in
  let s2 := match numLabels s1 !! key n with
            | None => set_numLabels (<[key n := NumLabel n]> (numLabels s1)) s1
            | Some _ => s1
            end in
  match numUnits s2 !! key n with
  | None => set_numUnits (<[key n := NumUnit n]> (numUnits s2)) s2
  | Some _ => s2
  end.

(** Modelled from the spec: [MemSeriesTree.Insert] is in a file that is not
    at hand.  For one value of the tree: a key seen for the first time gets
    a column "with a chunk count matching the series' current roll count",
    that is one fresh XOR chunk per timestamp chunk; the value is then
    written at the slot through a cursor on the tail chunk of the key's
    column. *)
Definition insertValue (slot : Z) (cv : column * ProfileTreeValueNode) : M unit :=
  let '(col, n) := cv in
  s ← getSeries;
  chunks ← match columnMap col s !! key n with
           | Some chunks => mret chunks
           | None =>
               let chunks := replicate (length (timestamps s)) chunkenc.NewXORChunk in
               modifySeries (set_columnMap col (<[key n := chunks]> (columnMap col s))) ;;
               mret chunks
           end;
  c ← index chunks (lastIndex chunks);
  match chunkenc.Appender c with
  | Some err => throw (ErrWrap "failed to open value appender" err)
  | None =>
      modifySeries (λ s, set_columnMap col
        (<[key n := alter (chunkenc.AppendAt slot (Value n)) (lastIndex chunks) chunks]>
           (columnMap col s)) s) ;;
      modifySeries (recordLabels n)
  end.

(** Modelled from the spec: [MemSeriesTree.Insert(index, profileTree)], "an
    insertion operation taking a slot index and a value tree". *)
Definition Insert (slot : Z) (profileTree : ProfileTree) : M unit :=
  forEach (insertValue slot) (treeValues (Roots profileTree)).

(** *** series.go, lines 110-116 *)
Definition appendTree (profileTree : ProfileTree) : M unit :=
  s ← getSeries;
  (match seriesTree s with
   | None => modifySeries (set_seriesTree (Some mkMemSeriesTree))
   | Some _ => mret tt
   end) ;;
  s ← getSeries;
  Insert (numSamples s mod samplesPerChunk) profileTree.

(** *** series.go, lines 129-159

    The two loops visit the keys of a map in the order [map_to_list] lists
    them.  The result comes with the series as the call leaves it. *)
Definition valueStats (c : C) : MemSeriesValueStats.t :=
  {| MemSeriesValueStats.samples := chunkenc.NumSamples c;
     MemSeriesValueStats.bytes := Z.of_nat (length (chunkenc.Bytes c)) |}.

Definition columnStats (m : gmap ProfileTreeValueNodeKey (list C))
  : list MemSeriesValueStats.t :=
  foldl (λ acc kc, foldl (λ acc c, acc ++ [valueStats c]) acc kc.2) [] (map_to_list m).

Definition stats (s : MemSeries C) : MemSeriesStats.t * MemSeries C :=
  let flat := columnStats (flatValues s) in
  let cumulative := columnStats (cumulativeValues s) in
  ({| MemSeriesStats.samples := numSamples s;
      MemSeriesStats.Cumulatives := cumulative;
      MemSeriesStats.Flat := flat |}, s).

(** *** series.go, lines 170-267: [Append] *)

(** Lines 171-174. *)
Definition fixTypes (p : Profile) : M unit :=
  s ← getSeries;
  if numSamples s =? 0 then
    modifySeries (set_periodType (PeriodType (Meta p))) ;;
    modifySeries (set_sampleType (SampleType (Meta p)))
  else mret tt.

(** Lines 176-188. *)
Definition validate (p : Profile) : M unit :=
  s ← getSeries;
  if negb (equalValueType (periodType s) (PeriodType (Meta p))) then
    throw ErrPeriodTypeMismatch
  else if negb (equalValueType (sampleType s) (SampleType (Meta p))) then
    throw ErrSampleTypeMismatch
  else if Timestamp (Meta p) <=? maxTime s then
    throw ErrOutOfOrderSample
  else mret tt.

(** Lines 190-195: the value of [newChunks]. *)
Definition rollDecision : M bool :=
  s ← getSeries;
  tc ← index (timestamps s) (lastIndex (timestamps s));
  mret (chunkenc.NumSamples (timestampChunk.chunk tc) >=? samplesPerChunk).

Definition appendChunk (c : C) (chunks : list C) : list C := chunks ++ [c].

(** Lines 198-234: the body of [if newChunks]. *)
Definition roll (timestamp : Z) : M unit :=
  modifySeries (λ s,
    set_cumulativeValues (appendChunk chunkenc.NewXORChunk <$> cumulativeValues s) s) ;;
  modifySeries (λ s,
    set_flatValues (appendChunk chunkenc.NewXORChunk <$> flatValues s) s) ;;
  modifySeries (λ s,
    set_timestamps
      (timestamps s ++ [timestampChunk.mk timestamp timestamp chunkenc.NewDeltaChunk]) s) ;;
  s ← getSeries;
  tc ← index (timestamps s) (lastIndex (timestamps s));
  match chunkenc.Appender (timestampChunk.chunk tc) with
  | Some err => throw (ErrWrap "failed to add the next timestamp chunk" err)
  | None =>
    modifyAppender (λ a,
      MemSeriesAppender.mk (lastIndex (timestamps s))
        (MemSeriesAppender.duration a) (MemSeriesAppender.periods a)) ;;
    modifySeries (λ s, set_durations (appendChunk chunkenc.NewRLEChunk (durations s)) s) ;;
    s ← getSeries;
    d ← index (durations s) (lastIndex (durations s));
    match chunkenc.Appender d with
    | Some err => throw (ErrWrap "failed to add the next durations chunk" err)
    | None =>
      modifyAppender (λ a,
        MemSeriesAppender.mk (MemSeriesAppender.timestamps a)
          (lastIndex (durations s)) (MemSeriesAppender.periods a)) ;;
      modifySeries (λ s, set_periods (appendChunk chunkenc.NewRLEChunk (periods s)) s) ;;
      s ← getSeries;
      pr ← index (periods s) (lastIndex (periods s));
      match chunkenc.Appender pr with
      | Some err => throw (ErrWrap "failed to add the next periods chunk" err)
      | None =>
        modifyAppender (λ a,
          MemSeriesAppender.mk (MemSeriesAppender.timestamps a)
            (MemSeriesAppender.duration a) (lastIndex (periods s)))
      end
    end
  end.

(** A write through the timestamp cursor: the chunk of the element the
    cursor stands on. *)
Definition writeTimestamp (slot v : Z) (tc : timestampChunk.t C) : timestampChunk.t C :=
  timestampChunk.mk (timestampChunk.minTime tc) (timestampChunk.maxTime tc)
    (chunkenc.AppendAt slot v (timestampChunk.chunk tc)).

(** Lines 242-244. *)
Definition writeSample (p : Profile) : M unit :=
  a ← getAppender;
  s ← getSeries;
  let slot := numSamples s mod samplesPerChunk in
  modifySeries (λ s, set_timestamps
    (alter (writeTimestamp slot (Timestamp (Meta p)))
       (MemSeriesAppender.timestamps a) (timestamps s)) s) ;;
  modifySeries (λ s, set_durations
    (alter (chunkenc.AppendAt slot (Duration (Meta p)))
       (MemSeriesAppender.duration a) (durations s)) s) ;;
  modifySeries (λ s, set_periods
    (alter (chunkenc.AppendAt slot (Period (Meta p)))
       (MemSeriesAppender.periods a) (periods s)) s).

(** Lines 247-252: the window of the tail timestamp chunk. *)
Definition widenWindow (timestamp : Z) (tc : timestampChunk.t C) : timestampChunk.t C :=
  let tc1 := if timestampChunk.minTime tc >? timestamp
             then timestampChunk.mk timestamp (timestampChunk.maxTime tc)
                    (timestampChunk.chunk tc)
             else tc in
  if timestampChunk.maxTime tc1 <? timestamp
  then timestampChunk.mk (timestampChunk.minTime tc1) timestamp (timestampChunk.chunk tc1)
  else tc1.

(** Lines 246-265.  The tail element of [timestamps] exists here: the roll
    decision has read it. *)
Definition bookkeeping (p : Profile) : M unit :=
  let timestamp := Timestamp (Meta p) in
  modifySeries (λ s, set_timestamps
    (alter (widenWindow timestamp) (lastIndex (timestamps s)) (timestamps s)) s) ;;
  modifySeries (λ s,
    if (minTime s =? 0) && negb (timestamp =? 0) then set_minTime timestamp s else s) ;;
  modifySeries (set_maxTime timestamp) ;;
  modifySeries (λ s, set_numSamples (uint16_incr (numSamples s)) s) ;;
  modifySeries (λ s,
    match samplesAppended s with
    | Some n => set_samplesAppended (Some (n + 1)) s
    | None => s
    end).

(** Lines 190-266: what [Append] does once the checks have passed. *)
Definition store (p : Profile) : M unit :=
  let timestamp := Timestamp (Meta p) in
  newChunks ← rollDecision;
  (if newChunks : bool then roll timestamp else mret tt) ;;
  appendTree (Tree p) ;;
  writeSample p ;;
  bookkeeping p.

Definition Append (p : Profile) : M unit :=
  fixTypes p ;;
  validate p ;;
  store p.

(** Successive calls of [Append], whatever each returns. *)
Fixpoint appendAll (ps : list Profile) (st : state) : list (result unit) * state :=
  match ps with
  | [] => ([], st)
  | p :: ps' =>
      let '(r, st1) := Append p st in
      let '(rs, st2) := appendAll ps' st1 in
      (r :: rs, st2)
  end.

End Operations.

#[global] Instance column_eq_dec : EqDecision column.
Proof. solve_decision. Defined.

(** ** A chunk kept as the list of its samples

    The instance the development runs on. *)

Inductive Encoding : Type := EncDelta | EncRLE | EncXOR.

Record ListChunk : Type := mkListChunk {
  encoding : Encoding;
  values : list Z
}.

(** Modelled from the spec: slots are addressed positionally and writes
    only ever append.  A write at a slot past the next free one first fills
    the skipped slots with zero (a key "will only receive a value in some
    later sample within the new chunk"); no write overwrites a slot. *)
Definition listAppendAt (slot v : Z) (c : ListChunk) : ListChunk :=
  {| encoding := encoding c;
     values := values c
               ++ replicate (Z.to_nat slot - length (values c))%nat 0 ++ [v] |}.

Definition bigEndian (width : nat) (v : Z) : list Z :=
  map (λ i, (v / 256 ^ Z.of_nat i) mod 256) (rev (seq 0 width)).

(** A two-byte sample count, then the samples, eight bytes each. *)
Definition listBytes (c : ListChunk) : list Z :=
  bigEndian 2 (Z.of_nat (length (values c))) ++ flat_map (bigEndian 8) (values c).

#[global] Instance ListChunk_Chunk : chunkenc.Chunk ListChunk := {|
  chunkenc.NewDeltaChunk := mkListChunk EncDelta [];
  chunkenc.NewRLEChunk := mkListChunk EncRLE [];
  chunkenc.NewXORChunk := mkListChunk EncXOR [];
  chunkenc.NumSamples := λ c, Z.of_nat (length (values c));
  chunkenc.Bytes := listBytes;
  chunkenc.Appender := λ _, None;
  chunkenc.AppendAt := listAppendAt
|}.

(** Sample data: a tree of one node, and a profile of type [samples/count]
    at a timestamp. *)
Definition valueNode (k : string) (v : Z) : ProfileTreeValueNode :=
  mkValueNode k v ∅ ∅ ∅.

Definition treeOf (fl cu : list ProfileTreeValueNode) : ProfileTree :=
  mkProfileTree (Node 0 fl cu []).

Definition sampleTag : ValueType := mkValueType "samples" "count".

Definition profileAt (tree : ProfileTree) (ts : Z) : Profile :=
  mkProfile tree (mkMeta sampleTag sampleTag ts 10 100).

(** [n] profiles with the timestamps [t+1 .. t+n]. *)
Fixpoint profilesFrom (tree : ProfileTree) (t : Z) (n : nat) : list Profile :=
  match n with
  | O => []
  | S n' => profileAt tree (t + 1) :: profilesFrom tree (t + 1) n'
  end.

Definition freshSeries : MemSeries ListChunk := NewMemSeries [("job", "a")] 1.

Definition freshAppender : MemSeriesAppender.t := MemSeriesAppender.mk 0 0 0.

Definition accepted (r : result unit) : bool :=
  match r with Ok _ => true | _ => false end.

(** A call that returned normally or with one of the validation errors:
    no encoder error and no panic. *)
Definition regular (r : result unit) : bool :=
  match r with
  | Ok _ => true
  | Fail ErrOutOfOrderSample | Fail ErrPeriodTypeMismatch
  | Fail ErrSampleTypeMismatch => true
  | _ => false
  end.

(** The samples of a sequence of calls that [Append] accepted, given what
    each call returned. *)
Fixpoint acceptedProfiles (ps : list Profile) (rs : list (result unit)) : list Profile :=
  match ps, rs with
  | p :: ps', r :: rs' =>
      if accepted r then p :: acceptedProfiles ps' rs' else acceptedProfiles ps' rs'
  | _, _ => []
  end.

Definition timestampOf (p : Profile) : Z := Timestamp (Meta p).

(** The timestamp of the last sample of a list, 0 for the empty list. *)
Definition lastTimestamp (ps : list Profile) : Z :=
  default 0 (timestampOf <$> last ps).

(** The first nonzero timestamp of a list of samples, 0 if there is none. *)
Definition firstNonzeroTimestamp (ps : list Profile) : Z :=
  default 0 (head (filter (λ t, t ≠ 0) (timestampOf <$> ps))).

(** ** Notions used by the statements *)

Section Notions.
Context {C : Type} `{!chunkenc.Chunk C}.
Implicit Types (col : column) (k : ProfileTreeValueNodeKey).

(** The series after lines 171-174. *)
Definition withTypes (p : Profile) (s : MemSeries C) : MemSeries C :=
  if numSamples s =? 0
  then set_sampleType (SampleType (Meta p)) (set_periodType (PeriodType (Meta p)) s)
  else s.

(** The slot [a.s.numSamples%samplesPerChunk] of the next sample. *)
Definition nextSlot (s : MemSeries C) : Z := numSamples s mod samplesPerChunk.

(** The number of chunks of every column: the three fixed columns and,
    key by key, the two maps. *)
Definition chunkCounts (s : MemSeries C)
  : nat * nat * nat * gmap ProfileTreeValueNodeKey nat * gmap ProfileTreeValueNodeKey nat :=
  (length (timestamps s), length (durations s), length (periods s),
   length <$> flatValues s, length <$> cumulativeValues s).

(** Every chunk of every column of a per-key map, each one once. *)
Definition allChunks (m : gmap ProfileTreeValueNodeKey (list C)) : list C :=
  mjoin ((map_to_list m).*2).

(** The number of chunks of a per-key map. *)
Definition chunkTotal (m : gmap ProfileTreeValueNodeKey (list C)) : nat :=
  map_fold (λ _ chunks n, (length chunks + n)%nat) 0%nat m.

Definition validationError (e : error) : bool :=
  match e with
  | ErrOutOfOrderSample | ErrPeriodTypeMismatch | ErrSampleTypeMismatch => true
  | _ => false
  end.

(** [m] leaves the observation [obs] of the state alone, whatever it
    returns. *)
Definition keeps {A O : Type} (obs : state (C:=C) → O) (m : M A) : Prop :=
  ∀ st, obs (m st).2 = obs st.

(** Every error a computation returns satisfies [P]. *)
Definition failsOnly {A : Type} (P : error → Prop) (m : M (C:=C) A) : Prop :=
  ∀ st e st', m st = (Fail e, st') → P e.

(** The fields only lines 171-174 and 255-261 assign. *)
Definition books (st : state (C:=C))
  : Z * Z * Z * ValueType * ValueType * option Z :=
  (numSamples st.2, minTime st.2, maxTime st.2, periodType st.2, sampleType st.2,
   samplesAppended st.2).

(** [m] leaves the observation alone whenever it does not return normally. *)
Definition keepsUnlessOk {A O : Type} (obs : state (C:=C) → O) (m : M A) : Prop :=
  ∀ st, (∀ x, (m st).1 ≠ Ok x) → obs (m st).2 = obs st.

(** The series after the assignments of a roll at a timestamp. *)
Definition rollSeries (timestamp : Z) (s : MemSeries C) : MemSeries C :=
  set_periods (appendChunk chunkenc.NewRLEChunk (periods s))
    (set_durations (appendChunk chunkenc.NewRLEChunk (durations s))
       (set_timestamps
          (timestamps s
             ++ [timestampChunk.mk timestamp timestamp chunkenc.NewDeltaChunk])
          (set_flatValues (appendChunk chunkenc.NewXORChunk <$> flatValues s)
             (set_cumulativeValues
                (appendChunk chunkenc.NewXORChunk <$> cumulativeValues s) s)))).

(** The cursors after a roll: on the new tail chunks. *)
Definition rollAppender (s : MemSeries C) : MemSeriesAppender.t :=
  MemSeriesAppender.mk (length (timestamps s)) (length (durations s))
    (length (periods s)).

(** The values a list of tree values holds for one key of one map. *)
Definition valuesOf col k (l : list (column * ProfileTreeValueNode))
  : list ProfileTreeValueNode :=
  (filter (λ cv, cv.1 = col ∧ key cv.2 = k) l).*2.

(** A write through a cursor on the tail chunk of a column. *)
Definition writeTail (slot v : Z) (chunks : list C) : list C :=
  alter (chunkenc.AppendAt slot v) (lastIndex chunks) chunks.

Definition writtenColumn (slot : Z) (vals : list ProfileTreeValueNode)
    (chunks : list C) : list C :=
  foldl (λ chunks n, writeTail slot (Value n) chunks) chunks vals.

(** The column of a key after an insertion that holds the values [vals] for
    it, from the column [old] the key had, if any, in a series of [ntc]
    timestamp chunks. *)
Definition insertedColumn (slot : Z) (ntc : nat) (vals : list ProfileTreeValueNode)
    (old : option (list C)) : option (list C) :=
  match vals with
  | [] => old
  | _ => Some (writtenColumn slot vals
                 (default (replicate ntc chunkenc.NewXORChunk) old))
  end.

(** The fixed columns. *)
Definition fixedColumns (s : MemSeries C)
  : list (timestampChunk.t C) * list C * list C :=
  (timestamps s, durations s, periods s).

(** The tail element of the timestamp column. *)
Definition tailTimestamps (s : MemSeries C) : option (timestampChunk.t C) :=
  timestamps s !! lastIndex (timestamps s).

(** The test of line 192 on a tail element. *)
Definition isFull (tc : timestampChunk.t C) : bool :=
  chunkenc.NumSamples (timestampChunk.chunk tc) >=? samplesPerChunk.

(** The series after the three writes of lines 242-244 through the cursors
    [a]. *)
Definition written (p : Profile) (a : MemSeriesAppender.t) (s : MemSeries C)
  : MemSeries C :=
  set_periods
    (alter (chunkenc.AppendAt (nextSlot s) (Period (Meta p)))
       (MemSeriesAppender.periods a) (periods s))
    (set_durations
       (alter (chunkenc.AppendAt (nextSlot s) (Duration (Meta p)))
          (MemSeriesAppender.duration a) (durations s))
       (set_timestamps
          (alter (writeTimestamp (nextSlot s) (Timestamp (Meta p)))
             (MemSeriesAppender.timestamps a) (timestamps s)) s)).

(** The columns are index-parallel: the duration and period columns and the
    column of every key of [flatValues] and [cumulativeValues] have as many
    chunks as the timestamp column. *)
Definition chunksParallel (s : MemSeries C) : Prop :=
  length (durations s) = length (timestamps s) ∧
  length (periods s) = length (timestamps s) ∧
  (∀ k chunks, flatValues s !! k = Some chunks →
     length chunks = length (timestamps s)) ∧
  (∀ k chunks, cumulativeValues s !! k = Some chunks →
     length chunks = length (timestamps s)).

(** The number of samples in the tail chunk, and the number of chunks, of a
    column after [n] samples. *)
Definition fillOf (n : Z) : Z :=
  if n =? 0 then 0 else (n - 1) mod samplesPerChunk + 1.

Definition chunksOf (n : Z) : nat :=
  Z.to_nat (if n =? 0 then 1 else (n - 1) / samplesPerChunk + 1).

(** The cursors stand on the tail chunks of their columns. *)
Definition boundToTail (a : MemSeriesAppender.t) (s : MemSeries C) : Prop :=
  a = MemSeriesAppender.mk (lastIndex (timestamps s)) (lastIndex (durations s))
        (lastIndex (periods s)).

Definition tailSamples (chunks : list C) : option Z :=
  chunkenc.NumSamples <$> last chunks.

Definition timestampChunks (s : MemSeries C) : list C :=
  timestampChunk.chunk <$> timestamps s.

(** A series of [n] samples whose counter and tail chunks agree: the fixed
    columns hold [chunksOf n] chunks, their tail chunks hold [fillOf n]
    samples, and the cursors stand on the tails. *)
Definition aligned (n : Z) (st : state (C:=C)) : Prop :=
  numSamples st.2 = n ∧
  boundToTail st.1 st.2 ∧
  tailSamples (timestampChunks st.2) = Some (fillOf n) ∧
  tailSamples (durations st.2) = Some (fillOf n) ∧
  tailSamples (periods st.2) = Some (fillOf n) ∧
  length (timestamps st.2) = chunksOf n ∧
  chunksParallel st.2.

(** The cursors stand on the tail chunks of the fixed columns, and each of
    these tail chunks holds [c] samples. *)
Definition tailsAt (c : Z) (st : state (C:=C)) : Prop :=
  boundToTail st.1 st.2 ∧
  tailSamples (timestampChunks st.2) = Some c ∧
  tailSamples (durations st.2) = Some c ∧
  tailSamples (periods st.2) = Some c.

(** A column after the roll decision: with a fresh tail chunk when the
    decision was to roll. *)
Definition grown {A : Type} (rolled : bool) (x : A) (l : list A) : list A :=
  if rolled then l ++ [x] else l.

Definition grownColumn (rolled : bool) (old : option (list C)) : option (list C) :=
  if rolled then appendChunk chunkenc.NewXORChunk <$> old else old.

(** The values of a tree written, in their order, into one chunk. *)
Definition writtenChunk (slot : Z) (vals : list ProfileTreeValueNode) (c : C) : C :=
  foldl (λ c n, chunkenc.AppendAt slot (Value n) c) c vals.

(** Every column of the series has [c] chunks. *)
Definition columnsHave (c : nat) (s : MemSeries C) : Prop :=
  length (timestamps s) = c ∧
  length (durations s) = c ∧
  length (periods s) = c ∧
  (∀ k chunks, flatValues s !! k = Some chunks → length chunks = c) ∧
  (∀ k chunks, cumulativeValues s !! k = Some chunks → length chunks = c).

(** The two type tags of the series. *)
Definition tagsOf (st : state (C:=C)) : ValueType * ValueType :=
  (periodType st.2, sampleType st.2).

(** The identity of a series: its label set and its id. *)
Definition identity (st : state (C:=C)) : list (string * string) * Z :=
  (Labels st.2, id_ st.2).

(** The two type checks of lines 176-182 pass for a sample. *)
Definition matches (s : MemSeries C) (p : Profile) : Prop :=
  equalValueType (periodType s) (PeriodType (Meta p)) = true ∧
  equalValueType (sampleType s) (SampleType (Meta p)) = true.

(** The numbers of a list are strictly increasing in the list's order. *)
Definition increasing (l : list Z) : Prop :=
  ∀ (i j : nat) x y, (i < j)%nat → l !! i = Some x → l !! j = Some y → x < y.

(** An appender on its series: the cursors stand on the tail chunks of the
    three fixed columns, the columns are index-parallel, and there is a
    timestamp chunk. *)
Definition attached (st : state (C:=C)) : Prop :=
  boundToTail st.1 st.2 ∧ chunksParallel st.2 ∧ timestamps st.2 ≠ [].

(** The time window of a timestamp chunk, and the windows of a series in
    the order of its timestamp chunks. *)
Definition window (tc : timestampChunk.t C) : Z * Z :=
  (timestampChunk.minTime tc, timestampChunk.maxTime tc).

Definition windows (s : MemSeries C) : list (Z * Z) := window <$> timestamps s.

(** What lines 247-252 make of a window. *)
Definition widened (timestamp : Z) (w : Z * Z) : Z * Z :=
  (Z.min w.1 timestamp, Z.max w.2 timestamp).

(** The window of a timestamp chunk that no sample has widened yet, as
    [NewMemSeries] sets it. *)
Definition emptyWindow : Z * Z := (MaxInt64, MinInt64).

(** Windows in increasing order below a bound [m]: each window ends before
    the next one begins, the last one ends at or before [m], and every
    window is an interval, but for a first window that is still empty. *)
Definition ordered (l : list (Z * Z)) (m : Z) : Prop :=
  (∀ (i : nat) w1 w2, l !! i = Some w1 → l !! S i = Some w2 → w1.2 < w2.1) ∧
  (∀ w, last l = Some w → w.2 ≤ m) ∧
  (∀ (i : nat) w, l !! i = Some w → w.1 ≤ w.2 ∨ (i = 0%nat ∧ w = emptyWindow)).

(** The first window and the series' [minTime] agree: the series is as
    [NewMemSeries] built its timestamp column and has no [minTime] yet, or
    the first window begins at the series' [minTime], which is set, and not
    after its [maxTime]. *)
Definition spanned (s : MemSeries C) : Prop :=
  (timestamps s = [timestampChunk.mk MaxInt64 MinInt64 chunkenc.NewDeltaChunk] ∧
   minTime s = 0 ∧ 0 ≤ maxTime s) ∨
  (∃ w, head (windows s) = Some w ∧ w.1 = minTime s ∧ minTime s ≠ 0 ∧ w.1 ≤ maxTime s).

(** Every chunk of a column but the tail chunk is full. *)
Definition fullBefore (l : list C) : Prop :=
  ∀ (i : nat) c, l !! i = Some c → (S i < length l)%nat →
    chunkenc.NumSamples c = samplesPerChunk.

(** A series of [n] samples, packed: counter, cursors and tail chunks agree,
    and every earlier chunk of the fixed columns is full. *)
Definition packed (n : Z) (st : state (C:=C)) : Prop :=
  aligned n st ∧
  fullBefore (timestampChunks st.2) ∧
  fullBefore (durations st.2) ∧
  fullBefore (periods st.2).

(** The elements of [l] before its last one are elements of [l'], at their
    positions, and [l'] is no shorter. *)
Definition keepsSealed {A : Type} (l l' : list A) : Prop :=
  (length l ≤ length l')%nat ∧
  ∀ i : nat, (S i < length l)%nat → l' !! i = l !! i.

(** The series a roll leaves behind when the cursor on the new timestamp
    chunk cannot be built (lines 200-216): the per-key columns and the
    timestamp column have their new chunk, the duration and period columns
    have not. *)
Definition halfRolled (timestamp : Z) (s : MemSeries C) : MemSeries C :=
  set_timestamps
    (timestamps s ++ [timestampChunk.mk timestamp timestamp chunkenc.NewDeltaChunk])
    (set_flatValues (appendChunk chunkenc.NewXORChunk <$> flatValues s)
       (set_cumulativeValues (appendChunk chunkenc.NewXORChunk <$> cumulativeValues s) s)).

End Notions.

(** ** Chunks that hold their samples by position *)

(** Modelled from the spec: a chunk whose slots are addressed positionally.
    [contents c] lists the samples of [c] in slot order; the chunk reports
    their number, a fresh chunk holds none, and a write at the next free slot
    adds its value after them. *)
Class PositionalChunk (C : Type) `{!chunkenc.Chunk C} : Type := {
  contents : C → list Z;
  NumSamples_contents : ∀ c : C, chunkenc.NumSamples c = Z.of_nat (length (contents c));
  contents_NewDeltaChunk : contents chunkenc.NewDeltaChunk = [];
  contents_NewRLEChunk : contents chunkenc.NewRLEChunk = [];
  contents_NewXORChunk : contents chunkenc.NewXORChunk = [];
  contents_AppendAt_next :
    ∀ (c : C) (v : Z),
      contents (chunkenc.AppendAt (chunkenc.NumSamples c) v c) = contents c ++ [v]
}.

Section Positional.
Context {C : Type} `{!chunkenc.Chunk C} `{!PositionalChunk C}.

(** The samples of a column, chunk after chunk. *)
Definition columnContents (l : list C) : list Z := mjoin (contents <$> l).

(** The sample at a slot of a chunk of a column. *)
Definition sampleAt (l : list C) (chunk slot : nat) : option Z :=
  c ← l !! chunk; contents c !! slot.

(** The fixed columns hold the timestamps, durations and periods of the
    samples [ps], in their order. *)
Definition stored (ps : list Profile) (s : MemSeries C) : Prop :=
  columnContents (timestampChunks s) = (λ p, Timestamp (Meta p)) <$> ps ∧
  columnContents (durations s) = (λ p, Duration (Meta p)) <$> ps ∧
  columnContents (periods s) = (λ p, Period (Meta p)) <$> ps.

End Positional.

(** ** A chunk whose delta encoding hands out no cursor *)

(** A chunk that only counts its samples and whose delta encoding hands out
    no cursor: it stands for an encoder that fails when a roll asks for the
    cursor of the new timestamp chunk. *)
Record CountingChunk : Type := mkCountingChunk {
  countingEncoding : Encoding;
  count : Z
}.

#[global] Instance CountingChunk_Chunk : chunkenc.Chunk CountingChunk := {|
  chunkenc.NewDeltaChunk := mkCountingChunk EncDelta 0;
  chunkenc.NewRLEChunk := mkCountingChunk EncRLE 0;
  chunkenc.NewXORChunk := mkCountingChunk EncXOR 0;
  chunkenc.NumSamples := count;
  chunkenc.Bytes := λ _, [];
  chunkenc.Appender := λ c,
    match countingEncoding c with
    | EncDelta => Some (ErrEncoder "no cursor")
    | _ => None
    end;
  chunkenc.AppendAt := λ _ _ c, mkCountingChunk (countingEncoding c) (count c + 1)
|}.

(** ** Sample runs *)

(** The tags of a one-sample series match [sampleTag]; a sample at an
    earlier timestamp is then out of order. *)
Definition oneSampleState : state (C:=ListChunk) :=
  (appendAll [profileAt (treeOf [] []) 5] (freshAppender, freshSeries)).2.

(** 120 samples that all hold a flat value for the key [k], then a 121st
    sample that holds a flat value for the key [j] only. *)
Definition run120 : list (result unit) * state (C:=ListChunk) :=
  appendAll (profilesFrom (treeOf [valueNode "k" 7] []) 0 120)
    (freshAppender, freshSeries).

Definition sample121 : Profile := profileAt (treeOf [valueNode "j" 9] []) 121.

Definition state121 : state (C:=ListChunk) := (Append sample121 run120.2).2.

(** 65640 accepted samples: the counter has wrapped at 65536 and stands at
    104, while the tail timestamp chunk, begun at sample 65521, is full. *)
Definition runPastWrap : list (result unit) * state (C:=ListChunk) :=
  appendAll (profilesFrom (treeOf [valueNode "k" 7] []) 0 (Z.to_nat 65640))
    (freshAppender, freshSeries).

Definition samplePastWrap : Profile := profileAt (treeOf [valueNode "k" 7] []) 65641.

(** 65536 samples with the timestamps 1 to 65536. *)
Definition runToWrap : list (result unit) * state (C:=ListChunk) :=
  appendAll (profilesFrom (treeOf [] []) 0 (Z.to_nat 65536))
    (freshAppender, freshSeries).

(** A series that will accept a sample of type [sampleTag] with a timestamp
    above [t]: it has a timestamp chunk, parallel columns, [maxTime <= t]
    and either no sample or the tags [sampleTag]. *)
Definition ready (t : Z) (s : MemSeries ListChunk) : Prop :=
  timestamps s ≠ [] ∧
  chunksParallel s ∧
  maxTime s ≤ t ∧
  (numSamples s = 0 ∨ (periodType s = sampleTag ∧ sampleType s = sampleTag)).

(** Three samples with the timestamps 1, 2 and 3 and a flat value for the
    key [k]. *)
Definition threeSamples : list Profile := profilesFrom (treeOf [valueNode "k" 7] []) 0 3.

Definition run3 : list (result unit) * state (C:=ListChunk) :=
  appendAll threeSamples (freshAppender, freshSeries).

(** 121 samples, then two more: the first chunk of every column is sealed
    by the roll at the 121st sample. *)
Definition samples121 : list Profile := profilesFrom (treeOf [valueNode "k" 7] []) 0 121.

Definition run121 : list (result unit) * state (C:=ListChunk) :=
  appendAll samples121 (freshAppender, freshSeries).

Definition twoMore : list Profile := profilesFrom (treeOf [valueNode "k" 7] []) 121 2.

(** The appender taken from the fresh series, used again after the roll at
    the 121st sample: its cursors still stand on the chunks of ordinal 0. *)
Definition staleSample : Profile := profileAt (treeOf [valueNode "k" 7] []) 122.

Definition staleState : state (C:=ListChunk) :=
  (Append staleSample (freshAppender, run121.2.2)).2.

(** A series without a timestamp chunk. *)
Definition emptySeries : MemSeries ListChunk := set_timestamps [] freshSeries.

(** A series of 120 samples on counting chunks: its tail timestamp chunk is
    full. *)
Definition fullSeries : MemSeries CountingChunk :=
  set_timestamps [timestampChunk.mk 1 120 (mkCountingChunk EncDelta 120)]
    (set_durations [mkCountingChunk EncRLE 120]
       (set_periods [mkCountingChunk EncRLE 120]
          (set_flatValues {["k" := [mkCountingChunk EncXOR 120]]}
             (set_periodType sampleTag
                (set_sampleType sampleTag
                   (set_minTime 1
                      (set_maxTime 120
                         (set_numSamples 120 (NewMemSeries [("job", "a")] 1))))))))).

(** A sample after the wrap with a flat value for a key the series has not
    seen: the 65537th. *)
Definition sampleAfterWrap : Profile := profileAt (treeOf [valueNode "j" 9] []) (65536 + 1).

(** A sample of another type than the samples of the runs, with a timestamp
    above theirs. *)
Definition otherTag : ValueType := mkValueType "cpu" "nanoseconds".

Definition sampleOtherTags : Profile :=
  mkProfile (treeOf [] []) (mkMeta otherTag otherTag 65537 10 100).

(** * Properties *)

(** ** The monad *)

Section Monad.
Context {C : Type} `{!chunkenc.Chunk C}.

Lemma bind_run {A B : Type} (m : M (C:=C) A) (f : A → M B) (st : state) :
  (m ≫= f) st =
  match m st with
  | (Ok a, st') => f a st'
  | (Fail e, st') => (Fail e, st')
  | (Panic, st') => (Panic, st')
  end.
Proof. reflexivity. Qed.

Lemma bind_Ok_inv {A B : Type} (m : M (C:=C) A) (f : A → M B) st b st' :
  (m ≫= f) st = (Ok b, st') →
  ∃ a st1, m st = (Ok a, st1) ∧ f a st1 = (Ok b, st').
Proof.
  rewrite bind_run. destruct (m st) as [[a|e|] st1]; intros Heq; try discriminate.
  eauto.
Qed.

Lemma bind_Fail_inv {A B : Type} (m : M (C:=C) A) (f : A → M B) st e st' :
  (m ≫= f) st = (Fail e, st') →
  m st = (Fail e, st') ∨ ∃ a st1, m st = (Ok a, st1) ∧ f a st1 = (Fail e, st').
Proof.
  rewrite bind_run. destruct (m st) as [[a|e1|] st1]; intros Heq; try discriminate.
  - right. eauto.
  - left. congruence.
Qed.

(** *** Running the primitive steps *)

Lemma run_ret_bind {A B} (x : A) (k : A → M (C:=C) B) st : (mret x ≫= k) st = k x st.
Proof. reflexivity. Qed.

Lemma run_bind_assoc {A B D} (m : M (C:=C) A) (f : A → M B) (g : B → M D) st :
  ((m ≫= f) ≫= g) st = (m ≫= (λ x, f x ≫= g)) st.
Proof. rewrite !bind_run. destruct (m st) as [[x|e|] st1]; reflexivity. Qed.

Lemma run_getSeries {B} (k : MemSeries C → M B) a s :
  (getSeries ≫= k) (a, s) = k s (a, s).
Proof. reflexivity. Qed.

Lemma run_getAppender {B} (k : MemSeriesAppender.t → M (C:=C) B) a s :
  (getAppender ≫= k) (a, s) = k a (a, s).
Proof. reflexivity. Qed.

Lemma run_modifySeries {B} f (k : unit → M (C:=C) B) a s :
  (modifySeries f ≫= k) (a, s) = k tt (a, f s).
Proof. reflexivity. Qed.

Lemma run_modifyAppender {B} f (k : unit → M (C:=C) B) a s :
  (modifyAppender f ≫= k) (a, s) = k tt (f a, s).
Proof. reflexivity. Qed.

Lemma run_modifySeries_last f a (s : MemSeries C) :
  modifySeries f (a, s) = (Ok tt, (a, f s)).
Proof. reflexivity. Qed.

Lemma run_modifyAppender_last f a (s : MemSeries C) :
  modifyAppender f (a, s) = (Ok tt, (f a, s)).
Proof. reflexivity. Qed.

Lemma run_throw_bind {A B} e (k : A → M (C:=C) B) st : (throw e ≫= k) st = (Fail e, st).
Proof. reflexivity. Qed.

Lemma run_index_bind {A B} (l : list A) i x (k : A → M (C:=C) B) st :
  l !! i = Some x → (index l i ≫= k) st = k x st.
Proof. intros Hl. rewrite bind_run. unfold index. rewrite Hl. reflexivity. Qed.

Lemma run_index_panic {A B} (l : list A) i (k : A → M (C:=C) B) st :
  l !! i = None → (index l i ≫= k) st = (Panic, st).
Proof. intros Hl. rewrite bind_run. unfold index. rewrite Hl. reflexivity. Qed.

(** *** Assignments that leave an observation of the state alone *)

Lemma keeps_ret {A O} (obs : state (C:=C) → O) (a : A) : keeps obs (mret a).
Proof. intros st. reflexivity. Qed.

Lemma keeps_throw {A O} (obs : state (C:=C) → O) e : keeps obs (throw (A:=A) e).
Proof. intros st. reflexivity. Qed.

Lemma keeps_panic {A O} (obs : state (C:=C) → O) : keeps obs (panic (A:=A)).
Proof. intros st. reflexivity. Qed.

Lemma keeps_getSeries {O} (obs : state (C:=C) → O) : keeps obs getSeries.
Proof. intros st. reflexivity. Qed.

Lemma keeps_getAppender {O} (obs : state (C:=C) → O) : keeps obs getAppender.
Proof. intros st. reflexivity. Qed.

Lemma keeps_index {A O} (obs : state (C:=C) → O) (l : list A) i : keeps obs (index l i).
Proof. intros st. unfold index. destruct (l !! i); reflexivity. Qed.

Lemma keeps_bind {A B O} (obs : state (C:=C) → O) (m : M (C:=C) A) (f : A → M B) :
  keeps obs m → (∀ a, keeps obs (f a)) → keeps obs (m ≫= f).
Proof.
  intros Hm Hf st. rewrite bind_run. specialize (Hm st).
  destruct (m st) as [[a|e|] st1]; simpl in *; try assumption.
  rewrite Hf. assumption.
Qed.

Lemma keeps_modifySeries {O} (obs : state (C:=C) → O) f :
  (∀ a s, obs (a, f s) = obs (a, s)) → keeps obs (modifySeries f).
Proof. intros Hf [a s]. apply Hf. Qed.

Lemma keeps_modifyAppender {O} (obs : state (C:=C) → O) f :
  (∀ a s, obs (f a, s) = obs (a, s)) → keeps obs (modifyAppender f).
Proof. intros Hf [a s]. apply Hf. Qed.

Lemma keeps_forEach {A O} (obs : state (C:=C) → O) (f : A → M (C:=C) unit) l :
  (∀ x, keeps obs (f x)) → keeps obs (forEach f l).
Proof.
  intros Hf. induction l as [|x l IH]; simpl.
  - apply keeps_ret.
  - apply keeps_bind; auto.
Qed.

End Monad.

Create Rewrite HintDb run.
#[global] Hint Rewrite @run_bind_assoc @run_ret_bind @run_getSeries @run_getAppender
  @run_modifySeries @run_modifyAppender @run_modifySeries_last
  @run_modifyAppender_last @run_throw_bind : run.

(** Breaks a computation down to its assignments; each assignment must then
    leave the observation alone by computation. *)
Ltac keeps_tac :=
  repeat first
    [ apply keeps_ret | apply keeps_throw | apply keeps_panic
    | apply keeps_getSeries | apply keeps_getAppender | apply keeps_index
    | apply keeps_forEach; intros
    | apply keeps_bind; [| intros]
    | apply keeps_modifySeries; intros
    | apply keeps_modifyAppender; intros
    | match goal with
      | |- keeps _ (match ?x with _ => _ end) => destruct x
      | |- keeps _ (if ?x then _ else _) => destruct x
      | |- keeps _ (let '(_, _) := ?x in _) => destruct x
      end ].

(** ** The checks of [Append] *)

Section Phases.
Context {C : Type} `{!chunkenc.Chunk C}.
Implicit Types (s : MemSeries C) (a : MemSeriesAppender.t) (p : Profile).

Lemma equalValueType_refl (t : ValueType) : equalValueType t t = true.
Proof. unfold equalValueType. rewrite !String.eqb_refl. reflexivity. Qed.

Lemma fixTypes_run p a s : fixTypes p (a, s) = (Ok tt, (a, withTypes p s)).
Proof.
  unfold fixTypes, withTypes. rewrite bind_run. simpl.
  destruct (numSamples s =? 0); reflexivity.
Qed.

Lemma validate_state p (st : state (C:=C)) : (validate p st).2 = st.
Proof.
  unfold validate. rewrite bind_run. simpl.
  repeat match goal with |- context [if ?b then _ else _] => destruct b end;
    reflexivity.
Qed.

(** What the three checks return, in their order. *)
Lemma validate_result p a s :
  (validate p (a, s)).1 =
  if negb (equalValueType (periodType s) (PeriodType (Meta p)))
  then Fail ErrPeriodTypeMismatch
  else if negb (equalValueType (sampleType s) (SampleType (Meta p)))
  then Fail ErrSampleTypeMismatch
  else if Timestamp (Meta p) <=? maxTime s then Fail ErrOutOfOrderSample
  else Ok tt.
Proof.
  unfold validate. rewrite bind_run. simpl.
  repeat match goal with |- context [if ?b then _ else _] => destruct b end;
    reflexivity.
Qed.

Lemma Append_run p a s :
  Append p (a, s) =
  match (validate p (a, withTypes p s)).1 with
  | Ok _ => store p (a, withTypes p s)
  | Fail e => (Fail e, (a, withTypes p s))
  | Panic => (Panic, (a, withTypes p s))
  end.
Proof.
  unfold Append. rewrite bind_run, fixTypes_run. rewrite bind_run.
  pose proof (validate_state p (a, withTypes p s)) as Hst.
  destruct (validate p (a, withTypes p s)) as [[[]|e|] st1]; simpl in *;
    subst st1; reflexivity.
Qed.

End Phases.

Section Validation.
Context {C : Type} `{!chunkenc.Chunk C}.
Implicit Types (s : MemSeries C) (a : MemSeriesAppender.t) (p : Profile).

Lemma withTypes_numSamples p s : numSamples (withTypes p s) = numSamples s.
Proof. unfold withTypes. destruct (numSamples s =? 0); reflexivity. Qed.

Lemma withTypes_maxTime p s : maxTime (withTypes p s) = maxTime s.
Proof. unfold withTypes. destruct (numSamples s =? 0); reflexivity. Qed.

Lemma withTypes_minTime p s : minTime (withTypes p s) = minTime s.
Proof. unfold withTypes. destruct (numSamples s =? 0); reflexivity. Qed.

Lemma withTypes_chunkCounts p s : chunkCounts (withTypes p s) = chunkCounts s.
Proof. unfold withTypes. destruct (numSamples s =? 0); reflexivity. Qed.

Lemma withTypes_nonzero p s : numSamples s ≠ 0 → withTypes p s = s.
Proof.
  intros Hn. unfold withTypes.
  destruct (numSamples s =? 0) eqn:E; [apply Z.eqb_eq in E; contradiction | reflexivity].
Qed.

Lemma withTypes_zero p s :
  numSamples s = 0 →
  periodType (withTypes p s) = PeriodType (Meta p) ∧
  sampleType (withTypes p s) = SampleType (Meta p).
Proof. intros Hn. unfold withTypes. rewrite Hn. simpl. split; reflexivity. Qed.

(** With matching tags the two type checks pass, also on a first sample. *)
Lemma withTypes_matching p s :
  equalValueType (periodType s) (PeriodType (Meta p)) = true →
  equalValueType (sampleType s) (SampleType (Meta p)) = true →
  equalValueType (periodType (withTypes p s)) (PeriodType (Meta p)) = true ∧
  equalValueType (sampleType (withTypes p s)) (SampleType (Meta p)) = true.
Proof.
  intros Hp Hs. unfold withTypes. destruct (numSamples s =? 0); simpl.
  - split; apply equalValueType_refl.
  - split; assumption.
Qed.

End Validation.

(** ** The errors of [Append] *)

Section StoreErrors.
Context {C : Type} `{!chunkenc.Chunk C}.
Implicit Types (s : MemSeries C) (a : MemSeriesAppender.t) (p : Profile).

Lemma failsOnly_bind {A B} P (m : M (C:=C) A) (f : A → M B) :
  failsOnly P m → (∀ x, failsOnly P (f x)) → failsOnly P (m ≫= f).
Proof.
  intros Hm Hf st e st' Heq. apply bind_Fail_inv in Heq as [Heq|(x & st1 & _ & Heq)].
  - eapply Hm, Heq.
  - eapply Hf, Heq.
Qed.

Lemma failsOnly_ret {A} P (x : A) : failsOnly (C:=C) P (mret x).
Proof. intros st e st' Heq. discriminate. Qed.

Lemma failsOnly_panic {A} P : failsOnly (C:=C) P (panic (A:=A)).
Proof. intros st e st' Heq. discriminate. Qed.

Lemma failsOnly_throw {A} (P : error → Prop) e : P e → failsOnly (C:=C) P (throw (A:=A) e).
Proof. intros He st e' st' Heq. injection Heq as <- _. exact He. Qed.

Lemma failsOnly_getSeries P : failsOnly (C:=C) P getSeries.
Proof. intros st e st' Heq. discriminate. Qed.

Lemma failsOnly_getAppender P : failsOnly (C:=C) P getAppender.
Proof. intros st e st' Heq. discriminate. Qed.

Lemma failsOnly_modifySeries P f : failsOnly (C:=C) P (modifySeries f).
Proof. intros st e st' Heq. discriminate. Qed.

Lemma failsOnly_modifyAppender P f : failsOnly (C:=C) P (modifyAppender f).
Proof. intros st e st' Heq. discriminate. Qed.

Lemma failsOnly_index {A} P (l : list A) i : failsOnly (C:=C) P (index l i).
Proof. intros st e st' Heq. unfold index in Heq. destruct (l !! i); discriminate. Qed.

Lemma failsOnly_forEach {A} P (f : A → M (C:=C) unit) l :
  (∀ x, failsOnly P (f x)) → failsOnly P (forEach f l).
Proof.
  intros Hf. induction l as [|x l IH]; simpl.
  - apply failsOnly_ret.
  - apply failsOnly_bind; auto.
Qed.

End StoreErrors.

Ltac failsOnly_tac :=
  repeat first
    [ apply failsOnly_ret | apply failsOnly_panic
    | apply failsOnly_getSeries | apply failsOnly_getAppender
    | apply failsOnly_modifySeries | apply failsOnly_modifyAppender
    | apply failsOnly_index
    | apply failsOnly_throw; reflexivity
    | apply failsOnly_forEach; intros
    | apply failsOnly_bind; [| intros]
    | match goal with
      | |- failsOnly _ (match ?x with _ => _ end) => destruct x
      | |- failsOnly _ (if ?x then _ else _) => destruct x
      end ].

Section StoreErrorKinds.
Context {C : Type} `{!chunkenc.Chunk C}.
Implicit Types (s : MemSeries C) (a : MemSeriesAppender.t) (p : Profile).

(** After the checks, [Append] only returns wrapped encoder errors. *)
Lemma store_errors p : failsOnly (λ e, validationError e = false) (store (C:=C) p).
Proof.
  unfold store, rollDecision, roll, appendTree, Insert, insertValue, writeSample,
    bookkeeping.
  failsOnly_tac.
Qed.

Lemma Append_validation_error p a s e st' :
  Append p (a, s) = (Fail e, st') → validationError e = true →
  (validate p (a, withTypes p s)).1 = Fail e ∧ st' = (a, withTypes p s).
Proof.
  rewrite Append_run. intros Heq He.
  destruct ((validate p (a, withTypes p s)).1) as [[]|e1|] eqn:Hv.
  - apply store_errors in Heq. congruence.
  - injection Heq as -> <-. split; reflexivity.
  - discriminate.
Qed.

End StoreErrorKinds.

(** ** Rejected samples *)

Section ValidationClaims.
Context {C : Type} `{!chunkenc.Chunk C}.
Implicit Types (s : MemSeries C) (a : MemSeriesAppender.t) (p : Profile).

(** C3.  For every series state and every sample whose type tags match and
    whose timestamp is at most the series' [maxTime], [Append] returns
    [ErrOutOfOrderSample]; [numSamples], [maxTime] and the number of chunks
    of every column (timestamps, durations, periods and each key of
    [flatValues] and [cumulativeValues]) are as before, and so are the
    appender's cursors. *)
Theorem Append_out_of_order a s p :
  equalValueType (periodType s) (PeriodType (Meta p)) = true →
  equalValueType (sampleType s) (SampleType (Meta p)) = true →
  Timestamp (Meta p) ≤ maxTime s →
  ∃ s', Append p (a, s) = (Fail ErrOutOfOrderSample, (a, s')) ∧
        numSamples s' = numSamples s ∧
        maxTime s' = maxTime s ∧
        chunkCounts s' = chunkCounts s.
Proof.
  intros Hp Hs Ht. exists (withTypes p s).
  rewrite withTypes_numSamples, withTypes_maxTime, withTypes_chunkCounts.
  split; [|auto]. rewrite Append_run, validate_result.
  destruct (withTypes_matching p s Hp Hs) as [-> ->]. simpl.
  rewrite withTypes_maxTime.
  destruct (Timestamp (Meta p) <=? maxTime s) eqn:E; [reflexivity|].
  apply Z.leb_gt in E. lia.
Qed.

(** C4, as amended.  When [Append] returns one of the three validation
    errors, the cursors are as before and the series is as before except
    that, when [numSamples] is 0, [periodType] and [sampleType] have been
    assigned the rejected sample's tags.  So a series with
    [numSamples ≠ 0] is unchanged, and a type mismatch, which only such a
    series returns, leaves the series unchanged. *)
Theorem Append_validation_error_state a s p e a' s' :
  validationError e = true →
  Append p (a, s) = (Fail e, (a', s')) →
  a' = a ∧
  s' = withTypes p s ∧
  (numSamples s ≠ 0 → s' = s) ∧
  (e ≠ ErrOutOfOrderSample → numSamples s ≠ 0 ∧ s' = s).
Proof.
  intros He Heq. apply Append_validation_error in Heq as [Hv Hst]; [|exact He].
  injection Hst as -> ->. split; [reflexivity|]. split; [reflexivity|].
  split; [apply withTypes_nonzero|].
  intros Hne.
  assert (numSamples s ≠ 0) as Hn.
  { intros Hz. rewrite validate_result in Hv.
    destruct (withTypes_zero p s Hz) as [Hpt Hst]. rewrite Hpt, Hst in Hv.
    rewrite !equalValueType_refl in Hv. simpl in Hv.
    destruct (Timestamp (Meta p) <=? maxTime (withTypes p s)); congruence. }
  split; [exact Hn | apply withTypes_nonzero, Hn].
Qed.

(** C5, as amended.  On a freshly constructed series, whose [maxTime] is 0,
    [Append] of the first sample returns [ErrOutOfOrderSample] exactly when
    the sample's timestamp is at most 0: a first sample with a positive
    timestamp passes the ordering check. *)
Theorem Append_first_sample_ordering lset id a p :
  (Append p (a, NewMemSeries (C:=C) lset id)).1 = Fail ErrOutOfOrderSample
  ↔ Timestamp (Meta p) ≤ 0.
Proof.
  rewrite Append_run, validate_result.
  destruct (withTypes_zero p (NewMemSeries (C:=C) lset id) eq_refl) as [-> ->].
  rewrite !equalValueType_refl, withTypes_maxTime. simpl.
  destruct (Timestamp (Meta p) <=? 0) eqn:E.
  - apply Z.leb_le in E. simpl. split; [intros _; exact E | reflexivity].
  - apply Z.leb_gt in E. split; [|lia].
    intros Hf.
    destruct (store p (a, withTypes p (NewMemSeries lset id))) as [[[]|e|] st'] eqn:Hs;
      simpl in Hf; try discriminate.
    apply store_errors in Hs. injection Hf as ->. discriminate.
Qed.

End ValidationClaims.

Lemma Append_out_of_order_witness :
  ∃ s', Append (profileAt (treeOf [] []) 3) (oneSampleState.1, oneSampleState.2)
        = (Fail ErrOutOfOrderSample, (oneSampleState.1, s')) ∧
        numSamples s' = numSamples oneSampleState.2 ∧
        maxTime s' = maxTime oneSampleState.2 ∧
        chunkCounts s' = chunkCounts oneSampleState.2.
Proof.
  apply (Append_out_of_order oneSampleState.1 oneSampleState.2
           (profileAt (treeOf [] []) 3)).
  - reflexivity.
  - reflexivity.
  - vm_compute. discriminate.
Defined.

(** C4 as stated fails: a first sample that is out of order leaves its tags
    in the series. *)
Lemma Append_validation_error_mutates :
  let st' := (Append (profileAt (treeOf [] []) 0) (freshAppender, freshSeries)) in
  st'.1 = Fail ErrOutOfOrderSample ∧
  periodType freshSeries = mkValueType "" "" ∧
  periodType st'.2.2 = sampleTag ∧
  st'.2.2 ≠ freshSeries.
Proof.
  vm_compute. repeat split; try reflexivity. intros Heq. discriminate Heq.
Qed.

Lemma Append_validation_error_state_witness :
  let p := profileAt (treeOf [] []) 0 in
  let s' := set_sampleType sampleTag (set_periodType sampleTag freshSeries) in
  freshAppender = freshAppender ∧
  s' = withTypes p freshSeries ∧
  (numSamples freshSeries ≠ 0 → s' = freshSeries) ∧
  (ErrOutOfOrderSample ≠ ErrOutOfOrderSample → numSamples freshSeries ≠ 0 ∧ s' = freshSeries).
Proof.
  apply (Append_validation_error_state freshAppender freshSeries
           (profileAt (treeOf [] []) 0) ErrOutOfOrderSample).
  - reflexivity.
  - reflexivity.
Defined.

(** C5 as stated fails: the first sample of a fresh series is out of order
    when its timestamp is 0, and when it is negative. *)
Lemma Append_first_sample_rejected :
  (Append (profileAt (treeOf [] []) 0) (freshAppender, freshSeries)).1
    = Fail ErrOutOfOrderSample ∧
  (Append (profileAt (treeOf [] []) (-7)) (freshAppender, freshSeries)).1
    = Fail ErrOutOfOrderSample ∧
  numSamples freshSeries = 0 ∧ maxTime freshSeries = 0.
Proof. vm_compute. repeat split; reflexivity. Qed.

(** ** [stats] *)

Section Stats.
Context {C : Type} `{!chunkenc.Chunk C}.
Implicit Types (s : MemSeries C) (m : gmap ProfileTreeValueNodeKey (list C)).

Lemma foldl_snoc_fmap {A B} (f : A → B) (l : list A) (acc : list B) :
  foldl (λ acc c, acc ++ [f c]) acc l = acc ++ (f <$> l).
Proof.
  revert acc. induction l as [|x l IH]; intros acc; simpl.
  - rewrite app_nil_r. reflexivity.
  - rewrite IH, <- app_assoc. reflexivity.
Qed.

Lemma columnStats_loop (l : list (ProfileTreeValueNodeKey * list C)) acc :
  foldl (λ acc kc, foldl (λ acc c, acc ++ [valueStats c]) acc kc.2) acc l
  = acc ++ (valueStats <$> mjoin (l.*2)).
Proof.
  revert acc. induction l as [|[k cs] l IH]; intros acc; simpl.
  - rewrite app_nil_r. reflexivity.
  - rewrite IH, foldl_snoc_fmap, fmap_app, app_assoc. reflexivity.
Qed.

Lemma columnStats_allChunks m : columnStats m = valueStats <$> allChunks m.
Proof. unfold columnStats, allChunks. apply columnStats_loop. Qed.

Lemma elem_of_allChunks m (c : C) :
  c ∈ allChunks m ↔ ∃ k chunks, m !! k = Some chunks ∧ c ∈ chunks.
Proof.
  unfold allChunks. rewrite list_elem_of_join. split.
  - intros (l & Hc & Hl). apply list_elem_of_fmap in Hl as ([k cs] & -> & Hkc).
    apply elem_of_map_to_list in Hkc. eauto.
  - intros (k & cs & Hk & Hc). exists cs. split; [exact Hc|].
    apply list_elem_of_fmap. exists (k, cs). split; [reflexivity|].
    apply elem_of_map_to_list. exact Hk.
Qed.

Lemma length_allChunks m : length (allChunks m) = chunkTotal m.
Proof.
  unfold allChunks, chunkTotal. rewrite length_join, map_fold_foldr.
  induction (map_to_list m) as [|[k cs] l IH]; simpl; [reflexivity|].
  rewrite <- IH. reflexivity.
Qed.

(** C9.  [stats] leaves the series as it found it; the snapshot's [samples]
    is the series' [numSamples]; and [Flat] (resp. [Cumulatives]) holds one
    entry per chunk of every column of [flatValues] (resp.
    [cumulativeValues]), made of the chunk's [NumSamples] and of the length
    of its [Bytes]: it is the image of the list of all those chunks under
    that pairing, its length is the map's total number of chunks, every
    chunk of every key has its entry, and every entry is that of a chunk of
    a key. *)
Theorem stats_snapshot s :
  (stats s).2 = s ∧
  MemSeriesStats.samples (stats s).1 = numSamples s ∧
  MemSeriesStats.Flat (stats s).1
  = (λ c, MemSeriesValueStats.mk (chunkenc.NumSamples c)
            (Z.of_nat (length (chunkenc.Bytes c)))) <$> allChunks (flatValues s) ∧
  MemSeriesStats.Cumulatives (stats s).1
  = (λ c, MemSeriesValueStats.mk (chunkenc.NumSamples c)
            (Z.of_nat (length (chunkenc.Bytes c)))) <$> allChunks (cumulativeValues s) ∧
  length (MemSeriesStats.Flat (stats s).1) = chunkTotal (flatValues s) ∧
  length (MemSeriesStats.Cumulatives (stats s).1) = chunkTotal (cumulativeValues s) ∧
  (∀ k chunks c, flatValues s !! k = Some chunks → c ∈ chunks →
     MemSeriesValueStats.mk (chunkenc.NumSamples c) (Z.of_nat (length (chunkenc.Bytes c)))
     ∈ MemSeriesStats.Flat (stats s).1) ∧
  (∀ k chunks c, cumulativeValues s !! k = Some chunks → c ∈ chunks →
     MemSeriesValueStats.mk (chunkenc.NumSamples c) (Z.of_nat (length (chunkenc.Bytes c)))
     ∈ MemSeriesStats.Cumulatives (stats s).1) ∧
  (∀ e, e ∈ MemSeriesStats.Flat (stats s).1 →
     ∃ k chunks c, flatValues s !! k = Some chunks ∧ c ∈ chunks ∧
       MemSeriesValueStats.samples e = chunkenc.NumSamples c ∧
       MemSeriesValueStats.bytes e = Z.of_nat (length (chunkenc.Bytes c))) ∧
  (∀ e, e ∈ MemSeriesStats.Cumulatives (stats s).1 →
     ∃ k chunks c, cumulativeValues s !! k = Some chunks ∧ c ∈ chunks ∧
       MemSeriesValueStats.samples e = chunkenc.NumSamples c ∧
       MemSeriesValueStats.bytes e = Z.of_nat (length (chunkenc.Bytes c))).
Proof.
  unfold stats; simpl. rewrite !columnStats_allChunks, !length_fmap, !length_allChunks.
  change valueStats
    with (λ c : C, MemSeriesValueStats.mk (chunkenc.NumSamples c)
                     (Z.of_nat (length (chunkenc.Bytes c)))).
  split_and!; try reflexivity.
  - intros k cs c Hk Hc.
    apply (list_elem_of_fmap_2 (λ c : C, MemSeriesValueStats.mk (chunkenc.NumSamples c)
                                 (Z.of_nat (length (chunkenc.Bytes c))))).
    apply elem_of_allChunks. eauto.
  - intros k cs c Hk Hc.
    apply (list_elem_of_fmap_2 (λ c : C, MemSeriesValueStats.mk (chunkenc.NumSamples c)
                                 (Z.of_nat (length (chunkenc.Bytes c))))).
    apply elem_of_allChunks. eauto.
  - intros e He. apply list_elem_of_fmap in He as (c & -> & Hc).
    apply elem_of_allChunks in Hc as (k & cs & Hk & Hc). exists k, cs, c. auto.
  - intros e He. apply list_elem_of_fmap in He as (c & -> & Hc).
    apply elem_of_allChunks in Hc as (k & cs & Hk & Hc). exists k, cs, c. auto.
Qed.

End Stats.

(** ** The counters and bounds of the series *)

Section Books.
Context {C : Type} `{!chunkenc.Chunk C}.
Implicit Types (s : MemSeries C) (a : MemSeriesAppender.t) (p : Profile).

Lemma keepsUnlessOk_total {A O} (obs : state (C:=C) → O) (m : M (C:=C) A) :
  (∀ st, ∃ x, (m st).1 = Ok x) → keepsUnlessOk obs m.
Proof. intros Hm st Hno. destruct (Hm st) as [x Hx]. destruct (Hno x Hx). Qed.

Lemma keepsUnlessOk_bind {A B O} (obs : state (C:=C) → O) (m : M (C:=C) A) (f : A → M B) :
  keeps obs m → (∀ x, keepsUnlessOk obs (f x)) → keepsUnlessOk obs (m ≫= f).
Proof.
  intros Hm Hf st. rewrite bind_run. specialize (Hm st).
  destruct (m st) as [[x|e|] st1]; simpl in *; intros Hno; try assumption.
  rewrite Hf; assumption.
Qed.

Lemma recordLabels_books n a s : books (a, recordLabels n s) = books (a, s).
Proof. unfold recordLabels. repeat case_match; reflexivity. Qed.

Lemma set_columnMap_books col m a s : books (a, set_columnMap col m s) = books (a, s).
Proof. destruct col; reflexivity. Qed.

Lemma rollDecision_keeps {O} (obs : state (C:=C) → O) : keeps obs rollDecision.
Proof. unfold rollDecision. keeps_tac. Qed.

Lemma roll_books t : keeps books (roll t).
Proof. unfold roll. keeps_tac; reflexivity. Qed.

Lemma appendTree_books tree : keeps books (appendTree tree).
Proof.
  unfold appendTree, Insert, insertValue. keeps_tac;
    rewrite ?recordLabels_books, ?set_columnMap_books; reflexivity.
Qed.

Lemma writeSample_books p : keeps books (writeSample p).
Proof. unfold writeSample. keeps_tac; reflexivity. Qed.

Lemma bookkeeping_total p (st : state (C:=C)) : ∃ st', bookkeeping p st = (Ok tt, st').
Proof. unfold bookkeeping. rewrite !bind_run. simpl. eauto. Qed.

Lemma bookkeeping_books p a s :
  books (bookkeeping p (a, s)).2 =
  (uint16_incr (numSamples s),
   (if (minTime s =? 0) && negb (Timestamp (Meta p) =? 0)
    then Timestamp (Meta p) else minTime s),
   Timestamp (Meta p), periodType s, sampleType s,
   (λ n, n + 1) <$> samplesAppended s).
Proof.
  destruct s as [? ? ? ? minT ? ? ? ? ? ? ? ? ? ? ? counter].
  unfold bookkeeping. rewrite !bind_run. simpl.
  destruct ((minT =? 0) && negb (Timestamp (Meta p) =? 0));
    destruct counter; reflexivity.
Qed.

Lemma store_books_unlessOk p : keepsUnlessOk books (store p).
Proof.
  unfold store.
  apply keepsUnlessOk_bind; [apply rollDecision_keeps|]. intros newChunks.
  apply keepsUnlessOk_bind.
  { destruct newChunks; [apply roll_books | apply keeps_ret]. }
  intros _. apply keepsUnlessOk_bind; [apply appendTree_books|]. intros _.
  apply keepsUnlessOk_bind; [apply writeSample_books|]. intros _.
  apply keepsUnlessOk_total. intros st. destruct (bookkeeping_total p st) as [st' ->].
  eauto.
Qed.

(** The state in which an accepted [Append] reaches line 246. *)
Lemma store_Ok_inv p st st' :
  store p st = (Ok tt, st') →
  ∃ newChunks st1 st2 st3,
    rollDecision st = (Ok newChunks, st) ∧
    (if newChunks : bool then roll (Timestamp (Meta p)) else mret tt) st = (Ok tt, st1) ∧
    appendTree (Tree p) st1 = (Ok tt, st2) ∧
    writeSample p st2 = (Ok tt, st3) ∧
    bookkeeping p st3 = (Ok tt, st').
Proof.
  unfold store. intros Heq.
  apply bind_Ok_inv in Heq as (newChunks & st0 & Hd & Heq).
  assert (st0 = st) as ->.
  { pose proof (rollDecision_keeps (λ st, st) st) as Hk. rewrite Hd in Hk. exact Hk. }
  apply bind_Ok_inv in Heq as ([] & st1 & Hr & Heq).
  apply bind_Ok_inv in Heq as ([] & st2 & Ht & Heq).
  apply bind_Ok_inv in Heq as ([] & st3 & Hw & Heq).
  exists newChunks, st1, st2, st3. auto.
Qed.

Lemma store_Ok_books p a s st' :
  store p (a, s) = (Ok tt, st') →
  books st' =
  (uint16_incr (numSamples s),
   (if (minTime s =? 0) && negb (Timestamp (Meta p) =? 0)
    then Timestamp (Meta p) else minTime s),
   Timestamp (Meta p), periodType s, sampleType s,
   (λ n, n + 1) <$> samplesAppended s).
Proof.
  intros Heq. apply store_Ok_inv in Heq as (nc & st1 & st2 & [a3 s3] & _ & Hr & Ht & Hw & Hb).
  assert (books (a3, s3) = books (a, s)) as Hk.
  { pose proof (writeSample_books p st2) as H3. rewrite Hw in H3.
    pose proof (appendTree_books (Tree p) st1) as H2. rewrite Ht in H2.
    assert (books st1 = books (a, s)) as H1.
    { destruct nc.
      - pose proof (roll_books (Timestamp (Meta p)) (a, s)) as H1. rewrite Hr in H1.
        exact H1.
      - injection Hr as <-. reflexivity. }
    simpl in *. congruence. }
  pose proof (bookkeeping_books p a3 s3) as Hbk. rewrite Hb in Hbk. simpl in Hbk.
  rewrite Hbk. unfold books in Hk. simpl in Hk.
  injection Hk as H1 H2 _ H4 H5 H6. rewrite H1, H2, H4, H5, H6. reflexivity.
Qed.

(** An accepted [Append]: the checks passed, and the counters are those of
    lines 255-261. *)
Lemma Append_Ok_books p a s st' :
  Append p (a, s) = (Ok tt, st') →
  maxTime s < Timestamp (Meta p) ∧
  numSamples st'.2 = uint16_incr (numSamples s) ∧
  maxTime st'.2 = Timestamp (Meta p) ∧
  minTime st'.2 = (if (minTime s =? 0) && negb (Timestamp (Meta p) =? 0)
                   then Timestamp (Meta p) else minTime s) ∧
  periodType st'.2 = periodType (withTypes p s) ∧
  sampleType st'.2 = sampleType (withTypes p s).
Proof.
  rewrite Append_run. intros Heq.
  destruct ((validate p (a, withTypes p s)).1) as [[]|e|] eqn:Hv; try discriminate.
  rewrite validate_result, withTypes_maxTime in Hv.
  apply store_Ok_books in Heq. unfold books in Heq.
  rewrite withTypes_numSamples, withTypes_minTime in Heq.
  injection Heq as -> -> -> -> ->.
  repeat split.
  repeat match type of Hv with
         | (if ?b then _ else _) = _ => destruct b eqn:?; try discriminate
         end.
  apply Z.leb_gt. assumption.
Qed.

(** An [Append] that does not return normally leaves the counters alone. *)
Lemma Append_notOk_books p a s :
  (Append p (a, s)).1 ≠ Ok tt →
  numSamples (Append p (a, s)).2.2 = numSamples s ∧
  minTime (Append p (a, s)).2.2 = minTime s ∧
  maxTime (Append p (a, s)).2.2 = maxTime s.
Proof.
  rewrite Append_run. intros Hno.
  destruct ((validate p (a, withTypes p s)).1) as [[]|e|] eqn:Hv; simpl;
    rewrite <- ?(withTypes_numSamples p s), <- ?(withTypes_minTime p s),
            <- ?(withTypes_maxTime p s); auto.
  assert (books (store p (a, withTypes p s)).2 = books (a, withTypes p s)) as Hk.
  { apply store_books_unlessOk. intros []. exact Hno. }
  unfold books in Hk. simpl in Hk.
  rewrite !withTypes_numSamples, !withTypes_minTime, !withTypes_maxTime in *.
  injection Hk as -> -> -> _ _ _. auto.
Qed.

End Books.

Section Counters.
Context {C : Type} `{!chunkenc.Chunk C}.
Implicit Types (s : MemSeries C) (a : MemSeriesAppender.t) (p : Profile).

Lemma appendAll_cons p ps (st : state (C:=C)) :
  appendAll (p :: ps) st =
  ((Append p st).1 :: (appendAll ps (Append p st).2).1,
   (appendAll ps (Append p st).2).2).
Proof.
  simpl. destruct (Append p st) as [r st1]. simpl.
  destruct (appendAll ps st1) as [rs st2]. reflexivity.
Qed.

Lemma uint16_incr_range n : uint16_incr n mod 65536 = uint16_incr n.
Proof. unfold uint16_incr. apply Z.mod_mod. lia. Qed.

Lemma uint16_incr_add n k :
  (uint16_incr n + k) mod 65536 = (n + (1 + k)) mod 65536.
Proof.
  unfold uint16_incr. rewrite Zplus_mod_idemp_l. f_equal. lia.
Qed.

(** One call: what the counters become, by what the call returns. *)
Lemma Append_counters p a s :
  let r := Append p (a, s) in
  if accepted r.1
  then numSamples r.2.2 = uint16_incr (numSamples s) ∧
       maxTime r.2.2 = timestampOf p ∧
       minTime r.2.2 = (if (minTime s =? 0) && negb (timestampOf p =? 0)
                        then timestampOf p else minTime s)
  else numSamples r.2.2 = numSamples s ∧
       maxTime r.2.2 = maxTime s ∧
       minTime r.2.2 = minTime s.
Proof.
  simpl. destruct (Append p (a, s)) as [[[]|e|] st'] eqn:Heq; simpl.
  - apply Append_Ok_books in Heq. tauto.
  - pose proof (Append_notOk_books p a s) as Hk. rewrite Heq in Hk. simpl in Hk.
    destruct Hk as (? & ? & ?); [discriminate | auto].
  - pose proof (Append_notOk_books p a s) as Hk. rewrite Heq in Hk. simpl in Hk.
    destruct Hk as (? & ? & ?); [discriminate | auto].
Qed.

Lemma appendAll_numSamples ps (st : state (C:=C)) :
  numSamples st.2 mod 65536 = numSamples st.2 →
  let r := appendAll ps st in
  numSamples r.2.2
  = (numSamples st.2 + Z.of_nat (length (acceptedProfiles ps r.1))) mod 65536.
Proof.
  revert st. induction ps as [|p ps IH]; intros [a s] Hrange; simpl fst; simpl snd.
  - simpl. rewrite Z.add_0_r. symmetry. exact Hrange.
  - rewrite appendAll_cons. simpl.
    pose proof (Append_counters p a s) as Hc. simpl in Hc.
    destruct (Append p (a, s)) as [r [a1 s1]]. simpl in *.
    destruct (accepted r).
    + destruct Hc as (Hn & _ & _).
      rewrite IH by (simpl; rewrite Hn; apply uint16_incr_range). simpl.
      rewrite Hn, Nat2Z.inj_succ, uint16_incr_add. f_equal. lia.
    + destruct Hc as (Hn & _ & _).
      rewrite IH by (simpl; rewrite Hn; exact Hrange). simpl.
      rewrite Hn. reflexivity.
Qed.

Lemma appendAll_maxTime ps (st : state (C:=C)) :
  let r := appendAll ps st in
  maxTime r.2.2 = default (maxTime st.2) (timestampOf <$> last (acceptedProfiles ps r.1)).
Proof.
  revert st. induction ps as [|p ps IH]; intros [a s]; simpl fst; simpl snd.
  - reflexivity.
  - rewrite appendAll_cons. simpl.
    pose proof (Append_counters p a s) as Hc. simpl in Hc.
    destruct (Append p (a, s)) as [r [a1 s1]]. simpl in *.
    rewrite IH. simpl. destruct (accepted r).
    + destruct Hc as (_ & Hm & _). rewrite Hm, last_cons.
      destruct (last (acceptedProfiles ps _)); reflexivity.
    + destruct Hc as (_ & Hm & _). rewrite Hm. reflexivity.
Qed.

Lemma appendAll_minTime ps (st : state (C:=C)) :
  let r := appendAll ps st in
  minTime r.2.2 = if minTime st.2 =? 0
                  then firstNonzeroTimestamp (acceptedProfiles ps r.1)
                  else minTime st.2.
Proof.
  revert st. induction ps as [|p ps IH]; intros [a s]; simpl fst; simpl snd.
  - simpl. destruct (minTime s =? 0) eqn:E; [|reflexivity].
    apply Z.eqb_eq in E. exact E.
  - rewrite appendAll_cons. simpl.
    pose proof (Append_counters p a s) as Hc. simpl in Hc.
    destruct (Append p (a, s)) as [r [a1 s1]]. simpl in *.
    rewrite IH. simpl. destruct (accepted r).
    + destruct Hc as (_ & _ & Hm). rewrite Hm.
      unfold firstNonzeroTimestamp. rewrite fmap_cons, filter_cons.
      destruct (minTime s =? 0) eqn:E0; simpl; [|rewrite E0; reflexivity].
      destruct (timestampOf p =? 0) eqn:Et; simpl.
      * apply Z.eqb_eq in Et. rewrite E0. rewrite decide_False by tauto. reflexivity.
      * rewrite Et. apply Z.eqb_neq in Et. rewrite decide_True by exact Et. reflexivity.
    + destruct Hc as (_ & _ & Hm). rewrite Hm. reflexivity.
Qed.

(** C6, as amended.  After any sequence of [Append] calls on a fresh series
    (so in particular for samples with strictly increasing timestamps and
    matching tags), of which [N] were accepted, [numSamples] is
    [N mod 2^16]: it is [N] as long as [N < 65536]; and [maxTime] is the
    timestamp of the last accepted sample (0 if none was accepted). *)
Theorem appendAll_numSamples_maxTime lset id a ps :
  let r := appendAll ps (a, NewMemSeries (C:=C) lset id) in
  let N := Z.of_nat (length (acceptedProfiles ps r.1)) in
  numSamples r.2.2 = N mod 65536 ∧
  (N < 65536 → numSamples r.2.2 = N) ∧
  maxTime r.2.2 = lastTimestamp (acceptedProfiles ps r.1).
Proof.
  simpl. split; [|split].
  - rewrite appendAll_numSamples by reflexivity. reflexivity.
  - intros HN. rewrite appendAll_numSamples by reflexivity. simpl.
    apply Z.mod_small. lia.
  - rewrite appendAll_maxTime. reflexivity.
Qed.

(** C7.  On a series that starts from [NewMemSeries], after any sequence of
    [Append] calls, [minTime] is the timestamp of the first accepted sample
    whose timestamp is nonzero (0 while there is none); and once [minTime]
    is set, that is nonzero, no further sequence of calls, accepted or
    rejected, changes it. *)
Theorem appendAll_minTime_first_nonzero lset id a ps :
  (let r := appendAll ps (a, NewMemSeries (C:=C) lset id) in
   minTime r.2.2 = firstNonzeroTimestamp (acceptedProfiles ps r.1)) ∧
  (∀ a' s qs, minTime s ≠ 0 → minTime (appendAll qs (a', s)).2.2 = minTime s).
Proof.
  split.
  - simpl. rewrite appendAll_minTime. reflexivity.
  - intros a' s qs Hset. pose proof (appendAll_minTime qs (a', s)) as Hm.
    simpl in Hm. rewrite Hm.
    destruct (minTime s =? 0) eqn:E; [|reflexivity].
    apply Z.eqb_eq in E. contradiction.
Qed.

End Counters.

(** ** An accepted sample, column by column *)

Section Roll.
Context {C : Type} `{!chunkenc.Chunk C}.
Implicit Types (s : MemSeries C) (a : MemSeriesAppender.t) (p : Profile).

Lemma lastIndex_snoc {A} (l : list A) x : lastIndex (l ++ [x]) = length l.
Proof. unfold lastIndex. rewrite length_app. simpl. lia. Qed.

Lemma lookup_snoc_last {A} (l : list A) x : (l ++ [x]) !! length l = Some x.
Proof. rewrite lookup_app_r by lia. rewrite Nat.sub_diag. reflexivity. Qed.

Lemma lookup_snoc_last' {A} (l : list A) x : (l ++ [x]) !! lastIndex (l ++ [x]) = Some x.
Proof. rewrite lastIndex_snoc. apply lookup_snoc_last. Qed.

Lemma roll_Ok t a s st' :
  roll t (a, s) = (Ok tt, st') → st' = (rollAppender s, rollSeries t s).
Proof.
  destruct s. unfold roll, rollAppender, rollSeries, appendChunk.
  autorewrite with run. cbn -[index lastIndex mbind].
  rewrite (run_index_bind _ _ _ _ _ (lookup_snoc_last' _ _)). cbn -[index lastIndex mbind].
  destruct (chunkenc.Appender chunkenc.NewDeltaChunk); [discriminate|].
  autorewrite with run. cbn -[index lastIndex mbind].
  rewrite (run_index_bind _ _ _ _ _ (lookup_snoc_last' _ _)).
  destruct (chunkenc.Appender chunkenc.NewRLEChunk); [discriminate|].
  autorewrite with run. cbn -[index lastIndex mbind].
  rewrite (run_index_bind _ _ _ _ _ (lookup_snoc_last' _ _)).
  destruct (chunkenc.Appender chunkenc.NewRLEChunk); [discriminate|].
  autorewrite with run. cbn -[index lastIndex mbind].
  intros Heq. injection Heq as <-.
  rewrite !lastIndex_snoc. reflexivity.
Qed.

End Roll.

Section Insert.
Context {C : Type} `{!chunkenc.Chunk C}.
Implicit Types (s : MemSeries C) (a : MemSeriesAppender.t) (p : Profile).
Implicit Types (col : column) (k : ProfileTreeValueNodeKey).

Lemma recordLabels_columnMap col n s :
  columnMap col (recordLabels n s) = columnMap col s.
Proof. unfold recordLabels. destruct col; repeat case_match; reflexivity. Qed.

Lemma recordLabels_fixedColumns n s :
  fixedColumns (recordLabels n s) = fixedColumns s.
Proof. unfold recordLabels. repeat case_match; reflexivity. Qed.

Lemma columnMap_set_eq col m s : columnMap col (set_columnMap col m s) = m.
Proof. destruct col; reflexivity. Qed.

Lemma columnMap_set_ne col col' m s :
  col' ≠ col → columnMap col' (set_columnMap col m s) = columnMap col' s.
Proof. destruct col, col'; intros Hne; try reflexivity; contradiction. Qed.

Lemma set_columnMap_fixedColumns col m s :
  fixedColumns (set_columnMap col m s) = fixedColumns s.
Proof. destruct col; reflexivity. Qed.

Lemma insertValue_Ok slot col n a s st' :
  insertValue slot (col, n) (a, s) = (Ok tt, st') →
  ∃ s', st' = (a, s') ∧
        fixedColumns s' = fixedColumns s ∧
        columnMap col s' =
          <[key n := writeTail slot (Value n)
                       (default (replicate (length (timestamps s)) chunkenc.NewXORChunk)
                          (columnMap col s !! key n))]> (columnMap col s) ∧
        (∀ col', col' ≠ col → columnMap col' s' = columnMap col' s).
Proof.
  unfold insertValue. autorewrite with run.
  destruct (columnMap col s !! key n) as [chunks|] eqn:Hk; autorewrite with run.
  - destruct (chunks !! lastIndex chunks) as [c|] eqn:Hc.
    + rewrite (run_index_bind _ _ _ _ _ Hc).
      destruct (chunkenc.Appender c); [discriminate|]. autorewrite with run.
      intros Heq. injection Heq as <-. eexists. split; [reflexivity|].
      rewrite recordLabels_fixedColumns, set_columnMap_fixedColumns.
      rewrite recordLabels_columnMap, columnMap_set_eq.
      split; [reflexivity|]. split; [reflexivity|].
      intros col' Hne. rewrite recordLabels_columnMap. apply columnMap_set_ne, Hne.
    + rewrite (run_index_panic _ _ _ _ Hc). discriminate.
  - set (chunks := replicate (length (timestamps s)) chunkenc.NewXORChunk).
    destruct (chunks !! lastIndex chunks) as [c|] eqn:Hc.
    + rewrite (run_index_bind _ _ _ _ _ Hc).
      destruct (chunkenc.Appender c); [discriminate|]. autorewrite with run.
      intros Heq. injection Heq as <-. eexists. split; [reflexivity|].
      rewrite recordLabels_fixedColumns, !set_columnMap_fixedColumns.
      rewrite recordLabels_columnMap, !columnMap_set_eq, insert_insert_eq.
      split; [reflexivity|]. split; [reflexivity|].
      intros col' Hne. rewrite recordLabels_columnMap.
      rewrite !columnMap_set_ne by exact Hne. reflexivity.
    + rewrite (run_index_panic _ _ _ _ Hc). discriminate.
Qed.

Lemma valuesOf_cons_eq col n l :
  valuesOf col (key n) ((col, n) :: l) = n :: valuesOf col (key n) l.
Proof. unfold valuesOf. rewrite filter_cons_True by (split; reflexivity). reflexivity. Qed.

Lemma valuesOf_cons_ne col k col0 n l :
  ¬ (col0 = col ∧ key n = k) → valuesOf col k ((col0, n) :: l) = valuesOf col k l.
Proof. intros Hne. unfold valuesOf. rewrite filter_cons_False by exact Hne. reflexivity. Qed.

Lemma writtenColumn_cons slot n vals (chunks : list C) :
  writtenColumn slot (n :: vals) chunks
  = writtenColumn slot vals (writeTail slot (Value n) chunks).
Proof. reflexivity. Qed.

Lemma insertedColumn_written slot ntc n vals (old : option (list C)) :
  insertedColumn slot ntc vals
    (Some (writeTail slot (Value n) (default (replicate ntc chunkenc.NewXORChunk) old)))
  = insertedColumn slot ntc (n :: vals) old.
Proof. unfold insertedColumn. destruct vals; reflexivity. Qed.

Lemma forEach_insertValue_Ok slot l a s st' :
  forEach (insertValue slot) l (a, s) = (Ok tt, st') →
  ∃ s', st' = (a, s') ∧
        fixedColumns s' = fixedColumns s ∧
        ∀ col k, columnMap col s' !! k
                 = insertedColumn slot (length (timestamps s)) (valuesOf col k l)
                     (columnMap col s !! k).
Proof.
  revert s. induction l as [|[col0 n] l IH]; intros s; simpl forEach.
  - intros Heq. injection Heq as <-. exists s. auto.
  - intros Heq. apply bind_Ok_inv in Heq as ([] & st1 & Hv & Heq).
    apply insertValue_Ok in Hv as (s1 & -> & Hfix & Hcol & Hother).
    apply IH in Heq as (s' & -> & Hfix' & Hcols).
    exists s'. split; [reflexivity|]. split; [congruence|].
    assert (timestamps s1 = timestamps s) as Hts by (unfold fixedColumns in Hfix; congruence).
    intros col k. rewrite Hcols, Hts.
    destruct (decide (col0 = col ∧ key n = k)) as [[<- <-]|Hne].
    + rewrite valuesOf_cons_eq, Hcol, lookup_insert_eq.
      apply insertedColumn_written.
    + rewrite valuesOf_cons_ne by exact Hne. f_equal.
      destruct (decide (col = col0)) as [->|Hc].
      * rewrite Hcol. apply lookup_insert_ne. intros Hk. apply Hne. auto.
      * rewrite Hother by exact Hc. reflexivity.
Qed.

(** [appendTree]: the insertion at the slot of the next sample. *)
Lemma appendTree_Ok tree a s st' :
  appendTree tree (a, s) = (Ok tt, st') →
  ∃ s', st' = (a, s') ∧
        numSamples s' = numSamples s ∧
        fixedColumns s' = fixedColumns s ∧
        ∀ col k, columnMap col s' !! k
                 = insertedColumn (nextSlot s) (length (timestamps s))
                     (valuesOf col k (treeValues (Roots tree)))
                     (columnMap col s !! k).
Proof.
  intros Heq. pose proof (appendTree_books tree (a, s)) as Hk. rewrite Heq in Hk.
  revert Heq. unfold appendTree, Insert. autorewrite with run.
  destruct (seriesTree s) eqn:Htree; autorewrite with run; intros Heq;
    apply forEach_insertValue_Ok in Heq as (s' & -> & Hfix & Hcols);
    exists s'; (split; [reflexivity|]);
    (split; [unfold books in Hk; simpl in Hk; congruence|]);
    (split; [exact Hfix|]); exact Hcols.
Qed.

End Insert.

Section Store.
Context {C : Type} `{!chunkenc.Chunk C}.
Implicit Types (s : MemSeries C) (a : MemSeriesAppender.t) (p : Profile).
Implicit Types (col : column) (k : ProfileTreeValueNodeKey).

Lemma rollDecision_Ok a s newChunks st' :
  rollDecision (a, s) = (Ok newChunks, st') →
  ∃ tc, tailTimestamps s = Some tc ∧ newChunks = isFull tc.
Proof.
  unfold rollDecision, tailTimestamps. autorewrite with run.
  destruct (timestamps s !! lastIndex (timestamps s)) as [tc|] eqn:Htc.
  - rewrite (run_index_bind _ _ _ _ _ Htc). intros Heq. injection Heq as <- _.
    exists tc. auto.
  - rewrite (run_index_panic _ _ _ _ Htc). discriminate.
Qed.

Lemma writeSample_run p a s : writeSample p (a, s) = (Ok tt, (a, written p a s)).
Proof. reflexivity. Qed.

Lemma bookkeeping_columns p a s :
  ∃ s', bookkeeping p (a, s) = (Ok tt, (a, s')) ∧
        timestamps s'
          = alter (widenWindow (Timestamp (Meta p))) (lastIndex (timestamps s))
              (timestamps s) ∧
        durations s' = durations s ∧
        periods s' = periods s ∧
        ∀ col, columnMap col s' = columnMap col s.
Proof.
  destruct s as [? ? ? ? minT ? ? ? ? ? ? ? ? ? ? ? counter].
  unfold bookkeeping. autorewrite with run. eexists. split; [reflexivity|].
  simpl. destruct ((minT =? 0) && negb (Timestamp (Meta p) =? 0));
    destruct counter; simpl; repeat split; intros []; reflexivity.
Qed.

(** An accepted [Append] after the checks, column by column: the roll, if
    the tail timestamp chunk was full; then the insertion of the tree; then
    the three writes through the cursors; all at the slot of the sample. *)
Lemma store_Ok_columns p a s a' s' :
  store p (a, s) = (Ok tt, (a', s')) →
  ∃ tc, tailTimestamps s = Some tc ∧
    let a1 := if isFull tc then rollAppender s else a in
    let s1 := if isFull tc then rollSeries (Timestamp (Meta p)) s else s in
    a' = a1 ∧
    timestamps s'
      = alter (widenWindow (Timestamp (Meta p))) (lastIndex (timestamps s1))
          (alter (writeTimestamp (nextSlot s) (Timestamp (Meta p)))
             (MemSeriesAppender.timestamps a1) (timestamps s1)) ∧
    durations s'
      = alter (chunkenc.AppendAt (nextSlot s) (Duration (Meta p)))
          (MemSeriesAppender.duration a1) (durations s1) ∧
    periods s'
      = alter (chunkenc.AppendAt (nextSlot s) (Period (Meta p)))
          (MemSeriesAppender.periods a1) (periods s1) ∧
    ∀ col k, columnMap col s' !! k
             = insertedColumn (nextSlot s) (length (timestamps s1))
                 (valuesOf col k (treeValues (Roots (Tree p))))
                 (columnMap col s1 !! k).
Proof.
  intros Heq.
  apply store_Ok_inv in Heq as (nc & st1 & st2 & st3 & Hd & Hr & Ht & Hw & Hb).
  apply rollDecision_Ok in Hd as (tc & Htc & ->). exists tc. split; [exact Htc|].
  set (a1 := if isFull tc then rollAppender s else a).
  set (s1 := if isFull tc then rollSeries (Timestamp (Meta p)) s else s).
  assert (st1 = (a1, s1)) as ->.
  { unfold a1, s1. destruct (isFull tc).
    - apply roll_Ok in Hr. exact Hr.
    - injection Hr as <-. reflexivity. }
  assert (nextSlot s1 = nextSlot s) as Hslot.
  { unfold s1. destruct (isFull tc); reflexivity. }
  apply appendTree_Ok in Ht as (s2 & -> & Hn & Hfix & Hcols).
  rewrite writeSample_run in Hw. injection Hw as <-.
  destruct (bookkeeping_columns p a1 (written p a1 s2)) as (s3 & Hb' & Hts & Hds & Hps & Hm).
  rewrite Hb' in Hb. injection Hb as <- <-.
  unfold fixedColumns in Hfix. injection Hfix as Hf1 Hf2 Hf3.
  assert (nextSlot s2 = nextSlot s) as Hslot2.
  { rewrite <- Hslot. unfold nextSlot. rewrite Hn. reflexivity. }
  split; [reflexivity|].
  rewrite Hts, Hds, Hps. unfold written. simpl.
  unfold lastIndex. rewrite length_alter, Hslot2, Hf1, Hf2, Hf3.
  repeat split.
  intros col k. rewrite Hm, <- Hslot, <- Hcols.
  destruct col; reflexivity.
Qed.

End Store.

(** ** Parallel columns *)

Section Parallel.
Context {C : Type} `{!chunkenc.Chunk C}.
Implicit Types (s : MemSeries C) (a : MemSeriesAppender.t) (p : Profile).
Implicit Types (col : column) (k : ProfileTreeValueNodeKey).

Lemma chunksParallel_columnMap s :
  chunksParallel s ↔
  length (durations s) = length (timestamps s) ∧
  length (periods s) = length (timestamps s) ∧
  ∀ col k chunks, columnMap col s !! k = Some chunks →
    length chunks = length (timestamps s).
Proof.
  unfold chunksParallel. split.
  - intros (Hd & Hp & Hf & Hc). repeat split; try assumption.
    intros [] k chunks; simpl; eauto.
  - intros (Hd & Hp & Hm). repeat split; try assumption.
    + intros k chunks. apply (Hm FlatColumn).
    + intros k chunks. apply (Hm CumulativeColumn).
Qed.

Lemma withTypes_columnMap p col s : columnMap col (withTypes p s) = columnMap col s.
Proof. unfold withTypes. destruct (numSamples s =? 0), col; reflexivity. Qed.

Lemma withTypes_timestamps p s : timestamps (withTypes p s) = timestamps s.
Proof. unfold withTypes. destruct (numSamples s =? 0); reflexivity. Qed.

Lemma withTypes_durations p s : durations (withTypes p s) = durations s.
Proof. unfold withTypes. destruct (numSamples s =? 0); reflexivity. Qed.

Lemma withTypes_periods p s : periods (withTypes p s) = periods s.
Proof. unfold withTypes. destruct (numSamples s =? 0); reflexivity. Qed.

Lemma withTypes_nextSlot p s : nextSlot (withTypes p s) = nextSlot s.
Proof. unfold nextSlot. rewrite withTypes_numSamples. reflexivity. Qed.

Lemma withTypes_chunksParallel p s : chunksParallel (withTypes p s) ↔ chunksParallel s.
Proof.
  rewrite !chunksParallel_columnMap.
  rewrite withTypes_timestamps, withTypes_durations, withTypes_periods.
  setoid_rewrite withTypes_columnMap. reflexivity.
Qed.

Lemma columnMap_rollSeries t col s :
  columnMap col (rollSeries t s) = appendChunk chunkenc.NewXORChunk <$> columnMap col s.
Proof. destruct col; reflexivity. Qed.

Lemma rollSeries_chunksParallel t s : chunksParallel s → chunksParallel (rollSeries t s).
Proof.
  rewrite !chunksParallel_columnMap. intros (Hd & Hp & Hm).
  simpl. unfold appendChunk. rewrite !length_app, Hd, Hp. repeat split.
  intros col k chunks. rewrite columnMap_rollSeries, lookup_fmap.
  destruct (columnMap col s !! k) as [old|] eqn:Hk; simpl; [|discriminate].
  intros Heq. injection Heq as <-. unfold appendChunk. rewrite length_app.
  rewrite (Hm col k old Hk). reflexivity.
Qed.

Lemma length_writeTail slot v (chunks : list C) :
  length (writeTail slot v chunks) = length chunks.
Proof. unfold writeTail. apply length_alter. Qed.

Lemma length_writtenColumn slot vals (chunks : list C) :
  length (writtenColumn slot vals chunks) = length chunks.
Proof.
  revert chunks. induction vals as [|n vals IH]; intros chunks; [reflexivity|].
  rewrite writtenColumn_cons, IH. apply length_writeTail.
Qed.

(** An inserted column has the chunk count of the timestamp column when the
    column it started from, if any, had. *)
Lemma length_insertedColumn slot ntc vals (old : option (list C)) chunks :
  (∀ o, old = Some o → length o = ntc) →
  insertedColumn slot ntc vals old = Some chunks → length chunks = ntc.
Proof.
  intros Hold. unfold insertedColumn. destruct vals as [|n vals].
  - apply Hold.
  - intros Heq. injection Heq as <-.
    rewrite length_writtenColumn, length_writeTail.
    destruct old as [o|]; [apply Hold; reflexivity | apply length_replicate].
Qed.

Lemma NewMemSeries_chunksParallel lset id : chunksParallel (NewMemSeries (C:=C) lset id).
Proof.
  repeat split; intros k chunks Hk; simpl in Hk; rewrite lookup_empty in Hk;
    discriminate.
Qed.

Lemma store_chunksParallel p a s a' s' :
  chunksParallel s → store p (a, s) = (Ok tt, (a', s')) → chunksParallel s'.
Proof.
  intros Hpar Heq.
  apply store_Ok_columns in Heq as (tc & _ & _ & Hts & Hds & Hps & Hcols).
  set (s1 := if isFull tc then rollSeries (Timestamp (Meta p)) s else s) in *.
  assert (chunksParallel s1) as Hpar1.
  { unfold s1. destruct (isFull tc); [apply rollSeries_chunksParallel|]; exact Hpar. }
  apply chunksParallel_columnMap in Hpar1 as (Hd & Hp & Hm).
  apply chunksParallel_columnMap.
  rewrite Hts, Hds, Hps, !length_alter. repeat split; try assumption.
  intros col k chunks. rewrite Hcols. apply length_insertedColumn.
  intros o Ho. exact (Hm col k o Ho).
Qed.

Lemma Append_chunksParallel p a s a' s' :
  chunksParallel s → Append p (a, s) = (Ok tt, (a', s')) → chunksParallel s'.
Proof.
  intros Hpar. rewrite Append_run.
  destruct ((validate p (a, withTypes p s)).1) as [[]|e|]; try discriminate.
  apply store_chunksParallel. apply withTypes_chunksParallel. exact Hpar.
Qed.

End Parallel.

(** ** The counter and the tail chunks *)

Section Tails.
Context {A : Type}.
Implicit Types (l : list A) (f : A → A).

Lemma lookup_lastIndex l : l !! lastIndex l = last l.
Proof. rewrite last_lookup. unfold lastIndex. f_equal. lia. Qed.

Lemma lastIndex_alter f i l : lastIndex (alter f i l) = lastIndex l.
Proof. unfold lastIndex. rewrite length_alter. reflexivity. Qed.

Lemma last_alter_lastIndex f l : last (alter f (lastIndex l) l) = f <$> last l.
Proof.
  rewrite <- !lookup_lastIndex, lastIndex_alter. apply list_lookup_alter_eq.
Qed.

Lemma alter_snoc f l x : alter f (length l) (l ++ [x]) = l ++ [f x].
Proof.
  replace (length l) with (length l + 0)%nat by lia. rewrite alter_app_r. reflexivity.
Qed.

Lemma alter_lastIndex_snoc f l x : alter f (lastIndex (l ++ [x])) (l ++ [x]) = l ++ [f x].
Proof. rewrite lastIndex_snoc. apply alter_snoc. Qed.

End Tails.

Section Fill.

Lemma fillOf_full n :
  0 ≤ n → fillOf n >= samplesPerChunk →
  n mod samplesPerChunk = 0 ∧ n ≠ 0 ∧
  fillOf (n + 1) = 1 ∧ chunksOf (n + 1) = S (chunksOf n).
Proof.
  unfold fillOf, chunksOf, samplesPerChunk. intros Hn Hfull.
  destruct (n =? 0) eqn:E0; [lia|]. apply Z.eqb_neq in E0.
  destruct (n + 1 =? 0) eqn:E1; [apply Z.eqb_eq in E1; lia|].
  replace (n + 1 - 1) with n by lia.
  assert (n mod 120 = 0) as Hm by (Z.div_mod_to_equations; lia).
  repeat split; try assumption; [lia|].
  rewrite <- Z2Nat.inj_succ by (Z.div_mod_to_equations; lia).
  f_equal. Z.div_mod_to_equations; lia.
Qed.

Lemma fillOf_not_full n :
  0 ≤ n → fillOf n < samplesPerChunk →
  n mod samplesPerChunk = fillOf n ∧
  fillOf (n + 1) = fillOf n + 1 ∧ chunksOf (n + 1) = chunksOf n.
Proof.
  unfold fillOf, chunksOf, samplesPerChunk. intros Hn Hfull.
  destruct (n + 1 =? 0) eqn:E1; [apply Z.eqb_eq in E1; lia|].
  replace (n + 1 - 1) with n by lia.
  destruct (n =? 0) eqn:E0.
  - apply Z.eqb_eq in E0. subst n. repeat split.
  - apply Z.eqb_neq in E0.
    assert (n mod 120 = (n - 1) mod 120 + 1) as Hm by (Z.div_mod_to_equations; lia).
    repeat split; [exact Hm | lia |].
    f_equal. Z.div_mod_to_equations; lia.
Qed.

End Fill.

Section Aligned.
Context {C : Type} `{!chunkenc.Chunk C} `{!chunkenc.ChunkContract C}.
Implicit Types (s : MemSeries C) (a : MemSeriesAppender.t) (p : Profile).
Implicit Types (col : column) (k : ProfileTreeValueNodeKey).

Lemma NumSamples_AppendAt_at (c : C) slot v :
  chunkenc.NumSamples c = slot →
  chunkenc.NumSamples (chunkenc.AppendAt slot v c) = slot + 1.
Proof. intros <-. apply chunkenc.NumSamples_AppendAt_next. Qed.

Lemma NumSamples_first_delta v :
  chunkenc.NumSamples (chunkenc.AppendAt 0 v (chunkenc.NewDeltaChunk (C:=C))) = 1.
Proof. apply (NumSamples_AppendAt_at _ 0), chunkenc.NumSamples_NewDeltaChunk. Qed.

Lemma NumSamples_first_rle v :
  chunkenc.NumSamples (chunkenc.AppendAt 0 v (chunkenc.NewRLEChunk (C:=C))) = 1.
Proof. apply (NumSamples_AppendAt_at _ 0), chunkenc.NumSamples_NewRLEChunk. Qed.

Lemma NumSamples_first_xor v :
  chunkenc.NumSamples (chunkenc.AppendAt 0 v (chunkenc.NewXORChunk (C:=C))) = 1.
Proof. apply (NumSamples_AppendAt_at _ 0), chunkenc.NumSamples_NewXORChunk. Qed.

Lemma tailTimestamps_last s : tailTimestamps s = last (timestamps s).
Proof. apply lookup_lastIndex. Qed.

Lemma tailSamples_timestampChunks s tc :
  tailTimestamps s = Some tc →
  tailSamples (timestampChunks s)
  = Some (chunkenc.NumSamples (timestampChunk.chunk tc)).
Proof.
  rewrite tailTimestamps_last. unfold tailSamples, timestampChunks.
  rewrite fmap_last. intros ->. reflexivity.
Qed.

Lemma chunk_widenWindow t (tc : timestampChunk.t C) :
  timestampChunk.chunk (widenWindow t tc) = timestampChunk.chunk tc.
Proof.
  unfold widenWindow. destruct (timestampChunk.minTime tc >? t); simpl;
    match goal with |- context [if ?b then _ else _] => destruct b end; reflexivity.
Qed.

Lemma withTypes_aligned n p a s : aligned n (a, withTypes p s) ↔ aligned n (a, s).
Proof.
  unfold aligned, boundToTail, timestampChunks. simpl.
  rewrite withTypes_numSamples, withTypes_timestamps, withTypes_durations,
    withTypes_periods, withTypes_chunksParallel. reflexivity.
Qed.

Lemma aligned_slot n a s tc :
  0 ≤ n → aligned n (a, s) → tailTimestamps s = Some tc →
  if isFull tc
  then nextSlot s = 0 ∧ n ≠ 0
  else nextSlot s = chunkenc.NumSamples (timestampChunk.chunk tc).
Proof.
  intros Hn (Hnum & _ & Hts & _) Htc. simpl in *.
  rewrite (tailSamples_timestampChunks s tc Htc) in Hts. injection Hts as Hfill.
  unfold isFull, nextSlot. rewrite Hfill, Hnum.
  destruct (fillOf n >=? samplesPerChunk) eqn:E.
  - destruct (fillOf_full n Hn) as (? & ? & _); [|auto].
    apply Z.geb_le in E. lia.
  - destruct (fillOf_not_full n Hn) as (? & _); [|auto].
    rewrite Z.geb_leb in E. apply Z.leb_gt in E. exact E.
Qed.

Lemma store_aligned n p a s a' s' :
  0 ≤ n < 65535 → aligned n (a, s) →
  store p (a, s) = (Ok tt, (a', s')) → aligned (n + 1) (a', s').
Proof.
  intros Hn Hal Heq.
  pose proof (store_Ok_books p a s _ Heq) as Hbooks.
  assert (chunksParallel s') as Hpar'.
  { eapply store_chunksParallel; [|exact Heq]. apply Hal. }
  apply store_Ok_columns in Heq as (tc & Htc & Ha' & Hts' & Hds' & Hps' & _).
  pose proof (aligned_slot n a s tc (proj1 Hn) Hal Htc) as Hslot.
  destruct Hal as (Hnum & Hbound & Hts & Hds & Hps & Hlen & Hpar). simpl in *.
  rewrite (tailSamples_timestampChunks s tc Htc) in Hts. injection Hts as Hfill.
  unfold books in Hbooks. simpl in Hbooks. injection Hbooks as Hnum' _ _ _ _ _.
  assert (numSamples s' = n + 1) as Hn'.
  { rewrite Hnum', Hnum. unfold uint16_incr. apply Z.mod_small. lia. }
  unfold aligned, boundToTail, tailSamples, timestampChunks. simpl.
  rewrite fmap_last, Hts', Hds', Hps', !lastIndex_alter, !length_alter.
  unfold isFull in *. rewrite Hfill in *.
  destruct (fillOf n >=? samplesPerChunk) eqn:E.
  - apply Z.geb_le in E.
    destruct (fillOf_full n (proj1 Hn)) as (_ & _ & Hf1 & Hc1); [lia|].
    destruct Hslot as [Hslot _]. rewrite Hslot, Hf1, Hc1.
    subst a'. unfold rollAppender, rollSeries, appendChunk. simpl.
    rewrite !lastIndex_snoc, !alter_snoc, !last_snoc.
    rewrite length_app, Hlen. simpl.
    rewrite chunk_widenWindow. simpl.
    rewrite NumSamples_first_delta, !NumSamples_first_rle.
    split_and!; try assumption; try reflexivity. lia.
  - rewrite Z.geb_leb in E. apply Z.leb_gt in E.
    destruct (fillOf_not_full n (proj1 Hn) E) as (_ & Hf1 & Hc1).
    rewrite Hf1, Hc1, Hslot. subst a'. rewrite Hbound. simpl.
    rewrite list_alter_alter_eq, !last_alter_lastIndex.
    unfold tailSamples in Hds, Hps. rewrite tailTimestamps_last in Htc.
    rewrite Htc. simpl. rewrite chunk_widenWindow. simpl.
    destruct (last (durations s)) as [d|]; [|discriminate].
    destruct (last (periods s)) as [pr|]; [|discriminate].
    simpl in *. injection Hds as Hd. injection Hps as Hp.
    rewrite !NumSamples_AppendAt_at by assumption.
    split_and!; try assumption; reflexivity.
Qed.

End Aligned.

Section Columns.
Context {C : Type} `{!chunkenc.Chunk C}.
Implicit Types (s : MemSeries C) (a : MemSeriesAppender.t) (p : Profile).
Implicit Types (col : column) (k : ProfileTreeValueNodeKey).

Lemma writeTail_snoc slot v (l : list C) c :
  writeTail slot v (l ++ [c]) = l ++ [chunkenc.AppendAt slot v c].
Proof. unfold writeTail. apply alter_lastIndex_snoc. Qed.

Lemma writtenColumn_snoc slot vals (l : list C) c :
  writtenColumn slot vals (l ++ [c]) = l ++ [writtenChunk slot vals c].
Proof.
  revert c. induction vals as [|n vals IH]; intros c; [reflexivity|].
  rewrite writtenColumn_cons, writeTail_snoc, IH. reflexivity.
Qed.

(** After a roll, what a tree holds for a key goes to the fresh tail chunk
    of the key's column; the chunks before it are as they were. *)
Lemma insertedColumn_rolled slot ntc vals (old : option (list C)) :
  insertedColumn slot (S ntc) vals (grownColumn true old) =
  match vals with
  | [] => appendChunk chunkenc.NewXORChunk <$> old
  | _ => Some (default (replicate ntc chunkenc.NewXORChunk) old
               ++ [writtenChunk slot vals chunkenc.NewXORChunk])
  end.
Proof.
  unfold insertedColumn, grownColumn. destruct vals as [|n vals]; [reflexivity|].
  f_equal. destruct old as [o|]; simpl default.
  - unfold appendChunk. apply writtenColumn_snoc.
  - rewrite replicate_cons_app. apply writtenColumn_snoc.
Qed.

Lemma timestampChunks_written t slot v i (l : list (timestampChunk.t C)) :
  timestampChunk.chunk <$> alter (widenWindow t) (lastIndex l) (alter (writeTimestamp slot v) i l)
  = alter (chunkenc.AppendAt slot v) i (timestampChunk.chunk <$> l).
Proof.
  rewrite (list_fmap_alter _ _ id).
  - rewrite list_alter_id by reflexivity. apply list_fmap_alter.
    apply Forall_forall. reflexivity.
  - apply Forall_forall. intros tc _. apply chunk_widenWindow.
Qed.

(** An accepted [Append], column by column, in terms of the series it was
    called on. *)
Lemma Append_Ok_columns p a s a' s' :
  Append p (a, s) = (Ok tt, (a', s')) →
  ∃ tc, last (timestamps s) = Some tc ∧
    let rolled := isFull tc in
    let a1 := if rolled then rollAppender s else a in
    a' = a1 ∧
    timestampChunks s'
      = alter (chunkenc.AppendAt (nextSlot s) (Timestamp (Meta p)))
          (MemSeriesAppender.timestamps a1)
          (grown rolled chunkenc.NewDeltaChunk (timestampChunks s)) ∧
    durations s'
      = alter (chunkenc.AppendAt (nextSlot s) (Duration (Meta p)))
          (MemSeriesAppender.duration a1)
          (grown rolled chunkenc.NewRLEChunk (durations s)) ∧
    periods s'
      = alter (chunkenc.AppendAt (nextSlot s) (Period (Meta p)))
          (MemSeriesAppender.periods a1)
          (grown rolled chunkenc.NewRLEChunk (periods s)) ∧
    ∀ col k, columnMap col s' !! k
             = insertedColumn (nextSlot s)
                 (length (grown rolled chunkenc.NewDeltaChunk (timestampChunks s)))
                 (valuesOf col k (treeValues (Roots (Tree p))))
                 (grownColumn rolled (columnMap col s !! k)).
Proof.
  rewrite Append_run.
  destruct ((validate p (a, withTypes p s)).1) as [[]|e|]; try discriminate.
  intros Heq. apply store_Ok_columns in Heq as (tc & Htc & Ha' & Hts & Hds & Hps & Hcols).
  rewrite tailTimestamps_last, withTypes_timestamps in Htc.
  exists tc. split; [exact Htc|]. simpl.
  rewrite withTypes_nextSlot in *. unfold timestampChunks.
  rewrite Hts, Hds, Hps, timestampChunks_written.
  unfold rollAppender in *. rewrite withTypes_timestamps, withTypes_durations,
    withTypes_periods in Ha'.
  split; [exact Ha'|]. subst a'. unfold grown, grownColumn.
  destruct (isFull tc).
  - unfold rollSeries, appendChunk. simpl.
    rewrite withTypes_timestamps, withTypes_durations, withTypes_periods.
    rewrite fmap_app. simpl. split_and!; try reflexivity.
    intros col k. rewrite Hcols, columnMap_rollSeries, lookup_fmap, withTypes_columnMap.
    simpl. rewrite withTypes_timestamps, !length_app, length_fmap. reflexivity.
  - rewrite withTypes_timestamps, withTypes_durations, withTypes_periods.
    split_and!; try reflexivity.
    intros col k. rewrite Hcols, withTypes_columnMap, withTypes_timestamps, length_fmap.
    reflexivity.
Qed.

End Columns.

Section AlignedRuns.
Context {C : Type} `{!chunkenc.Chunk C} `{!chunkenc.ChunkContract C}.
Implicit Types (s : MemSeries C) (a : MemSeriesAppender.t) (p : Profile).
Implicit Types (col : column) (k : ProfileTreeValueNodeKey).

Lemma Appender_NewMemSeries lset id a :
  Appender (NewMemSeries (C:=C) lset id) = Ok a → a = MemSeriesAppender.mk 0 0 0.
Proof.
  unfold Appender. simpl.
  repeat match goal with
         | |- context [match ?x with _ => _ end] => destruct x; try discriminate
         end.
  intros Heq. injection Heq as <-. reflexivity.
Qed.

Lemma NewMemSeries_aligned lset id a :
  Appender (NewMemSeries (C:=C) lset id) = Ok a →
  aligned 0 (a, NewMemSeries lset id).
Proof.
  intros Ha. apply Appender_NewMemSeries in Ha as ->.
  unfold aligned, boundToTail, tailSamples, timestampChunks. simpl.
  rewrite chunkenc.NumSamples_NewDeltaChunk, chunkenc.NumSamples_NewRLEChunk.
  split_and!; try reflexivity. apply NewMemSeries_chunksParallel.
Qed.

Lemma Append_aligned n p a s :
  0 ≤ n → aligned n (a, s) →
  let r := Append p (a, s) in
  regular r.1 = true →
  (accepted r.1 = true → n < 65535) →
  aligned (if accepted r.1 then n + 1 else n) r.2.
Proof.
  intros Hn Hal. simpl. rewrite Append_run.
  destruct ((validate p (a, withTypes p s)).1) as [[]|e|] eqn:Hv; simpl.
  - destruct (store p (a, withTypes p s)) as [[[]|e|] [a' s']] eqn:Hs; simpl.
    + intros _ Hlt. eapply store_aligned; [|apply withTypes_aligned; exact Hal|exact Hs].
      split; [exact Hn | apply Hlt; reflexivity].
    + intros Hreg. apply store_errors in Hs. destruct e; simpl in *; discriminate.
    + discriminate.
  - intros _ _. apply withTypes_aligned. exact Hal.
  - discriminate.
Qed.

Lemma appendAll_aligned ps n (st : state (C:=C)) :
  0 ≤ n → aligned n st →
  let r := appendAll ps st in
  forallb regular r.1 = true →
  n + Z.of_nat (length (acceptedProfiles ps r.1)) ≤ 65535 →
  aligned (n + Z.of_nat (length (acceptedProfiles ps r.1))) r.2.
Proof.
  revert n st. induction ps as [|p ps IH]; intros n [a s] Hn Hal.
  - simpl. intros _ _. rewrite Z.add_0_r. exact Hal.
  - cbv zeta. rewrite appendAll_cons. simpl fst. simpl snd.
    pose proof (Append_aligned n p a s Hn Hal) as Hstep. cbv zeta in Hstep.
    destruct (Append p (a, s)) as [r st1]. simpl fst in *. simpl snd in *.
    simpl forallb. intros Hreg. apply andb_true_iff in Hreg as [Hr Hrs].
    specialize (IH (if accepted r then n + 1 else n) st1).
    simpl acceptedProfiles. destruct (accepted r) eqn:Hacc.
    + simpl length. rewrite Nat2Z.inj_succ. intros Hle.
      replace (n + Z.succ (Z.of_nat (length (acceptedProfiles ps (appendAll ps st1).1))))
        with (n + 1 + Z.of_nat (length (acceptedProfiles ps (appendAll ps st1).1))) by lia.
      apply IH; [lia | apply Hstep; [exact Hr | lia] | exact Hrs | lia].
    + intros Hle. apply IH; [lia | apply Hstep; [exact Hr | discriminate] | exact Hrs | lia].
Qed.

(** The state of a fresh series after calls of which [n <= 65535] were
    accepted and none failed in the encoder or panicked. *)
Lemma fresh_run_aligned lset id a ps :
  Appender (NewMemSeries (C:=C) lset id) = Ok a →
  let r := appendAll ps (a, NewMemSeries lset id) in
  forallb regular r.1 = true →
  Z.of_nat (length (acceptedProfiles ps r.1)) ≤ 65535 →
  aligned (Z.of_nat (length (acceptedProfiles ps r.1))) r.2.
Proof.
  intros Ha. cbv zeta. intros Hreg Hle.
  apply (appendAll_aligned ps 0); [lia | apply NewMemSeries_aligned, Ha | exact Hreg | lia].
Qed.

End AlignedRuns.

(** ** The roll at the 121st sample *)

Section Roll121.
Context {C : Type} `{!chunkenc.Chunk C} `{!chunkenc.ChunkContract C}.
Implicit Types (s : MemSeries C) (a : MemSeriesAppender.t) (p : Profile).
Implicit Types (col : column) (k : ProfileTreeValueNodeKey).

Lemma aligned_columnsHave n a s : aligned n (a, s) → columnsHave (chunksOf n) s.
Proof.
  intros (_ & _ & _ & _ & _ & Hlen & Hd & Hp & Hf & Hc). simpl in *.
  unfold columnsHave. rewrite <- Hlen. auto.
Qed.

Lemma aligned_full_tail n a s tc :
  aligned n (a, s) → last (timestamps s) = Some tc →
  isFull tc = (fillOf n >=? samplesPerChunk).
Proof.
  intros (_ & _ & Hts & _) Htc. simpl in Hts.
  rewrite <- tailTimestamps_last in Htc.
  rewrite (tailSamples_timestampChunks s tc Htc) in Hts. injection Hts as Hfill.
  unfold isFull. rewrite Hfill. reflexivity.
Qed.

(** C1, as amended.  A fresh series, its appender, and calls of which 120
    were accepted (none failing in the encoder): the timestamp, duration
    and period columns and the column of every key of [flatValues] and
    [cumulativeValues] have 1 chunk.  The next accepted call rolls: every
    such column has 2 chunks, the chunk it had followed by a new tail
    chunk.  The new tail chunks of the timestamp, duration and period columns
    report 1 sample.  The new tail chunk of a key's column is a fresh chunk,
    reporting 0 samples, when the sample's tree holds no value for the key,
    and reports 1 sample when the tree holds one value for the key. *)
Theorem roll_at_sample_121 lset id a ps p st' :
  Appender (NewMemSeries (C:=C) lset id) = Ok a →
  let r := appendAll ps (a, NewMemSeries lset id) in
  forallb regular r.1 = true →
  length (acceptedProfiles ps r.1) = 120%nat →
  Append p r.2 = (Ok tt, st') →
  columnsHave 1 r.2.2 ∧
  columnsHave 2 st'.2 ∧
  timestampChunks st'.2
    = timestampChunks r.2.2
      ++ [chunkenc.AppendAt 0 (Timestamp (Meta p)) chunkenc.NewDeltaChunk] ∧
  durations st'.2
    = durations r.2.2 ++ [chunkenc.AppendAt 0 (Duration (Meta p)) chunkenc.NewRLEChunk] ∧
  periods st'.2
    = periods r.2.2 ++ [chunkenc.AppendAt 0 (Period (Meta p)) chunkenc.NewRLEChunk] ∧
  tailSamples (timestampChunks st'.2) = Some 1 ∧
  tailSamples (durations st'.2) = Some 1 ∧
  tailSamples (periods st'.2) = Some 1 ∧
  (∀ col k old, columnMap col r.2.2 !! k = Some old →
     ∃ tail, columnMap col st'.2 !! k = Some (old ++ [tail])) ∧
  (∀ col k chunks, columnMap col st'.2 !! k = Some chunks →
     match valuesOf col k (treeValues (Roots (Tree p))) with
     | [] => last chunks = Some chunkenc.NewXORChunk ∧ tailSamples chunks = Some 0
     | [n] => last chunks = Some (chunkenc.AppendAt 0 (Value n) chunkenc.NewXORChunk) ∧
              tailSamples chunks = Some 1
     | _ => True
     end).
Proof.
  intros Ha. cbv zeta. intros Hreg Hcount Happ.
  pose proof (fresh_run_aligned lset id a ps Ha Hreg) as Hal. cbv zeta in Hal.
  rewrite Hcount in Hal. specialize (Hal ltac:(lia)).
  destruct (appendAll ps (a, NewMemSeries lset id)) as [rs [a0 s0]]. simpl fst in *.
  simpl snd in *. destruct st' as [a' s']. simpl snd.
  pose proof (Append_aligned (Z.of_nat 120) p a0 s0 ltac:(lia) Hal) as Hal'.
  cbv zeta in Hal'.
  rewrite Happ in Hal'. simpl in Hal'. specialize (Hal' eq_refl ltac:(lia)).
  pose proof (aligned_columnsHave _ _ _ Hal) as H1.
  pose proof (aligned_columnsHave _ _ _ Hal') as H2.
  destruct Hal' as (_ & _ & Tts & Tds & Tps & _). simpl in Tts, Tds, Tps.
  apply Append_Ok_columns in Happ as (tc & Htc & _ & Hts & Hds & Hps & Hcols).
  rewrite (aligned_full_tail _ _ _ _ Hal Htc) in *.
  assert (nextSlot s0 = 0) as Hslot.
  { unfold nextSlot. destruct Hal as (Hnum & _). simpl in Hnum. rewrite Hnum.
    reflexivity. }
  rewrite Hslot in *. change (fillOf (Z.of_nat 120) >=? samplesPerChunk) with true in *.
  unfold grown, rollAppender in *. simpl in Hts, Hds, Hps.
  replace (length (timestamps s0)) with (length (timestampChunks s0)) in Hts
    by apply length_fmap.
  rewrite alter_snoc in Hts, Hds, Hps.
  split; [exact H1|]. split; [exact H2|].
  split; [exact Hts|]. split; [exact Hds|]. split; [exact Hps|].
  split; [exact Tts|]. split; [exact Tds|]. split; [exact Tps|].
  assert (∀ col k, columnMap col s' !! k =
            match valuesOf col k (treeValues (Roots (Tree p))) with
            | [] => appendChunk chunkenc.NewXORChunk <$> columnMap col s0 !! k
            | vals => Some (default (replicate (length (timestamps s0)) chunkenc.NewXORChunk)
                              (columnMap col s0 !! k)
                            ++ [writtenChunk 0 vals chunkenc.NewXORChunk])
            end) as Hkeys.
  { intros col k. rewrite Hcols. unfold timestampChunks.
    rewrite length_app, length_fmap. simpl length.
    rewrite Nat.add_1_r, insertedColumn_rolled.
    destruct (valuesOf col k (treeValues (Roots (Tree p)))); reflexivity. }
  split.
  - intros col k old Hold. rewrite Hkeys, Hold. simpl.
    destruct (valuesOf col k (treeValues (Roots (Tree p)))); eauto.
  - intros col k chunks. rewrite Hkeys.
    destruct (valuesOf col k (treeValues (Roots (Tree p)))) as [|n [|n' vals]];
      [| |trivial].
    + destruct (columnMap col s0 !! k) as [old|]; simpl; [|discriminate].
      intros Heq. injection Heq as <-. unfold appendChunk, tailSamples. rewrite last_snoc.
      simpl. rewrite chunkenc.NumSamples_NewXORChunk. auto.
    + intros Heq. injection Heq as <-. unfold tailSamples. rewrite last_snoc. simpl.
      rewrite NumSamples_first_xor. auto.
Qed.

End Roll121.

(** ** The slot of a sample *)

Section SlotClaims.
Context {C : Type} `{!chunkenc.Chunk C} `{!chunkenc.ChunkContract C}.
Implicit Types (s : MemSeries C) (a : MemSeriesAppender.t) (p : Profile).
Implicit Types (col : column) (k : ProfileTreeValueNodeKey).

(** C8, as amended.  Every accepted [Append] uses the one slot
    [numSamples mod 120], taken from the counter before its increment: the
    timestamp, the duration and the period are written at that slot through
    the three cursors, and the value tree is inserted at that slot into the
    series as the roll decision left it.  So when a roll occurred, the
    values of the tree are in the newly rolled tail chunk of their key's
    column, after the untouched earlier chunks.  That slot is 0 whenever the
    roll happens on a series that started fresh and has accepted at most
    65535 samples. *)
Theorem Append_accepted_slot :
  (∀ a s p a' s',
     Append p (a, s) = (Ok tt, (a', s')) →
     ∃ tc, last (timestamps s) = Some tc ∧
       let slot := numSamples s mod samplesPerChunk in
       let rolled := isFull tc in
       let a1 := if rolled then rollAppender s else a in
       a' = a1 ∧
       numSamples s' = uint16_incr (numSamples s) ∧
       timestampChunks s'
         = alter (chunkenc.AppendAt slot (Timestamp (Meta p)))
             (MemSeriesAppender.timestamps a1)
             (grown rolled chunkenc.NewDeltaChunk (timestampChunks s)) ∧
       durations s'
         = alter (chunkenc.AppendAt slot (Duration (Meta p)))
             (MemSeriesAppender.duration a1)
             (grown rolled chunkenc.NewRLEChunk (durations s)) ∧
       periods s'
         = alter (chunkenc.AppendAt slot (Period (Meta p)))
             (MemSeriesAppender.periods a1)
             (grown rolled chunkenc.NewRLEChunk (periods s)) ∧
       (∀ col k,
          columnMap col s' !! k
          = insertedColumn slot
              (length (grown rolled chunkenc.NewDeltaChunk (timestampChunks s)))
              (valuesOf col k (treeValues (Roots (Tree p))))
              (grownColumn rolled (columnMap col s !! k))) ∧
       (rolled = true →
        ∀ col k, valuesOf col k (treeValues (Roots (Tree p))) ≠ [] →
          columnMap col s' !! k
          = Some (default (replicate (length (timestamps s)) chunkenc.NewXORChunk)
                    (columnMap col s !! k)
                  ++ [writtenChunk slot (valuesOf col k (treeValues (Roots (Tree p))))
                        chunkenc.NewXORChunk]))) ∧
  (∀ lset id a ps p st' tc,
     Appender (NewMemSeries (C:=C) lset id) = Ok a →
     let r := appendAll ps (a, NewMemSeries lset id) in
     forallb regular r.1 = true →
     Z.of_nat (length (acceptedProfiles ps r.1)) ≤ 65535 →
     Append p r.2 = (Ok tt, st') →
     last (timestamps r.2.2) = Some tc →
     isFull tc = true →
     numSamples r.2.2 mod samplesPerChunk = 0).
Proof.
  split.
  - intros a s p a' s' Heq.
    pose proof (Append_Ok_books p a s _ Heq) as (_ & Hnum & _).
    apply Append_Ok_columns in Heq as (tc & Htc & Ha' & Hts & Hds & Hps & Hcols).
    exists tc. split; [exact Htc|]. cbv zeta.
    split; [exact Ha'|]. split; [exact Hnum|]. split; [exact Hts|].
    split; [exact Hds|]. split; [exact Hps|]. split; [exact Hcols|].
    intros Hrolled col k Hvals. rewrite Hcols, Hrolled. unfold grown, timestampChunks.
    rewrite length_app, length_fmap. simpl length. rewrite Nat.add_1_r.
    rewrite insertedColumn_rolled.
    destruct (valuesOf col k (treeValues (Roots (Tree p)))); [contradiction|reflexivity].
  - intros lset id a ps p st' tc Ha. cbv zeta. intros Hreg Hcount _ Htc Hfull.
    pose proof (fresh_run_aligned lset id a ps Ha Hreg Hcount) as Hal.
    destruct (appendAll ps (a, NewMemSeries lset id)) as [rs [a0 s0]].
    simpl fst in *. simpl snd in *.
    rewrite <- tailTimestamps_last in Htc.
    pose proof (λ Hn, aligned_slot _ a0 s0 tc Hn Hal Htc) as Hslot.
    specialize (Hslot ltac:(lia)). rewrite Hfull in Hslot. apply Hslot.
Qed.

End SlotClaims.

(** ** The 16-bit counter *)

Section Wrap.
Context {C : Type} `{!chunkenc.Chunk C}.
Implicit Types (s : MemSeries C) (a : MemSeriesAppender.t) (p : Profile).

Lemma keeps_books_tags {A} (m : M (C:=C) A) : keeps books m → keeps tagsOf m.
Proof.
  intros Hm st. specialize (Hm st). unfold books, tagsOf in *. congruence.
Qed.

Lemma bookkeeping_tags p : keeps (C:=C) tagsOf (bookkeeping p).
Proof.
  intros [a s]. pose proof (bookkeeping_books p a s) as Hb.
  unfold books, tagsOf in *. simpl in *. congruence.
Qed.

Lemma store_tags p : keeps (C:=C) tagsOf (store p).
Proof.
  unfold store.
  apply keeps_bind; [apply rollDecision_keeps|]. intros newChunks.
  apply keeps_bind.
  { destruct newChunks; [apply keeps_books_tags, roll_books | apply keeps_ret]. }
  intros _. apply keeps_bind; [apply keeps_books_tags, appendTree_books|]. intros _.
  apply keeps_bind; [apply keeps_books_tags, writeSample_books|]. intros _.
  apply bookkeeping_tags.
Qed.

(** Whatever [Append] returns, the tags after the call are those lines
    171-174 left. *)
Lemma Append_tags p a s :
  periodType (Append p (a, s)).2.2 = periodType (withTypes p s) ∧
  sampleType (Append p (a, s)).2.2 = sampleType (withTypes p s).
Proof.
  rewrite Append_run.
  destruct ((validate p (a, withTypes p s)).1) as [[]|e|]; simpl; auto.
  pose proof (store_tags p (a, withTypes p s)) as Hk. unfold tagsOf in Hk.
  simpl in Hk. injection Hk as -> ->. auto.
Qed.

(** C10.  [numSamples] is a 16-bit counter: it counts the accepted calls
    modulo 2^16.  An accepted [Append] on a series with [numSamples = n]
    leaves [numSamples = (n + 1) mod 65536], a call that is not accepted
    leaves [numSamples] as it was, and after any calls on a new series
    [numSamples] is the number of the accepted ones modulo 65536.  So an
    accepted [Append] on a series with [numSamples = 65535] leaves
    [numSamples = 0], and so does the 65536th accepted [Append] on a new
    series; [numSamples] is always within [0, 65535] after an accepted
    call.  On a series with [numSamples = 0], new or wrapped, the next
    [Append] is a first sample: whatever tags the series had and whatever
    the call returns, the series holds the sample's [PeriodType] and
    [SampleType] afterwards and no type mismatch is returned; and the slot
    of the sample is 0, the timestamp, duration and period being written at
    slot 0 when the call is accepted. *)
Theorem numSamples_wraps :
  (∀ a s p st',
     Append p (a, s) = (Ok tt, st') → numSamples st'.2 = (numSamples s + 1) mod 65536) ∧
  (∀ a s p,
     (Append p (a, s)).1 ≠ Ok tt → numSamples (Append p (a, s)).2.2 = numSamples s) ∧
  (∀ lset id a ps,
     let r := appendAll ps (a, NewMemSeries (C:=C) lset id) in
     numSamples r.2.2 = Z.of_nat (length (acceptedProfiles ps r.1)) mod 65536) ∧
  (∀ a s p st',
     numSamples s = 65535 → Append p (a, s) = (Ok tt, st') → numSamples st'.2 = 0) ∧
  (∀ lset id a ps,
     let r := appendAll ps (a, NewMemSeries (C:=C) lset id) in
     Z.of_nat (length (acceptedProfiles ps r.1)) = 65536 → numSamples r.2.2 = 0) ∧
  (∀ a s p st',
     Append p (a, s) = (Ok tt, st') → 0 ≤ numSamples st'.2 < 65536) ∧
  (∀ a s p,
     numSamples s = 0 →
     let r := Append p (a, s) in
     periodType r.2.2 = PeriodType (Meta p) ∧
     sampleType r.2.2 = SampleType (Meta p) ∧
     r.1 ≠ Fail ErrPeriodTypeMismatch ∧
     r.1 ≠ Fail ErrSampleTypeMismatch ∧
     nextSlot s = 0) ∧
  (∀ a s p a' s',
     numSamples s = 0 → Append p (a, s) = (Ok tt, (a', s')) →
     ∃ tc, last (timestamps s) = Some tc ∧
       timestampChunks s'
         = alter (chunkenc.AppendAt 0 (Timestamp (Meta p)))
             (MemSeriesAppender.timestamps a')
             (grown (isFull tc) chunkenc.NewDeltaChunk (timestampChunks s)) ∧
       durations s'
         = alter (chunkenc.AppendAt 0 (Duration (Meta p)))
             (MemSeriesAppender.duration a')
             (grown (isFull tc) chunkenc.NewRLEChunk (durations s)) ∧
       periods s'
         = alter (chunkenc.AppendAt 0 (Period (Meta p)))
             (MemSeriesAppender.periods a')
             (grown (isFull tc) chunkenc.NewRLEChunk (periods s))).
Proof.
  split_and!.
  - intros a s p st' Heq. apply Append_Ok_books in Heq as (_ & -> & _). reflexivity.
  - intros a s p Hno. apply Append_notOk_books. exact Hno.
  - intros lset id a ps. cbv zeta.
    rewrite appendAll_numSamples by reflexivity. reflexivity.
  - intros a s p st' Hn Heq. apply Append_Ok_books in Heq as (_ & -> & _).
    rewrite Hn. reflexivity.
  - intros lset id a ps. cbv zeta. intros Hcount.
    rewrite appendAll_numSamples by reflexivity. simpl. rewrite Hcount. reflexivity.
  - intros a s p st' Heq. apply Append_Ok_books in Heq as (_ & -> & _).
    unfold uint16_incr. apply Z.mod_pos_bound. lia.
  - intros a s p Hn. cbv zeta.
    destruct (Append_tags p a s) as [-> ->].
    destruct (withTypes_zero p s Hn) as [Hpt Hst]. rewrite Hpt, Hst.
    split; [reflexivity|]. split; [reflexivity|].
    assert ((validate p (a, withTypes p s)).1 = Fail ErrOutOfOrderSample ∨
            (validate p (a, withTypes p s)).1 = Ok tt) as Hv.
    { rewrite validate_result, Hpt, Hst, !equalValueType_refl. simpl.
      destruct (Timestamp (Meta p) <=? maxTime (withTypes p s)); auto. }
    split_and!.
    + intros Hr. destruct (Append p (a, s)) as [r st'] eqn:Heq. simpl in Hr. subst r.
      apply Append_validation_error in Heq as [Hr _]; [|reflexivity].
      destruct Hv as [Hv|Hv]; congruence.
    + intros Hr. destruct (Append p (a, s)) as [r st'] eqn:Heq. simpl in Hr. subst r.
      apply Append_validation_error in Heq as [Hr _]; [|reflexivity].
      destruct Hv as [Hv|Hv]; congruence.
    + unfold nextSlot. rewrite Hn. reflexivity.
  - intros a s p a' s' Hn Heq.
    apply Append_Ok_columns in Heq as (tc & Htc & Ha' & Hts & Hds & Hps & _).
    exists tc. split; [exact Htc|]. cbv zeta in *.
    unfold nextSlot in *. rewrite Hn in *. rewrite Ha'. auto.
Qed.

End Wrap.

(** ** The list-backed chunk meets the contract *)

#[global] Instance ListChunk_Contract : chunkenc.ChunkContract ListChunk.
Proof.
  split; try reflexivity.
  intros c v. simpl. unfold listAppendAt. simpl.
  rewrite Nat2Z.id, Nat.sub_diag, !length_app. simpl. lia.
Qed.

(** ** Runs on the list-backed chunk *)

Lemma roll_at_sample_121_witness :
  columnsHave 1 run120.2.2 ∧
  columnsHave 2 state121.2 ∧
  timestampChunks state121.2
    = timestampChunks run120.2.2
      ++ [chunkenc.AppendAt 0 (Timestamp (Meta sample121)) chunkenc.NewDeltaChunk] ∧
  durations state121.2
    = durations run120.2.2
      ++ [chunkenc.AppendAt 0 (Duration (Meta sample121)) chunkenc.NewRLEChunk] ∧
  periods state121.2
    = periods run120.2.2
      ++ [chunkenc.AppendAt 0 (Period (Meta sample121)) chunkenc.NewRLEChunk] ∧
  tailSamples (timestampChunks state121.2) = Some 1 ∧
  tailSamples (durations state121.2) = Some 1 ∧
  tailSamples (periods state121.2) = Some 1 ∧
  (∀ col k old, columnMap col run120.2.2 !! k = Some old →
     ∃ tail, columnMap col state121.2 !! k = Some (old ++ [tail])) ∧
  (∀ col k chunks, columnMap col state121.2 !! k = Some chunks →
     match valuesOf col k (treeValues (Roots (Tree sample121))) with
     | [] => last chunks = Some chunkenc.NewXORChunk ∧ tailSamples chunks = Some 0
     | [n] => last chunks = Some (chunkenc.AppendAt 0 (Value n) chunkenc.NewXORChunk) ∧
              tailSamples chunks = Some 1
     | _ => True
     end).
Proof.
  assert (Appender freshSeries = Ok freshAppender) as H1 by reflexivity.
  assert (forallb regular run120.1 = true) as H2 by (vm_compute; reflexivity).
  assert (length (acceptedProfiles (profilesFrom (treeOf [valueNode "k" 7] []) 0 120)
                    run120.1) = 120%nat) as H3 by (vm_compute; reflexivity).
  assert (Append sample121 run120.2 = (Ok tt, state121)) as H4
    by (vm_compute; reflexivity).
  exact (roll_at_sample_121 [("job", "a")] 1 freshAppender
           (profilesFrom (treeOf [valueNode "k" 7] []) 0 120) sample121 state121
           H1 H2 H3 H4).
Defined.

(** C1 as stated fails: the key [k] is known after 120 samples and receives
    no value in the 121st; the roll gives its column a second chunk, and
    that new tail chunk reports 0 samples, not 1. *)
Lemma roll_leaves_absent_key_empty :
  forallb accepted run120.1 = true ∧
  length (acceptedProfiles (profilesFrom (treeOf [valueNode "k" 7] []) 0 120) run120.1)
    = 120%nat ∧
  (Append sample121 run120.2).1 = Ok tt ∧
  length <$> flatValues run120.2.2 !! "k" = Some 1%nat ∧
  length <$> flatValues state121.2 !! "k" = Some 2%nat ∧
  tailSamples <$> flatValues state121.2 !! "k" = Some (Some 0) ∧
  tailSamples <$> flatValues state121.2 !! "k" ≠ Some (Some 1).
Proof. vm_compute. repeat split. discriminate. Qed.

Lemma Append_accepted_slot_witness :
  (∃ tc, last (timestamps run120.2.2) = Some tc ∧
     let slot := numSamples run120.2.2 mod samplesPerChunk in
     let rolled := isFull tc in
     let a1 := if rolled then rollAppender run120.2.2 else run120.2.1 in
     state121.1 = a1 ∧
     numSamples state121.2 = uint16_incr (numSamples run120.2.2) ∧
     timestampChunks state121.2
       = alter (chunkenc.AppendAt slot (Timestamp (Meta sample121)))
           (MemSeriesAppender.timestamps a1)
           (grown rolled chunkenc.NewDeltaChunk (timestampChunks run120.2.2)) ∧
     durations state121.2
       = alter (chunkenc.AppendAt slot (Duration (Meta sample121)))
           (MemSeriesAppender.duration a1)
           (grown rolled chunkenc.NewRLEChunk (durations run120.2.2)) ∧
     periods state121.2
       = alter (chunkenc.AppendAt slot (Period (Meta sample121)))
           (MemSeriesAppender.periods a1)
           (grown rolled chunkenc.NewRLEChunk (periods run120.2.2)) ∧
     (∀ col k,
        columnMap col state121.2 !! k
        = insertedColumn slot
            (length (grown rolled chunkenc.NewDeltaChunk (timestampChunks run120.2.2)))
            (valuesOf col k (treeValues (Roots (Tree sample121))))
            (grownColumn rolled (columnMap col run120.2.2 !! k))) ∧
     (rolled = true →
      ∀ col k, valuesOf col k (treeValues (Roots (Tree sample121))) ≠ [] →
        columnMap col state121.2 !! k
        = Some (default (replicate (length (timestamps run120.2.2)) chunkenc.NewXORChunk)
                  (columnMap col run120.2.2 !! k)
                ++ [writtenChunk slot
                      (valuesOf col k (treeValues (Roots (Tree sample121))))
                      chunkenc.NewXORChunk]))) ∧
  numSamples run120.2.2 mod samplesPerChunk = 0.
Proof.
  assert (Append sample121 (run120.2.1, run120.2.2) = (Ok tt, (state121.1, state121.2)))
    as Happ by (vm_compute; reflexivity).
  assert (Appender freshSeries = Ok freshAppender) as H1 by reflexivity.
  assert (forallb regular run120.1 = true) as H2 by (vm_compute; reflexivity).
  assert (Z.of_nat (length (acceptedProfiles
                              (profilesFrom (treeOf [valueNode "k" 7] []) 0 120)
                              run120.1)) ≤ 65535) as H3 by (vm_compute; discriminate).
  assert (Append sample121 run120.2 = (Ok tt, state121)) as H4
    by (vm_compute; reflexivity).
  assert (last (timestamps run120.2.2)
          = Some (timestampChunk.mk 1 120
                    (mkListChunk EncDelta (map Z.of_nat (seq 1 120))))) as H5
    by (vm_compute; reflexivity).
  split.
  - exact (proj1 (Append_accepted_slot (C:=ListChunk))
             run120.2.1 run120.2.2 sample121 state121.1 state121.2 Happ).
  - exact (proj2 (Append_accepted_slot (C:=ListChunk))
             [("job", "a")] 1 freshAppender
             (profilesFrom (treeOf [valueNode "k" 7] []) 0 120) sample121 state121
             _ H1 H2 H3 H4 H5 eq_refl).
Defined.

Lemma appendAll_minTime_first_nonzero_witness :
  minTime oneSampleState.2 = 5 ∧
  minTime (appendAll [profileAt (treeOf [] []) 3; profileAt (treeOf [] []) 9]
             (oneSampleState.1, oneSampleState.2)).2.2
  = minTime oneSampleState.2.
Proof.
  split; [reflexivity|].
  apply (proj2 (appendAll_minTime_first_nonzero (C:=ListChunk) [("job", "a")] 1
                  freshAppender [])).
  vm_compute. discriminate.
Defined.


(** ** Chunks whose cursors never fail

    With such chunks [Append] returns normally whenever the checks pass on
    a series with a timestamp chunk and parallel columns. *)

Section Accepting.
Context {C : Type} `{!chunkenc.Chunk C}.
Hypothesis cursor_ok : ∀ c : C, chunkenc.Appender c = None.
Implicit Types (s : MemSeries C) (a : MemSeriesAppender.t) (p : Profile).
Implicit Types (col : column) (k : ProfileTreeValueNodeKey).

Lemma lookup_lastIndex_nonempty {A} (l : list A) :
  l ≠ [] → ∃ x, l !! lastIndex l = Some x.
Proof.
  intros Hne. rewrite lookup_lastIndex. apply last_is_Some in Hne as [x Hx]. eauto.
Qed.

Lemma nonempty_length {A} (l : list A) : l ≠ [] ↔ (0 < length l)%nat.
Proof. destruct l; simpl; split; intros; try congruence; lia. Qed.

Lemma insertValue_total slot cv a s :
  timestamps s ≠ [] → chunksParallel s →
  ∃ s', insertValue slot cv (a, s) = (Ok tt, (a, s')).
Proof.
  intros Hts Hpar. apply chunksParallel_columnMap in Hpar as (_ & _ & Hm).
  destruct cv as [col n]. unfold insertValue. autorewrite with run.
  destruct (columnMap col s !! key n) as [chunks|] eqn:Hk; autorewrite with run.
  - destruct (lookup_lastIndex_nonempty chunks) as [c Hc].
    { apply nonempty_length. rewrite (Hm col _ _ Hk). apply nonempty_length, Hts. }
    rewrite (run_index_bind _ _ _ _ _ Hc), cursor_ok. autorewrite with run. eauto.
  - destruct (lookup_lastIndex_nonempty
                (replicate (length (timestamps s)) (chunkenc.NewXORChunk (C:=C))))
      as [c Hc].
    { apply nonempty_length. rewrite length_replicate. apply nonempty_length, Hts. }
    rewrite (run_index_bind _ _ _ _ _ Hc), cursor_ok. autorewrite with run. eauto.
Qed.

Lemma insertValue_chunksParallel slot cv a s a' s' :
  chunksParallel s → insertValue slot cv (a, s) = (Ok tt, (a', s')) →
  chunksParallel s' ∧ timestamps s' = timestamps s.
Proof.
  intros Hpar Heq. destruct cv as [col n].
  apply insertValue_Ok in Heq as (s1 & Hst & Hfix & Hcol & Hother).
  injection Hst as -> ->. unfold fixedColumns in Hfix. injection Hfix as Ht Hd Hp.
  split; [|exact Ht].
  apply chunksParallel_columnMap in Hpar as (Hd0 & Hp0 & Hm).
  apply chunksParallel_columnMap. rewrite Ht, Hd, Hp. split_and!; try assumption.
  intros col' k chunks. destruct (decide (col' = col)) as [->|Hne].
  - rewrite Hcol. destruct (decide (key n = k)) as [<-|Hk].
    + rewrite lookup_insert_eq. intros Heq. injection Heq as <-.
      rewrite length_writeTail.
      destruct (columnMap col s !! key n) as [old|] eqn:Hold; simpl.
      * apply (Hm col _ _ Hold).
      * apply length_replicate.
    + rewrite lookup_insert_ne by exact Hk. apply Hm.
  - rewrite Hother by exact Hne. apply Hm.
Qed.

Lemma forEach_insertValue_total slot l a s :
  timestamps s ≠ [] → chunksParallel s →
  ∃ s', forEach (insertValue slot) l (a, s) = (Ok tt, (a, s')).
Proof.
  revert s. induction l as [|cv l IH]; intros s Hts Hpar; simpl forEach.
  - exists s. reflexivity.
  - destruct (insertValue_total slot cv a s Hts Hpar) as [s1 H1].
    rewrite bind_run, H1.
    destruct (insertValue_chunksParallel slot cv a s a s1 Hpar H1) as [Hpar1 Hts1].
    apply IH; [rewrite Hts1; exact Hts | exact Hpar1].
Qed.

Lemma appendTree_total tree a s :
  timestamps s ≠ [] → chunksParallel s →
  ∃ s', appendTree tree (a, s) = (Ok tt, (a, s')).
Proof.
  intros Hts Hpar. unfold appendTree, Insert. autorewrite with run.
  destruct (seriesTree s); autorewrite with run.
  - apply forEach_insertValue_total; assumption.
  - apply forEach_insertValue_total; [exact Hts|].
    destruct Hpar as (? & ? & ? & ?). repeat split; assumption.
Qed.

Lemma roll_total t a s : roll t (a, s) = (Ok tt, (rollAppender s, rollSeries t s)).
Proof.
  destruct s. unfold roll, rollAppender, rollSeries, appendChunk.
  autorewrite with run. cbn -[index lastIndex mbind].
  rewrite (run_index_bind _ _ _ _ _ (lookup_snoc_last' _ _)). cbn -[index lastIndex mbind].
  rewrite cursor_ok. autorewrite with run. cbn -[index lastIndex mbind].
  rewrite (run_index_bind _ _ _ _ _ (lookup_snoc_last' _ _)).
  rewrite cursor_ok. autorewrite with run. cbn -[index lastIndex mbind].
  rewrite (run_index_bind _ _ _ _ _ (lookup_snoc_last' _ _)).
  rewrite cursor_ok. autorewrite with run. cbn -[index lastIndex mbind].
  rewrite !lastIndex_snoc. reflexivity.
Qed.

Lemma store_total p a s :
  timestamps s ≠ [] → chunksParallel s → ∃ st', store p (a, s) = (Ok tt, st').
Proof.
  intros Hts Hpar. unfold store, rollDecision. autorewrite with run.
  destruct (lookup_lastIndex_nonempty (timestamps s) Hts) as [tc Htc].
  rewrite (run_index_bind _ _ _ _ _ Htc). autorewrite with run.
  assert (∃ a1 s1, (if chunkenc.NumSamples (timestampChunk.chunk tc) >=? samplesPerChunk
                    then roll (Timestamp (Meta p)) else mret tt) (a, s)
                   = (Ok tt, (a1, s1)) ∧ timestamps s1 ≠ [] ∧ chunksParallel s1)
    as (a1 & s1 & Hr & Hts1 & Hpar1).
  { destruct (chunkenc.NumSamples (timestampChunk.chunk tc) >=? samplesPerChunk).
    - exists (rollAppender s), (rollSeries (Timestamp (Meta p)) s).
      split; [apply roll_total|]. split; [|apply rollSeries_chunksParallel, Hpar].
      simpl. intros Hnil. apply app_eq_nil in Hnil as [_ Hnil]. discriminate.
    - exists a, s. auto. }
  rewrite bind_run, Hr.
  destruct (appendTree_total (Tree p) a1 s1 Hts1 Hpar1) as [s2 Ht].
  rewrite bind_run, Ht, bind_run, writeSample_run.
  destruct (bookkeeping_total p (a1, written p a1 s2)) as [st' Hb]. eauto.
Qed.

Lemma Append_accepts p a s :
  timestamps s ≠ [] → chunksParallel s →
  equalValueType (periodType (withTypes p s)) (PeriodType (Meta p)) = true →
  equalValueType (sampleType (withTypes p s)) (SampleType (Meta p)) = true →
  maxTime s < Timestamp (Meta p) →
  ∃ st', Append p (a, s) = (Ok tt, st').
Proof.
  intros Hts Hpar Hpt Hst Hmax. rewrite Append_run, validate_result, Hpt, Hst.
  rewrite withTypes_maxTime. simpl.
  destruct (Timestamp (Meta p) <=? maxTime s) eqn:E; [apply Z.leb_le in E; lia|].
  apply store_total.
  - rewrite withTypes_timestamps. exact Hts.
  - apply withTypes_chunksParallel. exact Hpar.
Qed.

End Accepting.

(** ** Long runs on the list-backed chunk *)

Section LongRuns.
Implicit Types (s : MemSeries ListChunk) (a : MemSeriesAppender.t) (p : Profile).

Lemma ListChunk_cursor_ok (c : ListChunk) : chunkenc.Appender c = None.
Proof. reflexivity. Qed.

(** A write at a slot that is not past the next free one appends a sample. *)
Lemma ListChunk_AppendAt_appends (c : ListChunk) slot v :
  0 ≤ slot ≤ chunkenc.NumSamples c →
  chunkenc.NumSamples (chunkenc.AppendAt slot v c) = chunkenc.NumSamples c + 1.
Proof.
  simpl. unfold listAppendAt. simpl. intros Hslot.
  replace (Z.to_nat slot - length (values c))%nat with 0%nat by lia.
  rewrite !length_app. simpl. lia.
Qed.

Lemma length_profilesFrom tree t n : length (profilesFrom tree t n) = n.
Proof. revert t. induction n as [|n IH]; intros t; simpl; [|rewrite IH]; reflexivity. Qed.

Lemma profilesFrom_app tree t n m :
  profilesFrom tree t (n + m)
  = profilesFrom tree t n ++ profilesFrom tree (t + Z.of_nat n) m.
Proof.
  revert t. induction n as [|n IH]; intros t.
  - simpl. rewrite Z.add_0_r. reflexivity.
  - simpl profilesFrom. rewrite IH. simpl. do 3 f_equal. lia.
Qed.

Lemma length_appendAll {C} `{!chunkenc.Chunk C} ps (st : state (C:=C)) :
  length (appendAll ps st).1 = length ps.
Proof.
  revert st. induction ps as [|p ps IH]; intros st; [reflexivity|].
  rewrite appendAll_cons. simpl. rewrite IH. reflexivity.
Qed.

Lemma appendAll_app {C} `{!chunkenc.Chunk C} ps qs (st : state (C:=C)) :
  appendAll (ps ++ qs) st
  = ((appendAll ps st).1 ++ (appendAll qs (appendAll ps st).2).1,
     (appendAll qs (appendAll ps st).2).2).
Proof.
  revert st. induction ps as [|p ps IH]; intros st.
  - simpl. destruct (appendAll qs st). reflexivity.
  - rewrite <- app_comm_cons, !appendAll_cons, IH. reflexivity.
Qed.

Lemma acceptedProfiles_all ps rs :
  length rs = length ps → forallb accepted rs = true → acceptedProfiles ps rs = ps.
Proof.
  revert rs. induction ps as [|p ps IH]; intros [|r rs]; simpl; try discriminate; auto.
  intros Hlen Hacc. apply andb_true_iff in Hacc as [-> Hacc].
  rewrite IH by (try lia; assumption). reflexivity.
Qed.

Lemma ready_freshSeries : ready 0 freshSeries.
Proof.
  split_and!; [discriminate | apply NewMemSeries_chunksParallel | reflexivity | left; reflexivity].
Qed.

(** A ready series accepts the next sample of a run and is ready for the
    one after it. *)
Lemma ready_Append tree t a s :
  ready t s →
  ∃ a' s', Append (profileAt tree (t + 1)) (a, s) = (Ok tt, (a', s')) ∧ ready (t + 1) s'.
Proof.
  intros (Hts & Hpar & Hmax & Htags).
  assert (periodType (withTypes (profileAt tree (t + 1)) s) = sampleTag ∧
          sampleType (withTypes (profileAt tree (t + 1)) s) = sampleTag) as [Hpt Hst].
  { destruct Htags as [Hzero|[Hpt Hst]].
    - apply (withTypes_zero (profileAt tree (t + 1)) s Hzero).
    - unfold withTypes. destruct (numSamples s =? 0); auto. }
  destruct (Append_accepts ListChunk_cursor_ok (profileAt tree (t + 1)) a s)
    as [[a' s'] Heq]; try assumption.
  - rewrite Hpt. reflexivity.
  - rewrite Hst. reflexivity.
  - simpl. lia.
  - exists a', s'. split; [exact Heq|].
    pose proof (Append_Ok_books _ _ _ _ Heq) as (_ & _ & Hmax' & _ & Hpt' & Hst').
    simpl in Hmax', Hpt', Hst'.
    pose proof (Append_chunksParallel _ a s a' s' Hpar Heq) as Hpar'.
    apply Append_Ok_columns in Heq as (tc & _ & _ & Hcols & _).
    split_and!.
    + apply nonempty_length. apply nonempty_length in Hts.
      rewrite <- (length_fmap timestampChunk.chunk). fold (timestampChunks s').
      rewrite Hcols, length_alter. unfold grown, timestampChunks.
      destruct (isFull tc); rewrite ?length_app, length_fmap; lia.
    + exact Hpar'.
    + rewrite Hmax'. reflexivity.
    + right. rewrite Hpt', Hst', Hpt, Hst. auto.
Qed.

End LongRuns.

Section TailCounts.
Implicit Types (s : MemSeries ListChunk) (a : MemSeriesAppender.t) (p : Profile).

(** A run of samples with increasing timestamps on a ready series: every
    sample is accepted, and the series is ready for more. *)
Lemma run_accepted tree n t a s :
  ready t s →
  let r := appendAll (profilesFrom tree t n) (a, s) in
  forallb accepted r.1 = true ∧ ready (t + Z.of_nat n) r.2.2.
Proof.
  revert t a s. induction n as [|n IH]; intros t a s Hready.
  - simpl. rewrite Z.add_0_r. auto.
  - cbv zeta. simpl profilesFrom. rewrite appendAll_cons.
    destruct (ready_Append tree t a s Hready) as (a' & s' & Heq & Hready').
    rewrite Heq. simpl fst. simpl snd.
    destruct (IH (t + 1) a' s' Hready') as [Hacc Hr]. cbv zeta in Hacc, Hr.
    split; [simpl; exact Hacc|].
    replace (t + Z.of_nat (S n)) with (t + 1 + Z.of_nat n) by lia. exact Hr.
Qed.

Lemma run_count tree n t a s :
  ready t s →
  let r := appendAll (profilesFrom tree t n) (a, s) in
  Z.of_nat (length (acceptedProfiles (profilesFrom tree t n) r.1)) = Z.of_nat n.
Proof.
  intros Hready. cbv zeta.
  rewrite acceptedProfiles_all.
  - rewrite length_profilesFrom. reflexivity.
  - apply length_appendAll.
  - apply (run_accepted tree n t a s Hready).
Qed.

Lemma aligned_tailsAt {C} `{!chunkenc.Chunk C} n (st : state (C:=C)) :
  aligned n st → tailsAt (fillOf n) st.
Proof. intros (_ & Hb & Ht & Hd & Hp & _). repeat split; assumption. Qed.

Lemma tailSamples_alter_last (f : ListChunk → ListChunk) (l : list ListChunk) c :
  tailSamples l = Some c →
  (∀ x, chunkenc.NumSamples x = c → chunkenc.NumSamples (f x) = c + 1) →
  tailSamples (alter f (lastIndex l) l) = Some (c + 1).
Proof.
  unfold tailSamples. rewrite last_alter_lastIndex.
  destruct (last l) as [x|]; simpl; [|discriminate].
  intros Heq Hf. injection Heq as Hx. rewrite (Hf x Hx). reflexivity.
Qed.

(** An accepted sample on a series whose tail chunks hold fewer than 120
    samples, at a slot not past the next free one: no roll, and one sample
    more in each tail chunk. *)
Lemma Append_tails c p a s a' s' :
  tailsAt c (a, s) → c < samplesPerChunk → 0 ≤ nextSlot s ≤ c →
  Append p (a, s) = (Ok tt, (a', s')) →
  tailsAt (c + 1) (a', s') ∧ length (timestamps s') = length (timestamps s).
Proof.
  intros (Hb & Ht & Hd & Hp) Hc Hslot Heq. cbn [fst snd] in *.
  apply Append_Ok_columns in Heq as (tc & Htc & Ha' & Hts & Hds & Hps & _).
  assert (isFull tc = false) as Hfull.
  { rewrite <- tailTimestamps_last in Htc.
    pose proof (tailSamples_timestampChunks s tc Htc) as Hcount.
    assert (chunkenc.NumSamples (timestampChunk.chunk tc) = c) as Hcount'
      by congruence.
    unfold isFull. rewrite Hcount', Z.geb_leb. apply Z.leb_gt. exact Hc. }
  rewrite Hfull in *. unfold grown in *. subst a'. rewrite Hb in *.
  cbn [MemSeriesAppender.timestamps MemSeriesAppender.duration
       MemSeriesAppender.periods] in *.
  assert (length (timestamps s') = length (timestamps s)) as Hlen.
  { rewrite <- (length_fmap timestampChunk.chunk (timestamps s')).
    fold (timestampChunks s'). rewrite Hts, length_alter. apply length_fmap. }
  split; [|exact Hlen].
  assert (lastIndex (timestamps s) = lastIndex (timestampChunks s)) as Hli.
  { unfold lastIndex, timestampChunks. rewrite length_fmap. reflexivity. }
  unfold tailsAt, boundToTail. cbn [fst snd].
  rewrite Hts, Hds, Hps, Hli.
  split_and!.
  - f_equal; unfold lastIndex; rewrite ?length_alter; try reflexivity.
    rewrite Hlen. unfold timestampChunks. rewrite length_fmap. reflexivity.
  - apply tailSamples_alter_last; [exact Ht|].
    intros x Hx. rewrite ListChunk_AppendAt_appends by lia. lia.
  - apply tailSamples_alter_last; [exact Hd|].
    intros x Hx. rewrite ListChunk_AppendAt_appends by lia. lia.
  - apply tailSamples_alter_last; [exact Hp|].
    intros x Hx. rewrite ListChunk_AppendAt_appends by lia. lia.
Qed.

(** Accepted samples on a series whose counter is not past its tail count,
    as long as the tail chunks stay within 120 samples: no roll, the
    counter and the tail count advance together. *)
Lemma run_tails ps c j a s :
  tailsAt c (a, s) → numSamples s = j → 0 ≤ j ≤ c →
  c + Z.of_nat (length ps) ≤ samplesPerChunk →
  let r := appendAll ps (a, s) in
  forallb accepted r.1 = true →
  tailsAt (c + Z.of_nat (length ps)) r.2 ∧
  numSamples r.2.2 = j + Z.of_nat (length ps) ∧
  length (timestamps r.2.2) = length (timestamps s).
Proof.
  revert c j a s. induction ps as [|p ps IH]; intros c j a s Htails Hnum Hj Hc.
  - simpl. intros _. rewrite !Z.add_0_r. auto.
  - cbv zeta. rewrite appendAll_cons. simpl fst. simpl snd. simpl forallb.
    destruct (Append p (a, s)) as [[[]|e|] [a' s']] eqn:Heq; simpl; try discriminate.
    intros Hacc. simpl length in Hc. unfold samplesPerChunk in *.
    assert (nextSlot s = j) as Hslot.
    { unfold nextSlot, samplesPerChunk. rewrite Hnum. apply Z.mod_small. lia. }
    destruct (Append_tails c p a s a' s' Htails) as [Htails' Hlen];
      [unfold samplesPerChunk; lia | lia | exact Heq |].
    pose proof (Append_Ok_books _ _ _ _ Heq) as (_ & Hnum' & _). simpl in Hnum'.
    assert (numSamples s' = j + 1) as Hj'.
    { rewrite Hnum', Hnum. unfold uint16_incr. apply Z.mod_small. lia. }
    destruct (IH (c + 1) (j + 1) a' s' Htails' Hj') as (Ht & Hn & Hl);
      [lia | unfold samplesPerChunk; lia | exact Hacc |].
    cbv zeta in Ht, Hn, Hl. rewrite Nat2Z.inj_succ.
    replace (c + Z.succ (Z.of_nat (length ps))) with (c + 1 + Z.of_nat (length ps)) by lia.
    replace (j + Z.succ (Z.of_nat (length ps))) with (j + 1 + Z.of_nat (length ps)) by lia.
    split; [exact Ht|]. split; [exact Hn|]. congruence.
Qed.

End TailCounts.

Section Wrapped.
Implicit Types (s : MemSeries ListChunk) (a : MemSeriesAppender.t) (p : Profile).

Lemma accepted_regular rs : forallb accepted rs = true → forallb regular rs = true.
Proof.
  induction rs as [|r rs IH]; simpl; [auto|].
  intros Hacc. apply andb_true_iff in Hacc as [Hr Hrs].
  rewrite (IH Hrs). destruct r; try discriminate. reflexivity.
Qed.

(** The state of a fresh series after [n <= 65535] samples of a run. *)
Lemma run_aligned tree n :
  Z.of_nat n ≤ 65535 →
  let r := appendAll (profilesFrom tree 0 n) (freshAppender, freshSeries) in
  forallb accepted r.1 = true ∧ aligned (Z.of_nat n) r.2 ∧ ready (Z.of_nat n) r.2.2.
Proof.
  intros Hn. cbv zeta.
  destruct (run_accepted tree n 0 freshAppender freshSeries ready_freshSeries)
    as [Hacc Hready]. cbv zeta in Hacc, Hready.
  pose proof (run_count tree n 0 freshAppender freshSeries ready_freshSeries) as Hcount.
  cbv zeta in Hcount.
  split; [exact Hacc|]. split; [|exact Hready].
  rewrite <- Hcount. unfold freshSeries in *.
  apply (fresh_run_aligned (C:=ListChunk) [("job", "a")] 1 freshAppender
           (profilesFrom tree 0 n)).
  - reflexivity.
  - apply accepted_regular, Hacc.
  - rewrite Hcount. exact Hn.
Qed.

Lemma appendAll_single p (st : state (C:=ListChunk)) :
  appendAll [p] st = ([(Append p st).1], (Append p st).2).
Proof. simpl. destruct (Append p st). reflexivity. Qed.

(** The sample that wraps the counter: the 65536th. *)
Lemma wrap_state tree :
  let r := appendAll (profilesFrom tree 0 (Z.to_nat 65535 + 1))
             (freshAppender, freshSeries) in
  forallb accepted r.1 = true ∧
  tailsAt 16 r.2 ∧ numSamples r.2.2 = 0 ∧ ready 65536 r.2.2 ∧
  length (timestamps r.2.2) = chunksOf 65535.
Proof.
  cbv zeta. rewrite profilesFrom_app, appendAll_app. cbn [fst snd].
  destruct (run_aligned tree (Z.to_nat 65535) ltac:(lia)) as (Hacc & Hal & Hready).
  cbv zeta in Hacc, Hal, Hready. rewrite Z2Nat.id in Hal, Hready by lia.
  rewrite Z.add_0_l, Z2Nat.id by lia.
  destruct (appendAll (profilesFrom tree 0 (Z.to_nat 65535)) (freshAppender, freshSeries))
    as [rs [a s]]. cbn [fst snd] in *.
  change (profilesFrom tree 65535 1) with [profileAt tree (65535 + 1)].
  rewrite appendAll_single. cbn [fst snd].
  destruct (ready_Append tree 65535 a s Hready) as (a' & s' & Heq & Hready').
  rewrite Heq. cbn [fst snd].
  pose proof (aligned_tailsAt _ _ Hal) as Htails.
  change (fillOf 65535) with 15 in Htails.
  destruct Hal as (Hnum & _ & _ & _ & _ & Hlen & _). cbn [fst snd] in Hnum, Hlen.
  destruct (Append_tails 15 (profileAt tree (65535 + 1)) a s a' s' Htails)
    as [Htails' Hlen'];
    [reflexivity | unfold nextSlot; rewrite Hnum; split; discriminate | exact Heq |].
  pose proof (Append_Ok_books _ _ _ _ Heq) as (_ & Hnum' & _). cbn [fst snd] in Hnum'.
  rewrite Hnum in Hnum'.
  split_and!.
  - rewrite forallb_app, Hacc. reflexivity.
  - exact Htails'.
  - exact Hnum'.
  - exact Hready'.
  - congruence.
Qed.

(** 104 samples later the counter is 104 and the tail chunks are full. *)
Lemma runPastWrap_state :
  forallb accepted runPastWrap.1 = true ∧
  tailsAt 120 runPastWrap.2 ∧
  numSamples runPastWrap.2.2 = 104 ∧
  ready 65640 runPastWrap.2.2.
Proof.
  unfold runPastWrap. set (tree := treeOf [valueNode "k" 7] []).
  replace (Z.to_nat 65640) with (Z.to_nat 65535 + 1 + 104)%nat by lia.
  rewrite profilesFrom_app, appendAll_app.
  replace (0 + Z.of_nat (Z.to_nat 65535 + 1)) with 65536 by lia.
  destruct (wrap_state tree) as (Hacc & Htails & Hnum & Hready & _).
  revert Hacc Htails Hnum Hready. cbv zeta.
  generalize (appendAll (profilesFrom tree 0 (Z.to_nat 65535 + 1))
                (freshAppender, freshSeries)).
  intros [rs [a s]]. cbn [fst snd]. intros Hacc Htails Hnum Hready.
  destruct (run_accepted tree 104 65536 a s Hready) as [Hacc3 Hready3].
  cbv zeta in Hacc3, Hready3.
  pose proof (run_tails (profilesFrom tree 65536 104) 16 0 a s Htails Hnum) as Hrun.
  rewrite length_profilesFrom in Hrun.
  destruct Hrun as (Htails3 & Hnum3 & _); [lia | discriminate | exact Hacc3 |].
  split; [rewrite forallb_app, Hacc, Hacc3; reflexivity|].
  split; [exact Htails3|]. split; [exact Hnum3 | exact Hready3].
Qed.

End Wrapped.

(** C6 as stated fails: the samples with the timestamps 1 to 65536 and equal
    tags are all accepted by a fresh series, and [numSamples] is then 0. *)
Lemma appendAll_numSamples_wraps :
  forallb accepted runToWrap.1 = true ∧
  Z.of_nat (length (acceptedProfiles (profilesFrom (treeOf [] []) 0 (Z.to_nat 65536))
                      runToWrap.1)) = 65536 ∧
  numSamples runToWrap.2.2 = 0 ∧
  numSamples runToWrap.2.2 ≠ 65536.
Proof.
  unfold runToWrap.
  destruct (run_accepted (treeOf [] []) (Z.to_nat 65536) 0 freshAppender freshSeries
              ready_freshSeries) as [Hacc _].
  pose proof (run_count (treeOf [] []) (Z.to_nat 65536) 0 freshAppender freshSeries
                ready_freshSeries) as Hcount.
  pose proof (appendAll_numSamples (profilesFrom (treeOf [] []) 0 (Z.to_nat 65536))
                (freshAppender, freshSeries) eq_refl) as Hnum.
  revert Hacc Hcount Hnum. cbv zeta.
  generalize (appendAll (profilesFrom (treeOf [] []) 0 (Z.to_nat 65536))
                (freshAppender, freshSeries)).
  intros [rs [a s]]. cbn [fst snd]. intros Hacc Hcount Hnum.
  rewrite Hcount, Z2Nat.id in Hnum by lia.
  rewrite Hcount, Z2Nat.id by lia.
  change (numSamples freshSeries + 65536) with 65536 in Hnum.
  change (65536 mod 65536) with 0 in Hnum.
  split; [exact Hacc|]. split; [reflexivity|]. split; [exact Hnum|].
  rewrite Hnum. discriminate.
Qed.

(** C8 as stated fails: the 65641st accepted sample of a series rolls, and
    its timestamp and its value land in the newly rolled chunks at slot
    104, behind 104 filled slots, not at slot 0. *)
Lemma roll_past_wrap_not_at_slot_0 :
  let r' := Append samplePastWrap runPastWrap.2 in
  forallb accepted runPastWrap.1 = true ∧
  r'.1 = Ok tt ∧
  isFull <$> last (timestamps runPastWrap.2.2) = Some true ∧
  length (timestamps r'.2.2) = S (length (timestamps runPastWrap.2.2)) ∧
  numSamples runPastWrap.2.2 mod samplesPerChunk = 104 ∧
  numSamples runPastWrap.2.2 mod samplesPerChunk ≠ 0 ∧
  values <$> last (timestampChunks r'.2.2) = Some (replicate 104 0 ++ [65641]) ∧
  values <$> (flatValues r'.2.2 !! "k" ≫= last) = Some (replicate 104 0 ++ [7]).
Proof.
  destruct runPastWrap_state as (Hacc & Htails & Hnum & Hready).
  revert Hacc Htails Hnum Hready. cbv zeta.
  generalize runPastWrap. intros [rs [a s]]. cbn [fst snd].
  intros Hacc Htails Hnum Hready.
  destruct (ready_Append (treeOf [valueNode "k" 7] []) 65640 a s Hready)
    as (a' & s' & Heq & _).
  change (profileAt (treeOf [valueNode "k" 7] []) (65640 + 1)) with samplePastWrap in Heq.
  rewrite Heq. cbn [fst snd].
  apply Append_Ok_columns in Heq as (tc & Htc & _ & Hts & _ & _ & Hcols).
  destruct Htails as (_ & Ht & _). cbn [fst snd] in Ht.
  assert (isFull tc = true) as Hfull.
  { pose proof Htc as Htc'. rewrite <- tailTimestamps_last in Htc'.
    pose proof (tailSamples_timestampChunks s tc Htc') as Hcount.
    assert (chunkenc.NumSamples (timestampChunk.chunk tc) = 120) as Hcount'
      by congruence.
    unfold isFull. rewrite Hcount'. reflexivity. }
  rewrite Hfull in *. unfold nextSlot in *. rewrite Hnum in *.
  change (104 mod samplesPerChunk) with 104 in *.
  unfold grown, rollAppender in *. cbn [MemSeriesAppender.timestamps] in Hts.
  replace (length (timestamps s)) with (length (timestampChunks s)) in Hts
    by apply length_fmap.
  rewrite alter_snoc in Hts.
  split; [exact Hacc|]. split; [reflexivity|].
  split; [rewrite Htc; simpl; rewrite Hfull; reflexivity|].
  split.
  { rewrite <- (length_fmap timestampChunk.chunk (timestamps s')).
    fold (timestampChunks s'). rewrite Hts, length_app. unfold timestampChunks.
    rewrite length_fmap. simpl. lia. }
  split; [reflexivity|]. split; [discriminate|].
  split.
  - rewrite Hts, last_snoc. reflexivity.
  - specialize (Hcols FlatColumn "k"). cbn [columnMap] in Hcols.
    unfold ProfileTreeValueNodeKey in *.
    rewrite Hcols. unfold timestampChunks. rewrite length_app, length_fmap.
    simpl length. rewrite Nat.add_1_r, insertedColumn_rolled.
    change (valuesOf FlatColumn "k" (treeValues (Roots (Tree samplePastWrap))))
      with [valueNode "k" 7].
    simpl. rewrite last_snoc. reflexivity.
Qed.

Lemma numSamples_wraps_witness :
  let ps := profilesFrom (treeOf [] []) 0 (Z.to_nat 65536) in
  let r := appendAll ps (freshAppender, NewMemSeries (C:=ListChunk) [("job", "a")] 1) in
  let r' := Append sampleOtherTags (r.2.1, r.2.2) in
  let qs := profilesFrom (treeOf [] []) 0 (Z.to_nat 65535) in
  let q := appendAll qs (freshAppender, NewMemSeries (C:=ListChunk) [("job", "a")] 1) in
  Z.of_nat (length (acceptedProfiles ps r.1)) = 65536 ∧
  numSamples r.2.2 = 0 ∧
  numSamples r.2.2 = Z.of_nat (length (acceptedProfiles ps r.1)) mod 65536 ∧
  (periodType r'.2.2 = PeriodType (Meta sampleOtherTags) ∧
   sampleType r'.2.2 = SampleType (Meta sampleOtherTags) ∧
   r'.1 ≠ Fail ErrPeriodTypeMismatch ∧
   r'.1 ≠ Fail ErrSampleTypeMismatch ∧
   nextSlot r.2.2 = 0) ∧
  numSamples q.2.2 = 65535 ∧
  (∃ a' s', Append (profileAt (treeOf [] []) (65535 + 1)) (q.2.1, q.2.2) = (Ok tt, (a', s')) ∧
     numSamples s' = (numSamples q.2.2 + 1) mod 65536 ∧
     numSamples s' = 0).
Proof.
  cbv zeta.
  pose proof (run_count (treeOf [] []) (Z.to_nat 65536) 0 freshAppender
                (NewMemSeries (C:=ListChunk) [("job", "a")] 1) ready_freshSeries) as Hcount.
  cbv zeta in Hcount. rewrite Z2Nat.id in Hcount by lia.
  pose proof (proj1 (proj2 (proj2 (proj2 (proj2 (numSamples_wraps (C:=ListChunk))))))
                [("job", "a")] 1 freshAppender
                (profilesFrom (treeOf [] []) 0 (Z.to_nat 65536))) as Hwrap.
  cbv zeta in Hwrap. specialize (Hwrap Hcount).
  pose proof (proj1 (proj2 (proj2 (numSamples_wraps (C:=ListChunk))))
                [("job", "a")] 1 freshAppender
                (profilesFrom (treeOf [] []) 0 (Z.to_nat 65536))) as Hmod.
  cbv zeta in Hmod.
  pose proof (proj1 (proj2 (proj2 (proj2 (proj2 (proj2 (proj2
                          (numSamples_wraps (C:=ListChunk))))))))
                (appendAll (profilesFrom (treeOf [] []) 0 (Z.to_nat 65536))
                   (freshAppender, NewMemSeries (C:=ListChunk) [("job", "a")] 1)).2.1
                (appendAll (profilesFrom (treeOf [] []) 0 (Z.to_nat 65536))
                   (freshAppender, NewMemSeries (C:=ListChunk) [("job", "a")] 1)).2.2
                sampleOtherTags Hwrap) as Hfirst.
  cbv zeta in Hfirst.
  pose proof (run_count (treeOf [] []) (Z.to_nat 65535) 0 freshAppender
                (NewMemSeries (C:=ListChunk) [("job", "a")] 1) ready_freshSeries) as Hcount'.
  cbv zeta in Hcount'. rewrite Z2Nat.id in Hcount' by lia.
  pose proof (proj1 (proj2 (proj2 (numSamples_wraps (C:=ListChunk))))
                [("job", "a")] 1 freshAppender
                (profilesFrom (treeOf [] []) 0 (Z.to_nat 65535))) as Hmod'.
  cbv zeta in Hmod'. rewrite Hcount' in Hmod'.
  change (65535 mod 65536) with 65535 in Hmod'.
  destruct (run_accepted (treeOf [] []) (Z.to_nat 65535) 0 freshAppender
              (NewMemSeries (C:=ListChunk) [("job", "a")] 1) ready_freshSeries)
    as [_ Hready].
  cbv zeta in Hready. rewrite Z.add_0_l, Z2Nat.id in Hready by lia.
  destruct (ready_Append (treeOf [] []) 65535
              (appendAll (profilesFrom (treeOf [] []) 0 (Z.to_nat 65535))
                 (freshAppender, NewMemSeries (C:=ListChunk) [("job", "a")] 1)).2.1
              _ Hready) as (a' & s' & Heq & _).
  exact (conj Hcount (conj Hwrap (conj Hmod (conj Hfirst (conj Hmod'
           (ex_intro _ a' (ex_intro _ s'
              (conj Heq
                 (conj (proj1 (numSamples_wraps (C:=ListChunk)) _ _ _ (a', s') Heq)
                    (proj1 (proj2 (proj2 (proj2 (numSamples_wraps (C:=ListChunk)))))
                       _ _ _ (a', s') Hmod' Heq)))))))))).
Defined.

(** * Further properties *)

(** ** The identity of a series *)

Section Identity.
Context {C : Type} `{!chunkenc.Chunk C}.
Implicit Types (s : MemSeries C) (a : MemSeriesAppender.t) (p : Profile).

Lemma recordLabels_identity n a s : identity (a, recordLabels n s) = identity (a, s).
Proof. unfold recordLabels. repeat case_match; reflexivity. Qed.

Lemma set_columnMap_identity col m a s :
  identity (a, set_columnMap col m s) = identity (a, s).
Proof. destruct col; reflexivity. Qed.

Lemma Append_identity p : keeps (C:=C) identity (Append p).
Proof.
  unfold Append, fixTypes, validate, store, rollDecision, roll, appendTree, Insert,
    insertValue, writeSample, bookkeeping.
  keeps_tac; rewrite ?recordLabels_identity, ?set_columnMap_identity;
    repeat case_match; reflexivity.
Qed.

Lemma appendAll_identity ps (st : state (C:=C)) :
  identity (appendAll ps st).2 = identity st.
Proof.
  revert st. induction ps as [|p ps IH]; intros st; [reflexivity|].
  rewrite appendAll_cons. simpl. rewrite IH. apply Append_identity.
Qed.

(** X1.  [Labels] returns the label set [NewMemSeries] was given, and no
    call of [Append], whatever it returns, changes the label set or the id
    of the series: after any sequence of calls on a new series [Labels]
    still returns the constructor's label set, and the id is the
    constructor's id. *)
Theorem Labels_stable :
  (∀ lset id, Labels (NewMemSeries (C:=C) lset id) = lset) ∧
  (∀ p (st : state (C:=C)),
     Labels (Append p st).2.2 = Labels st.2 ∧ id_ (Append p st).2.2 = id_ st.2) ∧
  (∀ lset id a ps,
     Labels (appendAll ps (a, NewMemSeries (C:=C) lset id)).2.2 = lset ∧
     id_ (appendAll ps (a, NewMemSeries (C:=C) lset id)).2.2 = id).
Proof.
  split; [reflexivity|]. split.
  - intros p st. pose proof (Append_identity p st) as Hk.
    unfold identity in Hk. injection Hk as -> ->. auto.
  - intros lset id a ps.
    pose proof (appendAll_identity ps (a, NewMemSeries lset id)) as Hk.
    unfold identity in Hk. injection Hk as -> ->. auto.
Qed.

End Identity.

(** ** An appender and its series *)

Section Attached.
Context {C : Type} `{!chunkenc.Chunk C}.
Implicit Types (s : MemSeries C) (a : MemSeriesAppender.t) (p q : Profile).

Lemma length_grown {A} (rolled : bool) (x : A) l :
  length (grown rolled x l) = if rolled then S (length l) else length l.
Proof. destruct rolled; simpl; [rewrite length_app; simpl; lia | reflexivity]. Qed.

Lemma Append_Ok_lengths p a s a' s' :
  Append p (a, s) = (Ok tt, (a', s')) →
  ∃ tc, last (timestamps s) = Some tc ∧
    a' = (if isFull tc then rollAppender s else a) ∧
    length (timestamps s')
      = (if isFull tc then S (length (timestamps s)) else length (timestamps s)) ∧
    length (durations s')
      = (if isFull tc then S (length (durations s)) else length (durations s)) ∧
    length (periods s')
      = (if isFull tc then S (length (periods s)) else length (periods s)).
Proof.
  intros Heq. apply Append_Ok_columns in Heq as (tc & Htc & Ha' & Hts & Hds & Hps & _).
  exists tc. split; [exact Htc|]. split; [exact Ha'|].
  apply (f_equal length) in Hts, Hds, Hps.
  unfold timestampChunks in Hts.
  rewrite length_alter, length_grown in Hts, Hds, Hps.
  rewrite !length_fmap in Hts. split_and!; assumption.
Qed.

Lemma Append_attached p a s :
  attached (a, s) → regular (Append p (a, s)).1 = true → attached (Append p (a, s)).2.
Proof.
  intros (Hb & Hpar & Hne).
  destruct (Append p (a, s)) as [[[]|e|] [a' s']] eqn:Heq; cbn [fst snd] in *.
  - intros _. pose proof (Append_chunksParallel p a s a' s' Hpar Heq) as Hpar'.
    apply Append_Ok_lengths in Heq as (tc & Htc & -> & Hl1 & Hl2 & Hl3).
    unfold attached, boundToTail, lastIndex in *. cbn [fst snd] in *.
    split_and!; [|exact Hpar'|].
    + rewrite Hl1, Hl2, Hl3. destruct (isFull tc).
      * unfold rollAppender. f_equal; lia.
      * exact Hb.
    + intros Hnil. rewrite Hnil in Hl1. simpl in Hl1.
      destruct (isFull tc); [lia|]. destruct (timestamps s); [contradiction|discriminate].
  - intros Hreg.
    assert (validationError e = true) as He by (destruct e; simpl in *; congruence).
    apply Append_validation_error in Heq as [_ Hst]; [|exact He].
    injection Hst as -> ->.
    unfold attached, boundToTail in *. cbn [fst snd] in *.
    rewrite withTypes_timestamps, withTypes_durations, withTypes_periods,
      withTypes_chunksParallel. auto.
  - discriminate.
Qed.

Lemma appendAll_attached ps (st : state (C:=C)) :
  attached st → forallb regular (appendAll ps st).1 = true → attached (appendAll ps st).2.
Proof.
  revert st. induction ps as [|p ps IH]; intros [a s] Hat; [auto|].
  rewrite appendAll_cons. cbn [fst snd]. simpl forallb.
  intros Hreg. apply andb_true_iff in Hreg as [Hr Hrs].
  apply IH; [|exact Hrs]. apply Append_attached; assumption.
Qed.

Lemma NewMemSeries_attached lset id a :
  Appender (NewMemSeries (C:=C) lset id) = Ok a → attached (a, NewMemSeries lset id).
Proof.
  intros Ha. unfold Appender in Ha. simpl in Ha.
  repeat match type of Ha with
         | context [match ?x with _ => _ end] => destruct x; try discriminate
         end.
  injection Ha as <-.
  split_and!; [reflexivity | apply NewMemSeries_chunksParallel | discriminate].
Qed.

Lemma Appender_attached a s :
  attached (a, s) →
  Appender s ≠ Panic ∧
  (∀ a', Appender s = Ok a' → a' = a) ∧
  ((∀ c : C, chunkenc.Appender c = None) → Appender s = Ok a).
Proof.
  intros (Hb & (Hd & Hp & _) & Hne). cbn [fst snd] in *.
  unfold boundToTail, lastIndex in Hb. rewrite Hd, Hp in Hb.
  unfold Appender, lastIndex.
  destruct (timestamps s !! (length (timestamps s) - 1)%nat) as [tc|] eqn:Htc.
  2:{ apply lookup_ge_None in Htc. destruct (timestamps s); [contradiction|simpl in *; lia]. }
  apply lookup_lt_Some in Htc as Hlt.
  destruct (lookup_lt_is_Some_2 (durations s) (length (timestamps s) - 1)%nat) as [d Hdd];
    [lia|].
  destruct (lookup_lt_is_Some_2 (periods s) (length (timestamps s) - 1)%nat) as [pr Hpr];
    [lia|].
  rewrite Hdd, Hpr. split_and!.
  - repeat case_match; discriminate.
  - intros a'. repeat case_match; try discriminate. congruence.
  - intros Hok. rewrite !Hok. congruence.
Qed.

(** X2.  [Appender] on a series with index-parallel columns, in terms of
    the tail chunks of the timestamp, duration and period columns: it asks
    them for a cursor in that order and returns the first error it gets, as
    the chunk returned it, without wrapping it; when all three give a
    cursor, the appender it returns has its cursors on the three tail
    chunks. *)
Theorem Appender_on_parallel_columns s ct cd cp :
  chunksParallel s →
  last (timestampChunks s) = Some ct →
  last (durations s) = Some cd →
  last (periods s) = Some cp →
  Appender s =
  match chunkenc.Appender ct with
  | Some e => Fail e
  | None =>
    match chunkenc.Appender cd with
    | Some e => Fail e
    | None =>
      match chunkenc.Appender cp with
      | Some e => Fail e
      | None =>
        Ok (MemSeriesAppender.mk (lastIndex (timestamps s)) (lastIndex (durations s))
              (lastIndex (periods s)))
      end
    end
  end.
Proof.
  intros (Hd & Hp & _) Hct Hcd Hcp. unfold Appender. cbv zeta.
  unfold timestampChunks in Hct. rewrite fmap_last in Hct.
  destruct (last (timestamps s)) as [tc|] eqn:Htc; [|discriminate].
  injection Hct as <-.
  assert (lastIndex (durations s) = lastIndex (timestamps s)) as Hi1
    by (unfold lastIndex; rewrite Hd; reflexivity).
  assert (lastIndex (periods s) = lastIndex (timestamps s)) as Hi2
    by (unfold lastIndex; rewrite Hp; reflexivity).
  rewrite <- (lookup_lastIndex (timestamps s)) in Htc.
  rewrite <- (lookup_lastIndex (durations s)), Hi1 in Hcd.
  rewrite <- (lookup_lastIndex (periods s)), Hi2 in Hcp.
  rewrite Htc, Hcd, Hcp, Hi1, Hi2. reflexivity.
Qed.

(** The cursors after the roll decision stand on the tail chunks of the
    columns as the roll decision left them. *)
Lemma tail_cursors a s (rolled : bool) :
  boundToTail a s →
  MemSeriesAppender.timestamps (if rolled then rollAppender s else a)
  = lastIndex (grown rolled chunkenc.NewDeltaChunk (timestampChunks s)) ∧
  MemSeriesAppender.duration (if rolled then rollAppender s else a)
  = lastIndex (grown rolled chunkenc.NewRLEChunk (durations s)) ∧
  MemSeriesAppender.periods (if rolled then rollAppender s else a)
  = lastIndex (grown rolled chunkenc.NewRLEChunk (periods s)).
Proof.
  intros Hb. unfold grown, timestampChunks. destruct rolled.
  - rewrite !lastIndex_snoc, length_fmap. auto.
  - rewrite Hb. unfold lastIndex. rewrite length_fmap. auto.
Qed.

(** X3.  A series from [NewMemSeries], the appender [Appender] returned for
    it, and any sequence of [Append] calls through that appender, none of
    which failed in the encoder or panicked.  A further call of [Appender]
    on the series does not panic; the appender it returns, if any, has the
    cursors of the appender that made the calls (on the tail chunks of the
    three fixed columns); and it does return one when no chunk refuses a
    cursor. *)
Theorem Appender_after_appends lset id a ps :
  Appender (NewMemSeries (C:=C) lset id) = Ok a →
  let r := appendAll ps (a, NewMemSeries lset id) in
  forallb regular r.1 = true →
  Appender r.2.2 ≠ Panic ∧
  (∀ a', Appender r.2.2 = Ok a' → a' = r.2.1) ∧
  ((∀ c : C, chunkenc.Appender c = None) → Appender r.2.2 = Ok r.2.1).
Proof.
  intros Ha. cbv zeta. intros Hreg.
  pose proof (appendAll_attached ps _ (NewMemSeries_attached lset id a Ha) Hreg) as Hat.
  destruct (appendAll ps (a, NewMemSeries lset id)) as [rs [a1 s1]]. cbn [fst snd] in *.
  apply Appender_attached. exact Hat.
Qed.

(** X4.  On a series without a timestamp chunk (one that [NewMemSeries] did
    not build), [Appender] panics: its index [len(s.timestamps)-1] is out
    of range.  [Append] of a sample that passes the checks panics as well,
    at the roll decision of line 192, and leaves the series as lines 171-174
    left it: unchanged but for the tags of a first sample. *)
Theorem no_timestamp_chunk_panics a s p :
  timestamps s = [] →
  Appender s = Panic ∧
  (numSamples s = 0 ∨
   (equalValueType (periodType s) (PeriodType (Meta p)) = true ∧
    equalValueType (sampleType s) (SampleType (Meta p)) = true) →
   maxTime s < Timestamp (Meta p) →
   Append p (a, s) = (Panic, (a, withTypes p s))).
Proof.
  intros Hnil. split.
  - unfold Appender. rewrite Hnil. reflexivity.
  - intros Htags Hmax. rewrite Append_run, validate_result, withTypes_maxTime.
    assert (equalValueType (periodType (withTypes p s)) (PeriodType (Meta p)) = true ∧
            equalValueType (sampleType (withTypes p s)) (SampleType (Meta p)) = true)
      as [-> ->].
    { destruct Htags as [Hz|[Hp Hs]].
      - destruct (withTypes_zero p s Hz) as [-> ->]. split; apply equalValueType_refl.
      - apply withTypes_matching; assumption. }
    simpl. destruct (Timestamp (Meta p) <=? maxTime s) eqn:E;
      [apply Z.leb_le in E; lia|].
    unfold store, rollDecision. autorewrite with run.
    rewrite run_index_panic; [reflexivity|].
    rewrite withTypes_timestamps, Hnil. reflexivity.
Qed.

End Attached.

(** ** Accepted and rejected samples *)

Section Checks.
Context {C : Type} `{!chunkenc.Chunk C}.
Implicit Types (s : MemSeries C) (a : MemSeriesAppender.t) (p q : Profile).

(** What the three checks return on the series lines 171-174 left, read
    backwards: an accepted sample passed them. *)
Lemma Append_Ok_checks p a s st' :
  Append p (a, s) = (Ok tt, st') →
  equalValueType (periodType (withTypes p s)) (PeriodType (Meta p)) = true ∧
  equalValueType (sampleType (withTypes p s)) (SampleType (Meta p)) = true ∧
  maxTime s < Timestamp (Meta p).
Proof.
  rewrite Append_run. intros Heq.
  destruct ((validate p (a, withTypes p s)).1) as [[]|e|] eqn:Hv; try discriminate.
  rewrite validate_result, withTypes_maxTime in Hv.
  destruct (equalValueType (periodType (withTypes p s)) (PeriodType (Meta p)));
    [|discriminate].
  destruct (equalValueType (sampleType (withTypes p s)) (SampleType (Meta p)));
    [|discriminate].
  simpl in Hv. destruct (Timestamp (Meta p) <=? maxTime s) eqn:E; [discriminate|].
  apply Z.leb_gt in E. auto.
Qed.

(** A sample at or before [maxTime] is rejected by one of the checks. *)
Lemma Append_not_after q a s :
  Timestamp (Meta q) ≤ maxTime s →
  ∃ e, (Append q (a, s)).1 = Fail e ∧ validationError e = true ∧
       (equalValueType (periodType (withTypes q s)) (PeriodType (Meta q)) = true →
        equalValueType (sampleType (withTypes q s)) (SampleType (Meta q)) = true →
        e = ErrOutOfOrderSample).
Proof.
  intros Hle. rewrite Append_run.
  pose proof (validate_result q a (withTypes q s)) as Hv.
  rewrite withTypes_maxTime in Hv.
  destruct (equalValueType (periodType (withTypes q s)) (PeriodType (Meta q))); simpl in Hv.
  - destruct (equalValueType (sampleType (withTypes q s)) (SampleType (Meta q)));
      simpl in Hv.
    + destruct (Timestamp (Meta q) <=? maxTime s) eqn:E;
        [|apply Z.leb_gt in E; lia].
      rewrite Hv. simpl. eauto.
    + rewrite Hv. simpl. exists ErrSampleTypeMismatch. split_and!; auto; discriminate.
  - rewrite Hv. simpl. exists ErrPeriodTypeMismatch. split_and!; auto; discriminate.
Qed.

(** X5.  The checks of [Append] on a series that holds samples
    ([numSamples] not 0), in their order: a sample whose period type
    differs is rejected with [ErrPeriodTypeMismatch] whatever its sample
    type and timestamp; with the period type matching, a differing sample
    type gives [ErrSampleTypeMismatch] whatever the timestamp; with both
    matching, a timestamp at or before [maxTime] gives
    [ErrOutOfOrderSample].  In all three cases the appender and the series
    are exactly as before. *)
Theorem Append_error_precedence a s p :
  numSamples s ≠ 0 →
  (equalValueType (periodType s) (PeriodType (Meta p)) = false →
   Append p (a, s) = (Fail ErrPeriodTypeMismatch, (a, s))) ∧
  (equalValueType (periodType s) (PeriodType (Meta p)) = true →
   equalValueType (sampleType s) (SampleType (Meta p)) = false →
   Append p (a, s) = (Fail ErrSampleTypeMismatch, (a, s))) ∧
  (equalValueType (periodType s) (PeriodType (Meta p)) = true →
   equalValueType (sampleType s) (SampleType (Meta p)) = true →
   Timestamp (Meta p) ≤ maxTime s →
   Append p (a, s) = (Fail ErrOutOfOrderSample, (a, s))).
Proof.
  intros Hnz. rewrite Append_run, validate_result, (withTypes_nonzero p s Hnz).
  split_and!.
  - intros ->. reflexivity.
  - intros -> ->. reflexivity.
  - intros -> -> Hle. simpl.
    destruct (Timestamp (Meta p) <=? maxTime s) eqn:E; [reflexivity|].
    apply Z.leb_gt in E. lia.
Qed.

(** X6.  Once [Append] has accepted a sample, appending the same sample
    again returns [ErrOutOfOrderSample]; and every sample whose timestamp
    is not after the accepted one's is rejected by one of the three
    checks. *)
Theorem Append_rejects_replay a s p st' :
  Append p (a, s) = (Ok tt, st') →
  (Append p st').1 = Fail ErrOutOfOrderSample ∧
  (∀ q, Timestamp (Meta q) ≤ Timestamp (Meta p) →
     ∃ e, (Append q st').1 = Fail e ∧ validationError e = true).
Proof.
  intros Heq.
  pose proof (Append_Ok_checks p a s st' Heq) as (Hpt & Hst & _).
  pose proof (Append_Ok_books p a s st' Heq) as (_ & _ & Hmax & _ & Hpt' & Hst').
  destruct st' as [a' s']. simpl in *. split.
  - destruct (Append_not_after p a' s') as (e & He & _ & Hooo); [lia|].
    rewrite He. f_equal. apply Hooo.
    + destruct (Z.eq_dec (numSamples s') 0) as [Hz|Hnz].
      * rewrite (proj1 (withTypes_zero p s' Hz)). apply equalValueType_refl.
      * rewrite (withTypes_nonzero p s' Hnz), Hpt'. exact Hpt.
    + destruct (Z.eq_dec (numSamples s') 0) as [Hz|Hnz].
      * rewrite (proj2 (withTypes_zero p s' Hz)). apply equalValueType_refl.
      * rewrite (withTypes_nonzero p s' Hnz), Hst'. exact Hst.
  - intros q Hq. destruct (Append_not_after q a' s') as (e & He & Hv & _); [lia|].
    eauto.
Qed.

Lemma increasing_cons x l :
  Forall (λ y, x < y) l → increasing l → increasing (x :: l).
Proof.
  intros Hall Hinc i j u v Hij Hi Hj.
  destruct j as [|j]; [lia|]. simpl in Hj.
  destruct i as [|i]; simpl in Hi.
  - injection Hi as <-. rewrite Forall_lookup in Hall. eapply Hall, Hj.
  - eapply (Hinc i j); [lia | exact Hi | exact Hj].
Qed.

Lemma appendAll_accepted_above ps (st : state (C:=C)) :
  let ts := timestampOf <$> acceptedProfiles ps (appendAll ps st).1 in
  Forall (λ t, maxTime st.2 < t) ts ∧ increasing ts.
Proof.
  revert st. induction ps as [|p ps IH]; intros [a s]; cbv zeta.
  - simpl. split; [constructor|]. intros i j x y _ Hi. discriminate.
  - rewrite appendAll_cons. simpl fst. simpl snd.
    pose proof (Append_counters p a s) as Hc. cbv zeta in Hc.
    destruct (Append p (a, s)) as [r [a1 s1]] eqn:Heq. simpl fst in *. simpl snd in *.
    specialize (IH (a1, s1)). cbv zeta in IH. destruct IH as [Hall Hinc].
    cbn [fst snd] in Hall. simpl acceptedProfiles. destruct r as [[]|e|]; simpl in Hc |- *.
    + destruct Hc as (_ & Hmax & _).
      pose proof (Append_Ok_books p a s _ Heq) as (Hlt & _).
      rewrite Hmax in Hall. split.
      * constructor; [exact Hlt|]. eapply Forall_impl; [exact Hall|].
        intros t Ht. simpl in Ht. unfold timestampOf in *. lia.
      * apply increasing_cons; assumption.
    + destruct Hc as (_ & Hmax & _). rewrite Hmax in Hall. auto.
    + destruct Hc as (_ & Hmax & _). rewrite Hmax in Hall. auto.
Qed.

(** X7.  For any series and any sequence of [Append] calls, the timestamps
    of the accepted samples, in the order of the calls, are all after the
    [maxTime] the series had and strictly increasing. *)
Theorem accepted_timestamps_increase ps (st : state (C:=C)) :
  let ts := timestampOf <$> acceptedProfiles ps (appendAll ps st).1 in
  (∀ t, t ∈ ts → maxTime st.2 < t) ∧
  (∀ (i j : nat) x y, (i < j)%nat → ts !! i = Some x → ts !! j = Some y → x < y).
Proof.
  cbv zeta. pose proof (appendAll_accepted_above ps st) as [Hall Hinc].
  cbv zeta in *. split; [|exact Hinc].
  rewrite Forall_forall in Hall. exact Hall.
Qed.

Lemma appendAll_tags ps (st : state (C:=C)) :
  let r := appendAll ps st in
  0 ≤ numSamples st.2 →
  numSamples st.2 + Z.of_nat (length (acceptedProfiles ps r.1)) ≤ 65535 →
  (numSamples st.2 ≠ 0 → tagsOf r.2 = tagsOf st) ∧
  Forall (matches r.2.2) (acceptedProfiles ps r.1).
Proof.
  revert st. induction ps as [|p ps IH]; intros [a s]; cbv zeta.
  - simpl. intros _ _. split; [reflexivity | constructor].
  - rewrite appendAll_cons. cbn [fst snd].
    pose proof (Append_counters p a s) as Hc. cbv zeta in Hc.
    pose proof (Append_tags p a s) as [Hpt Hst].
    destruct (Append p (a, s)) as [r [a1 s1]] eqn:Heq. cbn [fst snd] in *.
    specialize (IH (a1, s1)). cbv zeta in IH. cbn [fst snd] in IH.
    simpl acceptedProfiles. intros Hn.
    destruct r as [[]|e|]; simpl accepted in *; cbv iota in *.
    + destruct Hc as (Hnum & _). simpl length. rewrite Nat2Z.inj_succ. intros Hle.
      assert (numSamples s1 = numSamples s + 1) as Hnum1.
      { rewrite Hnum. unfold uint16_incr. apply Z.mod_small. lia. }
      destruct IH as [Hkeep Hall]; [lia | lia |].
      specialize (Hkeep ltac:(lia)). unfold tagsOf in Hkeep. cbn [fst snd] in Hkeep.
      injection Hkeep as Hk1 Hk2.
      pose proof (Append_Ok_checks p a s _ Heq) as (Hm1 & Hm2 & _).
      split.
      * intros Hnz. unfold tagsOf. cbn [fst snd].
        rewrite Hk1, Hk2, Hpt, Hst, (withTypes_nonzero p s Hnz). reflexivity.
      * constructor; [|exact Hall]. unfold matches.
        rewrite Hk1, Hk2, Hpt, Hst. auto.
    + destruct Hc as (Hnum & _). intros Hle.
      destruct IH as [Hkeep Hall]; [lia | lia |]. split; [|exact Hall].
      intros Hnz. rewrite Hkeep by lia. unfold tagsOf. cbn [fst snd].
      rewrite Hpt, Hst, (withTypes_nonzero p s Hnz). reflexivity.
    + destruct Hc as (Hnum & _). intros Hle.
      destruct IH as [Hkeep Hall]; [lia | lia |]. split; [|exact Hall].
      intros Hnz. rewrite Hkeep by lia. unfold tagsOf. cbn [fst snd].
      rewrite Hpt, Hst, (withTypes_nonzero p s Hnz). reflexivity.
Qed.

(** X8.  After any sequence of [Append] calls on a new series of which at
    most 65535 were accepted, every accepted sample has the period type and
    the sample type of the series: the two type checks pass for each of
    them against the tags the series holds at the end. *)
Theorem accepted_samples_share_tags lset id a ps :
  let r := appendAll ps (a, NewMemSeries (C:=C) lset id) in
  Z.of_nat (length (acceptedProfiles ps r.1)) ≤ 65535 →
  ∀ p, p ∈ acceptedProfiles ps r.1 →
    equalValueType (periodType r.2.2) (PeriodType (Meta p)) = true ∧
    equalValueType (sampleType r.2.2) (SampleType (Meta p)) = true.
Proof.
  cbv zeta. intros Hle.
  pose proof (appendAll_tags ps (a, NewMemSeries lset id)) as Ht. cbv zeta in Ht.
  destruct Ht as [_ Hall]; [simpl; lia | simpl; lia |].
  rewrite Forall_forall in Hall. exact Hall.
Qed.

Lemma withTypes_samplesAppended p s : samplesAppended (withTypes p s) = samplesAppended s.
Proof. unfold withTypes. destruct (numSamples s =? 0); reflexivity. Qed.

Lemma Append_samplesAppended p a s :
  let r := Append p (a, s) in
  samplesAppended r.2.2
  = if accepted r.1 then (λ n, n + 1) <$> samplesAppended s else samplesAppended s.
Proof.
  cbv zeta. rewrite Append_run.
  destruct ((validate p (a, withTypes p s)).1) as [[]|e|] eqn:Hv; simpl;
    [|apply withTypes_samplesAppended..].
  destruct (store p (a, withTypes p s)) as [[[]|e|] st'] eqn:Hs; simpl.
  - apply store_Ok_books in Hs. unfold books in Hs.
    rewrite withTypes_samplesAppended in Hs. congruence.
  - pose proof (store_books_unlessOk p (a, withTypes p s)) as Hk.
    rewrite Hs in Hk. unfold books in Hk. simpl in Hk.
    rewrite withTypes_samplesAppended in Hk.
    assert (∀ x : (), Fail (A:=unit) e ≠ Ok x) as Hno by (intros; discriminate).
    specialize (Hk Hno). congruence.
  - pose proof (store_books_unlessOk p (a, withTypes p s)) as Hk.
    rewrite Hs in Hk. unfold books in Hk. simpl in Hk.
    rewrite withTypes_samplesAppended in Hk.
    assert (∀ x : (), Panic (A:=unit) ≠ Ok x) as Hno by (intros; discriminate).
    specialize (Hk Hno). congruence.
Qed.

(** X9.  The counter [samplesAppended], when the series has one, receives
    one increment per accepted [Append] and none from a call that returns
    an error or panics: after a sequence of calls it has grown by the
    number of accepted samples.  [NewMemSeries] leaves the counter unset,
    and [Append] never sets it. *)
Theorem samplesAppended_counts_accepted :
  (∀ ps (st : state (C:=C)),
     let r := appendAll ps st in
     samplesAppended r.2.2
     = (λ n, n + Z.of_nat (length (acceptedProfiles ps r.1))) <$> samplesAppended st.2) ∧
  (∀ lset id a ps,
     samplesAppended (appendAll ps (a, NewMemSeries (C:=C) lset id)).2.2 = None).
Proof.
  assert (∀ ps (st : state (C:=C)),
     let r := appendAll ps st in
     samplesAppended r.2.2
     = (λ n, n + Z.of_nat (length (acceptedProfiles ps r.1))) <$> samplesAppended st.2)
    as Hrun.
  { induction ps as [|p ps IH]; intros [a s]; cbv zeta.
    - simpl. destruct (samplesAppended s); simpl; [f_equal; lia | reflexivity].
    - rewrite appendAll_cons. simpl fst. simpl snd.
      pose proof (Append_samplesAppended p a s) as Hc. cbv zeta in Hc.
      destruct (Append p (a, s)) as [r [a1 s1]]. simpl fst in *. simpl snd in *.
      specialize (IH (a1, s1)). cbv zeta in IH. cbn [fst snd] in IH.
      rewrite IH, Hc. simpl.
      destruct (accepted r); [|reflexivity].
      destruct (samplesAppended s); simpl; [|reflexivity].
      rewrite Nat2Z.inj_succ. f_equal. lia. }
  split; [exact Hrun|].
  intros lset id a ps. rewrite Hrun. reflexivity.
Qed.

End Checks.

(** ** The windows of the timestamp chunks *)

Section Windows.
Context {C : Type} `{!chunkenc.Chunk C}.
Implicit Types (s : MemSeries C) (a : MemSeriesAppender.t) (p q : Profile).

Lemma window_widenWindow t (tc : timestampChunk.t C) :
  window (widenWindow t tc) = widened t (window tc).
Proof.
  unfold widenWindow, window, widened. destruct tc as [mn mx c]. simpl.
  destruct (mn >? t) eqn:E1; simpl.
  - apply Z.gtb_lt in E1. destruct (mx <? t) eqn:E2; simpl.
    + apply Z.ltb_lt in E2. f_equal; lia.
    + apply Z.ltb_ge in E2. f_equal; lia.
  - rewrite Z.gtb_ltb in E1. apply Z.ltb_ge in E1. destruct (mx <? t) eqn:E2; simpl.
    + apply Z.ltb_lt in E2. f_equal; lia.
    + apply Z.ltb_ge in E2. f_equal; lia.
Qed.

Lemma windows_written t slot v i (l : list (timestampChunk.t C)) :
  window <$> alter (widenWindow t) (lastIndex l) (alter (writeTimestamp slot v) i l)
  = alter (widened t) (lastIndex l) (window <$> l).
Proof.
  rewrite (list_fmap_alter _ _ (widened t)).
  - f_equal. rewrite (list_fmap_alter _ _ id).
    + apply list_alter_id. reflexivity.
    + apply Forall_forall. reflexivity.
  - apply Forall_forall. intros tc _. apply window_widenWindow.
Qed.

(** The windows after an accepted [Append]: a roll adds the window
    [(timestamp, timestamp)], and the tail window is widened to hold the
    timestamp. *)
Lemma Append_Ok_windows p a s a' s' :
  Append p (a, s) = (Ok tt, (a', s')) →
  ∃ tc, last (timestamps s) = Some tc ∧
    let t := Timestamp (Meta p) in
    let l := grown (isFull tc) (t, t) (windows s) in
    windows s' = alter (widened t) (lastIndex l) l.
Proof.
  rewrite Append_run.
  destruct ((validate p (a, withTypes p s)).1) as [[]|e|]; try discriminate.
  intros Heq. apply store_Ok_columns in Heq as (tc & Htc & _ & Hts & _).
  rewrite tailTimestamps_last, withTypes_timestamps in Htc.
  exists tc. split; [exact Htc|]. cbv zeta. unfold windows.
  rewrite Hts, windows_written. unfold grown, lastIndex.
  destruct (isFull tc).
  - unfold rollSeries. simpl. rewrite withTypes_timestamps, fmap_app, !length_app,
      !length_fmap. reflexivity.
  - rewrite withTypes_timestamps, !length_fmap. reflexivity.
Qed.

Lemma ordered_widen l w m t :
  ordered (l ++ [w]) m → m < t → ordered (l ++ [widened t w]) t.
Proof.
  intros (Hadj & Hlast & Hint) Hlt.
  assert (w.2 ≤ m) as Hw by (apply Hlast; rewrite last_snoc; reflexivity).
  assert (widened t w = (Z.min w.1 t, t)) as ->.
  { unfold widened. f_equal. lia. }
  split_and!.
  - intros i w1 w2 H1 H2.
    apply lookup_snoc_Some in H2 as [[Hi H2]|[Hi <-]].
    + rewrite lookup_app_l in H1 by lia.
      apply (Hadj i); [rewrite lookup_app_l by lia; exact H1
                      | rewrite lookup_app_l by lia; exact H2].
    + rewrite lookup_app_l in H1 by lia.
      pose proof (Hadj i w1 w) as Hprev.
      rewrite lookup_app_l in Hprev by lia. specialize (Hprev H1).
      rewrite Hi, list_lookup_middle in Hprev by reflexivity. specialize (Hprev eq_refl).
      destruct (Hint (S i) w) as [Hiv|[? _]]; [|simpl; lia|discriminate].
      rewrite Hi. apply list_lookup_middle. reflexivity.
  - intros w'. rewrite last_snoc. intros Heq. injection Heq as <-. simpl. lia.
  - intros i w' Hi. apply lookup_snoc_Some in Hi as [[Hi Hw']|[Hi <-]].
    + apply (Hint i). rewrite lookup_app_l by lia. exact Hw'.
    + left. simpl. lia.
Qed.

Lemma ordered_roll l m t :
  ordered l m → l ≠ [] → m < t → ordered (l ++ [(t, t)]) t.
Proof.
  intros (Hadj & Hlast & Hint) Hne Hlt.
  split_and!.
  - intros i w1 w2 H1 H2.
    apply lookup_snoc_Some in H2 as [[Hi H2]|[Hi <-]].
    + rewrite lookup_app_l in H1 by lia. apply (Hadj i); assumption.
    + rewrite lookup_app_l in H1 by lia.
      assert (last l = Some w1) as Hl.
      { rewrite last_lookup. rewrite <- H1. f_equal. lia. }
      specialize (Hlast w1 Hl). simpl. lia.
  - intros w'. rewrite last_snoc. intros Heq. injection Heq as <-. simpl. lia.
  - intros i w' Hi. apply lookup_snoc_Some in Hi as [[Hi Hw']|[Hi <-]].
    + apply (Hint i). exact Hw'.
    + left. simpl. lia.
Qed.

Lemma widened_fresh t : widened t (t, t) = (t, t).
Proof. unfold widened. simpl. f_equal; lia. Qed.

Lemma Append_ordered p a s a' s' :
  ordered (windows s) (maxTime s) →
  Append p (a, s) = (Ok tt, (a', s')) →
  ordered (windows s') (maxTime s') ∧
  ∃ w, last (windows s') = Some w ∧ w.2 = maxTime s'.
Proof.
  intros Hord Heq.
  pose proof (Append_Ok_books p a s _ Heq) as (Hlt & _ & Hmax & _).
  cbn [fst snd] in Hmax.
  apply Append_Ok_windows in Heq as (tc & Htc & Hw). cbv zeta in Hw.
  assert (∃ l0, windows s = l0 ++ [window tc]) as [l0 Hl0].
  { apply last_Some in Htc as [l0 Hl0]. exists (window <$> l0).
    unfold windows. rewrite Hl0, fmap_app. reflexivity. }
  rewrite Hw, Hmax. unfold grown. destruct (isFull tc).
  - rewrite alter_lastIndex_snoc, widened_fresh. split.
    + apply (ordered_roll _ (maxTime s)); [exact Hord | | exact Hlt].
      rewrite Hl0. intros Hnil. apply app_eq_nil in Hnil as [_ ?]. discriminate.
    + exists (Timestamp (Meta p), Timestamp (Meta p)). rewrite last_snoc. auto.
  - rewrite Hl0, alter_lastIndex_snoc. rewrite Hl0 in Hord. split.
    + apply (ordered_widen _ _ (maxTime s)); assumption.
    + exists (widened (Timestamp (Meta p)) (window tc)). rewrite last_snoc.
      split; [reflexivity|]. unfold widened. simpl.
      destruct Hord as (_ & Hlast & _).
      specialize (Hlast (window tc)). rewrite last_snoc in Hlast.
      specialize (Hlast eq_refl). unfold window in Hlast. simpl in Hlast. lia.
Qed.

Lemma withTypes_windows p s : windows (withTypes p s) = windows s.
Proof. unfold windows. rewrite withTypes_timestamps. reflexivity. Qed.

Lemma appendAll_ordered ps (st : state (C:=C)) :
  let r := appendAll ps st in
  ordered (windows st.2) (maxTime st.2) →
  forallb regular r.1 = true →
  ordered (windows r.2.2) (maxTime r.2.2) ∧
  ((∃ w, last (windows st.2) = Some w ∧ w.2 = maxTime st.2) ∨
   acceptedProfiles ps r.1 ≠ [] →
   ∃ w, last (windows r.2.2) = Some w ∧ w.2 = maxTime r.2.2).
Proof.
  revert st. induction ps as [|p ps IH]; intros [a s]; cbv zeta.
  - simpl. intros Hord _. split; [exact Hord|]. intros [Hw|Hne]; [exact Hw|contradiction].
  - rewrite appendAll_cons. cbn [fst snd]. intros Hord. simpl forallb.
    intros Hreg. apply andb_true_iff in Hreg as [Hr Hrs].
    destruct (Append p (a, s)) as [[[]|e|] [a1 s1]] eqn:Heq; cbn [fst snd] in *.
    + destruct (Append_ordered p a s a1 s1 Hord Heq) as [Hord1 Htop1].
      specialize (IH (a1, s1)). cbv zeta in IH. cbn [fst snd] in IH.
      destruct (IH Hord1 Hrs) as [Hord2 Htop2]. split; [exact Hord2|].
      intros _. apply Htop2. left. exact Htop1.
    + assert (validationError e = true) as He by (destruct e; simpl in *; congruence).
      apply Append_validation_error in Heq as [_ Hst]; [|exact He].
      injection Hst as -> ->.
      specialize (IH (a, withTypes p s)). cbv zeta in IH. cbn [fst snd] in IH.
      rewrite withTypes_windows, withTypes_maxTime in IH.
      destruct (IH Hord Hrs) as [Hord2 Htop2]. split; [exact Hord2|].
      simpl acceptedProfiles. exact Htop2.
    + discriminate.
Qed.

Lemma NewMemSeries_ordered lset id :
  ordered (windows (NewMemSeries (C:=C) lset id)) (maxTime (NewMemSeries (C:=C) lset id)).
Proof.
  unfold windows, window. simpl. split_and!.
  - intros [|i] w1 w2 H1 H2; discriminate.
  - intros w Hw. injection Hw as <-. simpl. unfold MinInt64. lia.
  - intros [|i] w Hw; [|discriminate]. injection Hw as <-. right. auto.
Qed.

(** X10.  After an accepted [Append] the window of the tail timestamp chunk
    holds the sample's timestamp [t].  If the call rolled, the windows are
    those of before followed by the new window [(t, t)]; if not, the tail
    window has been widened, its bounds being the minimum of the old
    [minTime] and [t] and the maximum of the old [maxTime] and [t], and the
    windows of the earlier chunks are as before. *)
Theorem Append_widens_tail_window a s p a' s' :
  Append p (a, s) = (Ok tt, (a', s')) →
  ∃ tc tc',
    last (timestamps s) = Some tc ∧
    last (timestamps s') = Some tc' ∧
    let t := Timestamp (Meta p) in
    timestampChunk.minTime tc' ≤ t ≤ timestampChunk.maxTime tc' ∧
    (if isFull tc
     then timestampChunk.minTime tc' = t ∧ timestampChunk.maxTime tc' = t ∧
          windows s' = windows s ++ [(t, t)]
     else timestampChunk.minTime tc' = Z.min (timestampChunk.minTime tc) t ∧
          timestampChunk.maxTime tc' = Z.max (timestampChunk.maxTime tc) t ∧
          length (timestamps s') = length (timestamps s) ∧
          ∀ i : nat, (S i < length (timestamps s))%nat → windows s' !! i = windows s !! i).
Proof.
  intros Heq. apply Append_Ok_windows in Heq as (tc & Htc & Hw). cbv zeta in Hw.
  assert (∃ l0, windows s = l0 ++ [window tc]) as [l0 Hl0].
  { apply last_Some in Htc as [l0 Hl0]. exists (window <$> l0).
    unfold windows. rewrite Hl0, fmap_app. reflexivity. }
  assert (∃ tc', last (timestamps s') = Some tc' ∧
            last (windows s') = Some (window tc')) as (tc' & Htc' & Hwl).
  { unfold windows in *. rewrite fmap_last.
    destruct (last (timestamps s')) as [tc'|] eqn:E; [eauto|].
    apply last_None in E. rewrite E in Hw. simpl in Hw. symmetry in Hw.
    apply (f_equal length) in Hw. rewrite length_alter in Hw. unfold grown in Hw.
    destruct (isFull tc); [rewrite length_app in Hw; simpl in Hw; lia|].
    rewrite Hl0, length_app in Hw. simpl in Hw. lia. }
  exists tc, tc'. split; [exact Htc|]. split; [exact Htc'|]. cbv zeta.
  unfold grown in Hw. destruct (isFull tc).
  - rewrite alter_lastIndex_snoc, widened_fresh in Hw.
    rewrite Hw, last_snoc in Hwl. injection Hwl as Hmin Hmax.
    rewrite <- Hmin, <- Hmax. split; [lia|]. split_and!; auto.
  - rewrite Hl0, alter_lastIndex_snoc in Hw.
    rewrite Hw, last_snoc in Hwl. injection Hwl as Hmin Hmax.
    unfold window in Hmin, Hmax. simpl in Hmin, Hmax.
    rewrite <- Hmin, <- Hmax. split; [lia|]. split_and!; auto.
    + apply (f_equal length) in Hw. apply (f_equal length) in Hl0.
      unfold windows in Hw, Hl0. rewrite length_fmap in Hw, Hl0.
      rewrite Hw, Hl0, !length_app. reflexivity.
    + intros i Hi. rewrite Hw, Hl0.
      apply (f_equal length) in Hl0. unfold windows in Hl0.
      rewrite length_fmap, length_app in Hl0. simpl in Hl0.
      rewrite !lookup_app_l by lia. reflexivity.
Qed.

(** X11.  After any sequence of [Append] calls on a new series, none of
    which failed in the encoder or panicked, the windows of the timestamp
    chunks are in increasing order and apart: the [maxTime] of a chunk is
    before the [minTime] of the next one.  Every chunk has
    [minTime <= maxTime], but for a first chunk whose window is still the
    one [NewMemSeries] set.  The [maxTime] of the tail chunk is at most the
    [maxTime] of the series, and equal to it once a sample has been
    accepted. *)
Theorem chunk_windows_ordered lset id a ps :
  let r := appendAll ps (a, NewMemSeries (C:=C) lset id) in
  forallb regular r.1 = true →
  (∀ (i : nat) tc1 tc2,
     timestamps r.2.2 !! i = Some tc1 → timestamps r.2.2 !! S i = Some tc2 →
     timestampChunk.maxTime tc1 < timestampChunk.minTime tc2) ∧
  (∀ (i : nat) tc, timestamps r.2.2 !! i = Some tc →
     timestampChunk.minTime tc ≤ timestampChunk.maxTime tc ∨
     (i = 0%nat ∧ timestampChunk.minTime tc = MaxInt64 ∧
      timestampChunk.maxTime tc = MinInt64)) ∧
  (∀ tc, last (timestamps r.2.2) = Some tc →
     timestampChunk.maxTime tc ≤ maxTime r.2.2) ∧
  (acceptedProfiles ps r.1 ≠ [] →
   ∃ tc, last (timestamps r.2.2) = Some tc ∧
         timestampChunk.maxTime tc = maxTime r.2.2).
Proof.
  cbv zeta. intros Hreg.
  pose proof (appendAll_ordered ps (a, NewMemSeries lset id)) as Hrun.
  cbv zeta in Hrun. specialize (Hrun (NewMemSeries_ordered lset id) Hreg).
  destruct (appendAll ps (a, NewMemSeries lset id)) as [rs [a1 s1]].
  cbn [fst snd] in *. destruct Hrun as [(Hadj & Hlast & Hint) Htop].
  unfold windows in *. split_and!.
  - intros i tc1 tc2 H1 H2. apply (Hadj i (window tc1) (window tc2)).
    + rewrite list_lookup_fmap, H1. reflexivity.
    + rewrite list_lookup_fmap, H2. reflexivity.
  - intros i tc Hi. destruct (Hint i (window tc)) as [Hiv|[-> Hw]].
    + rewrite list_lookup_fmap, Hi. reflexivity.
    + left. exact Hiv.
    + right. unfold window, emptyWindow in Hw. injection Hw as -> ->. auto.
  - intros tc Htc. apply (Hlast (window tc)). rewrite fmap_last, Htc. reflexivity.
  - intros Hne. destruct Htop as (w & Hw & Hmax); [right; exact Hne|].
    rewrite fmap_last in Hw. destruct (last (timestamps s1)) as [tc|]; [|discriminate].
    injection Hw as <-. exists tc. auto.
Qed.

End Windows.

(** ** The first sample and the bounds of the series *)

Section Bounds.
Context {C : Type} `{!chunkenc.Chunk C} `{!chunkenc.ChunkContract C}.
Implicit Types (s : MemSeries C) (a : MemSeriesAppender.t) (p q : Profile).

(** X12.  With chunks that meet the chunk contract, the first sample a new
    series accepts, with a timestamp [t] within [int64]: [t] is positive,
    no roll happens, and the window of the one timestamp chunk, which
    [NewMemSeries] had set to [(MaxInt64, MinInt64)], is [(t, t)];
    [minTime] and [maxTime] of the series are [t] and [numSamples] is 1. *)
Theorem first_sample_replaces_sentinels lset id a p a' s' :
  Append p (a, NewMemSeries (C:=C) lset id) = (Ok tt, (a', s')) →
  let t := Timestamp (Meta p) in
  t ≤ MaxInt64 →
  0 < t ∧
  a' = a ∧
  windows s' = [(t, t)] ∧
  minTime s' = t ∧
  maxTime s' = t ∧
  numSamples s' = 1.
Proof.
  intros Heq. cbv zeta. intros Hmax.
  pose proof (Append_Ok_books p a _ _ Heq) as (Hlt & Hnum & Hmx & Hmn & _).
  cbn [fst snd] in *. simpl in Hlt, Hnum, Hmn.
  pose proof (Append_Ok_lengths p a _ _ _ Heq) as (tc & Htc & Ha' & _).
  apply Append_Ok_windows in Heq as (tc' & Htc' & Hw). cbv zeta in Hw.
  rewrite Htc in Htc'. injection Htc' as <-.
  simpl in Htc. injection Htc as <-.
  unfold isFull in *. cbn [timestampChunk.chunk] in *.
  rewrite chunkenc.NumSamples_NewDeltaChunk in *. simpl in Ha', Hw.
  split; [exact Hlt|]. split; [exact Ha'|]. split_and!.
  - rewrite Hw. unfold widened, window. simpl. f_equal. f_equal; unfold MinInt64; lia.
  - rewrite Hmn. destruct (Timestamp (Meta p) =? 0) eqn:E; [apply Z.eqb_eq in E; lia|].
    reflexivity.
  - exact Hmx.
  - exact Hnum.
Qed.

Lemma head_alter_lastIndex_snoc (f : Z * Z → Z * Z) (l : list (Z * Z)) w w0 :
  head (l ++ [w]) = Some w0 →
  head (alter f (lastIndex (l ++ [w])) (l ++ [w]))
  = Some (match l with [] => f w0 | _ => w0 end).
Proof.
  rewrite alter_lastIndex_snoc. destruct l as [|x l]; simpl.
  - intros Heq. injection Heq as <-. reflexivity.
  - auto.
Qed.

Lemma Append_spanned p a s :
  spanned s → Timestamp (Meta p) ≤ MaxInt64 →
  regular (Append p (a, s)).1 = true →
  spanned (Append p (a, s)).2.2 ∧
  (accepted (Append p (a, s)).1 = true → minTime (Append p (a, s)).2.2 ≠ 0).
Proof.
  intros Hsp Hmax.
  destruct (Append p (a, s)) as [[[]|e|] [a' s']] eqn:Heq; cbn [fst snd] in *.
  - intros _.
    pose proof (Append_Ok_books p a s _ Heq) as (Hlt & _ & Hmx & Hmn & _).
    cbn [fst snd] in *.
    apply Append_Ok_windows in Heq as (tc & Htc & Hw). cbv zeta in Hw.
    assert (∃ l0, windows s = l0 ++ [window tc]) as [l0 Hl0].
    { apply last_Some in Htc as [l0 Hl0]. exists (window <$> l0).
      unfold windows. rewrite Hl0, fmap_app. reflexivity. }
    destruct Hsp as [(Hts & Hmin & Hnn)|(w & Hhd & Hw1 & Hnz & Hle)].
    + rewrite Hts in Htc. simpl in Htc. injection Htc as <-.
      unfold isFull in Hw. cbn [timestampChunk.chunk] in Hw.
      rewrite chunkenc.NumSamples_NewDeltaChunk in Hw. simpl in Hw.
      unfold windows at 2 3 in Hw. rewrite Hts in Hw. simpl in Hw.
      rewrite Hmin in Hmn. simpl in Hmn.
      destruct (Timestamp (Meta p) =? 0) eqn:E; [apply Z.eqb_eq in E; lia|].
      simpl in Hmn. split; [|intros _; lia]. right.
      exists (Timestamp (Meta p), Timestamp (Meta p)). rewrite Hw. unfold widened, window.
      simpl. split_and!; [f_equal; f_equal; unfold MinInt64; lia | lia | lia | lia].
    + assert (minTime s' = minTime s) as Hmn'.
      { rewrite Hmn. destruct (minTime s =? 0) eqn:E; [apply Z.eqb_eq in E; lia|].
        reflexivity. }
      split; [|intros _; lia]. right. rewrite Hw, Hmn', Hmx.
      unfold grown. destruct (isFull tc).
      * exists w. rewrite alter_lastIndex_snoc. split_and!; [|exact Hw1|exact Hnz|lia].
        rewrite Hl0 in Hhd |- *. destruct l0; simpl in *; exact Hhd.
      * rewrite Hl0 in Hhd |- *.
        exists (match l0 with
                | [] => widened (Timestamp (Meta p)) w
                | _ => w
                end).
        split; [apply head_alter_lastIndex_snoc, Hhd|].
        destruct l0; unfold widened; simpl; lia.
  - intros Hreg.
    assert (validationError e = true) as He by (destruct e; simpl in *; congruence).
    apply Append_validation_error in Heq as [_ Hst]; [|exact He].
    injection Hst as -> ->. split; [|discriminate].
    unfold spanned. rewrite withTypes_timestamps, withTypes_windows, withTypes_minTime,
      withTypes_maxTime. exact Hsp.
  - discriminate.
Qed.

Lemma appendAll_spanned ps (st : state (C:=C)) :
  spanned st.2 → forallb (λ p, Timestamp (Meta p) <=? MaxInt64) ps = true →
  forallb regular (appendAll ps st).1 = true →
  spanned (appendAll ps st).2.2 ∧
  (acceptedProfiles ps (appendAll ps st).1 ≠ [] ∨ minTime st.2 ≠ 0 →
   minTime (appendAll ps st).2.2 ≠ 0).
Proof.
  revert st. induction ps as [|p ps IH]; intros [a s] Hsp Hall.
  - simpl. intros _. split; [exact Hsp|]. intros [Hne|Hnz]; [contradiction|exact Hnz].
  - simpl in Hall. apply andb_true_iff in Hall as [Hp Hall]. apply Z.leb_le in Hp.
    rewrite appendAll_cons. cbn [fst snd]. simpl forallb.
    intros Hreg. apply andb_true_iff in Hreg as [Hr Hrs].
    pose proof (Append_spanned p a s Hsp Hp Hr) as [Hsp1 Hnz1].
    pose proof (Append_counters p a s) as Hc. cbv zeta in Hc.
    destruct (Append p (a, s)) as [r [a1 s1]]. cbn [fst snd] in *.
    destruct (IH (a1, s1) Hsp1 Hall Hrs) as [Hsp2 Hnz2]. cbn [fst snd] in *.
    split; [exact Hsp2|]. simpl acceptedProfiles. destruct (accepted r).
    + intros _. apply Hnz2. right. apply Hnz1. reflexivity.
    + destruct Hc as (_ & _ & Hmin). rewrite Hmin in Hnz2. exact Hnz2.
Qed.

Lemma NewMemSeries_spanned lset id : spanned (NewMemSeries (C:=C) lset id).
Proof. left. simpl. split_and!; [reflexivity | reflexivity | lia]. Qed.

(** X13.  With chunks that meet the chunk contract, a new series and
    calls with timestamps within [int64], none failing in the encoder, of
    which at least one was accepted: the [minTime] of the series is the
    [minTime] of its first timestamp chunk, the [maxTime] of the series is
    the [maxTime] of its tail timestamp chunk, and [minTime], which is set,
    is not after [maxTime]. *)
Theorem series_bounds_are_chunk_bounds lset id a ps :
  let r := appendAll ps (a, NewMemSeries (C:=C) lset id) in
  forallb regular r.1 = true →
  forallb (λ p, Timestamp (Meta p) <=? MaxInt64) ps = true →
  acceptedProfiles ps r.1 ≠ [] →
  ∃ first tail,
    head (timestamps r.2.2) = Some first ∧
    last (timestamps r.2.2) = Some tail ∧
    timestampChunk.minTime first = minTime r.2.2 ∧
    timestampChunk.maxTime tail = maxTime r.2.2 ∧
    minTime r.2.2 ≠ 0 ∧
    minTime r.2.2 ≤ maxTime r.2.2.
Proof.
  cbv zeta. intros Hreg Hall Hne.
  pose proof (appendAll_spanned ps (a, NewMemSeries lset id)
                (NewMemSeries_spanned lset id) Hall Hreg) as [Hsp Hnz].
  specialize (Hnz (or_introl Hne)).
  pose proof (appendAll_ordered ps (a, NewMemSeries lset id)) as Hrun.
  cbv zeta in Hrun. specialize (Hrun (NewMemSeries_ordered lset id) Hreg).
  destruct Hrun as [_ Htop]. specialize (Htop (or_intror Hne)).
  destruct (appendAll ps (a, NewMemSeries lset id)) as [rs [a1 s1]]. cbn [fst snd] in *.
  destruct Hsp as [(_ & Hmin & _)|(w & Hhd & Hw1 & _ & Hle)]; [contradiction|].
  destruct Htop as (w' & Hlast & Hw2).
  unfold windows in Hhd, Hlast. rewrite fmap_last in Hlast.
  destruct (last (timestamps s1)) as [tail|]; [|discriminate].
  destruct (timestamps s1) as [|first l]; [discriminate|].
  simpl in Hhd. injection Hhd as <-. injection Hlast as <-.
  exists first, tail. unfold window in *. simpl in *. split_and!; auto. lia.
Qed.

End Bounds.

(** ** Full chunks and the tail chunk *)

Section Packed.
Context {C : Type} `{!chunkenc.Chunk C} `{!chunkenc.ChunkContract C}.
Implicit Types (s : MemSeries C) (a : MemSeriesAppender.t) (p q : Profile).

Lemma fillOf_range n : 0 ≤ fillOf n ≤ samplesPerChunk.
Proof.
  unfold fillOf, samplesPerChunk. destruct (n =? 0); [lia|].
  Z.div_mod_to_equations; lia.
Qed.

Lemma fullBefore_step (l : list C) c (rolled : bool) new f :
  fullBefore l → last l = Some c →
  (rolled = true → chunkenc.NumSamples c = samplesPerChunk) →
  fullBefore (alter f (lastIndex (grown rolled new l)) (grown rolled new l)).
Proof.
  intros Hfull Hc Hroll. apply last_Some in Hc as [l0 ->].
  unfold grown. destruct rolled.
  - rewrite alter_lastIndex_snoc. intros i c' Hi Hlt.
    rewrite !length_app in Hlt. simpl in Hlt.
    rewrite lookup_app_l in Hi by (rewrite length_app; simpl; lia).
    apply lookup_snoc_Some in Hi as [[Hi Hc']|[Hi <-]].
    + apply (Hfull i); [rewrite lookup_app_l by lia; exact Hc'|].
      rewrite length_app. simpl. lia.
    + apply Hroll. reflexivity.
  - rewrite alter_lastIndex_snoc. intros i c' Hi Hlt.
    rewrite !length_app in Hlt. simpl in Hlt.
    rewrite lookup_app_l in Hi by lia.
    apply (Hfull i); [rewrite lookup_app_l by lia; exact Hi|].
    rewrite length_app. simpl. lia.
Qed.

Lemma tailSamples_last (l : list C) c n :
  tailSamples l = Some n → last l = Some c → chunkenc.NumSamples c = n.
Proof. unfold tailSamples. intros Ht Hc. rewrite Hc in Ht. injection Ht as <-. reflexivity. Qed.

Lemma tailSamples_is_Some (l : list C) n : tailSamples l = Some n → ∃ c, last l = Some c.
Proof. unfold tailSamples. destruct (last l); [eauto|discriminate]. Qed.


Lemma Append_packed n p a s :
  0 ≤ n → packed n (a, s) →
  let r := Append p (a, s) in
  regular r.1 = true →
  (accepted r.1 = true → n < 65535) →
  packed (if accepted r.1 then n + 1 else n) r.2.
Proof.
  intros Hn (Hal & Hf1 & Hf2 & Hf3). cbv zeta. intros Hreg Hlt.
  pose proof (Append_aligned n p a s Hn Hal Hreg Hlt) as Hal'.
  split; [exact Hal'|]. clear Hal'.
  destruct (Append p (a, s)) as [[[]|e|] [a' s']] eqn:Heq; cbn [fst snd] in *.
  - apply Append_Ok_columns in Heq as (tc & Htc & Ha' & Hts & Hds & Hps & _).
    cbv zeta in *.
    pose proof (aligned_full_tail n a s tc Hal Htc) as Hfull.
    destruct Hal as (_ & Hb & Ht1 & Ht2 & Ht3 & _ & Hpar). cbn [fst snd] in *.
    destruct (tailSamples_is_Some _ _ Ht1) as [c1 Hc1].
    destruct (tailSamples_is_Some _ _ Ht2) as [c2 Hc2].
    destruct (tailSamples_is_Some _ _ Ht3) as [c3 Hc3].
    assert (isFull tc = true → fillOf n = samplesPerChunk) as Hfill.
    { rewrite Hfull. intros E. apply Z.geb_le in E. pose proof (fillOf_range n). lia. }
    pose proof (tail_cursors a s (isFull tc) Hb) as (Hi1 & Hi2 & Hi3).
    rewrite Hts, Hds, Hps, Hi1, Hi2, Hi3. split_and!.
    + apply (fullBefore_step _ c1); [exact Hf1 | exact Hc1|].
      intros E. rewrite (tailSamples_last _ _ _ Ht1 Hc1). apply Hfill, E.
    + apply (fullBefore_step _ c2); [exact Hf2 | exact Hc2|].
      intros E. rewrite (tailSamples_last _ _ _ Ht2 Hc2). apply Hfill, E.
    + apply (fullBefore_step _ c3); [exact Hf3 | exact Hc3|].
      intros E. rewrite (tailSamples_last _ _ _ Ht3 Hc3). apply Hfill, E.
  - assert (validationError e = true) as He by (destruct e; simpl in *; congruence).
    apply Append_validation_error in Heq as [_ Hst]; [|exact He].
    injection Hst as -> ->. unfold timestampChunks.
    rewrite withTypes_timestamps, withTypes_durations, withTypes_periods. auto.
  - discriminate.
Qed.

Lemma appendAll_packed ps n (st : state (C:=C)) :
  0 ≤ n → packed n st →
  let r := appendAll ps st in
  forallb regular r.1 = true →
  n + Z.of_nat (length (acceptedProfiles ps r.1)) ≤ 65535 →
  packed (n + Z.of_nat (length (acceptedProfiles ps r.1))) r.2.
Proof.
  revert n st. induction ps as [|p ps IH]; intros n [a s] Hn Hal.
  - simpl. intros _ _. rewrite Z.add_0_r. exact Hal.
  - cbv zeta. rewrite appendAll_cons. simpl fst. simpl snd.
    pose proof (Append_packed n p a s Hn Hal) as Hstep. cbv zeta in Hstep.
    destruct (Append p (a, s)) as [r st1]. simpl fst in *. simpl snd in *.
    simpl forallb. intros Hreg. apply andb_true_iff in Hreg as [Hr Hrs].
    specialize (IH (if accepted r then n + 1 else n) st1).
    simpl acceptedProfiles. destruct (accepted r) eqn:Hacc.
    + simpl length. rewrite Nat2Z.inj_succ. intros Hle.
      replace (n + Z.succ (Z.of_nat (length (acceptedProfiles ps (appendAll ps st1).1))))
        with (n + 1 + Z.of_nat (length (acceptedProfiles ps (appendAll ps st1).1))) by lia.
      apply IH; [lia | apply Hstep; [exact Hr | lia] | exact Hrs | lia].
    + intros Hle. apply IH; [lia | apply Hstep; [exact Hr | discriminate] | exact Hrs | lia].
Qed.

Lemma NewMemSeries_packed lset id a :
  Appender (NewMemSeries (C:=C) lset id) = Ok a → packed 0 (a, NewMemSeries lset id).
Proof.
  intros Ha. split; [apply NewMemSeries_aligned, Ha|].
  split_and!; intros [|i] c Hi Hlt; simpl in *; try lia; discriminate.
Qed.

Lemma packed_samples n (l : list C) (i : nat) c :
  fullBefore l → tailSamples l = Some (fillOf n) → l !! i = Some c →
  chunkenc.NumSamples c = if bool_decide (S i = length l) then fillOf n else samplesPerChunk.
Proof.
  intros Hfull Htail Hi. apply lookup_lt_Some in Hi as Hlt.
  case_bool_decide as E.
  - apply (tailSamples_last l c); [exact Htail|].
    rewrite last_lookup, <- Hi. f_equal. lia.
  - apply (Hfull i c Hi). lia.
Qed.

(** X14.  With chunks that meet the chunk contract, a new series, its
    appender, and calls of which [n <= 65535] were accepted, none failing
    in the encoder: [numSamples] is [n]; every column (timestamps,
    durations, periods and the column of every key) has [chunksOf n]
    chunks, one for [n = 0] and [(n-1)/120 + 1] otherwise; the tail chunk
    of each of the three fixed columns reports [fillOf n] samples and every
    earlier chunk reports 120. *)
Theorem chunk_fill_law lset id a ps :
  Appender (NewMemSeries (C:=C) lset id) = Ok a →
  let r := appendAll ps (a, NewMemSeries lset id) in
  let n := Z.of_nat (length (acceptedProfiles ps r.1)) in
  forallb regular r.1 = true →
  n ≤ 65535 →
  numSamples r.2.2 = n ∧
  columnsHave (chunksOf n) r.2.2 ∧
  ∀ (i : nat) c,
    timestampChunks r.2.2 !! i = Some c ∨ durations r.2.2 !! i = Some c ∨
    periods r.2.2 !! i = Some c →
    chunkenc.NumSamples c
    = if bool_decide (S i = chunksOf n) then fillOf n else samplesPerChunk.
Proof.
  intros Ha. cbv zeta. intros Hreg Hle.
  pose proof (appendAll_packed ps 0 _ (Z.le_refl 0) (NewMemSeries_packed lset id a Ha)) as Hp.
  cbv zeta in Hp. specialize (Hp Hreg). rewrite !Z.add_0_l in Hp. specialize (Hp Hle).
  destruct (appendAll ps (a, NewMemSeries lset id)) as [rs [a1 s1]]. cbn [fst snd] in *.
  destruct Hp as (Hal & Hf1 & Hf2 & Hf3). cbn [fst snd] in *.
  pose proof (aligned_columnsHave _ _ _ Hal) as Hcols.
  destruct Hal as (Hnum & _ & Ht1 & Ht2 & Ht3 & Hlen & Hd & Hpp & _). cbn [fst snd] in *.
  split; [exact Hnum|]. split; [exact Hcols|].
  intros i c [Hi|[Hi|Hi]].
  - rewrite <- Hlen, <- (length_fmap timestampChunk.chunk).
    eapply packed_samples; eassumption.
  - rewrite <- Hlen, <- Hd. eapply packed_samples; eassumption.
  - rewrite <- Hlen, <- Hpp. eapply packed_samples; eassumption.
Qed.

End Packed.

(** ** The samples of the fixed columns *)

Section Stored.
Context {C : Type} `{!chunkenc.Chunk C} `{!PositionalChunk C}.
Implicit Types (s : MemSeries C) (a : MemSeriesAppender.t) (p q : Profile).

(** A chunk that holds its samples by position meets the chunk contract. *)
#[local] Instance Positional_Contract : chunkenc.ChunkContract C.
Proof.
  split.
  - rewrite NumSamples_contents, contents_NewDeltaChunk. reflexivity.
  - rewrite NumSamples_contents, contents_NewRLEChunk. reflexivity.
  - rewrite NumSamples_contents, contents_NewXORChunk. reflexivity.
  - intros c v. rewrite (NumSamples_contents (chunkenc.AppendAt _ _ _)).
    rewrite contents_AppendAt_next, length_app, (NumSamples_contents c). simpl. lia.
Qed.

Lemma contents_first (new : C) v :
  contents new = [] → contents (chunkenc.AppendAt 0 v new) = [v].
Proof.
  intros Hnew. pose proof (contents_AppendAt_next new v) as Hc.
  rewrite NumSamples_contents, Hnew in Hc. exact Hc.
Qed.

Lemma columnContents_snoc (l : list C) c :
  columnContents (l ++ [c]) = columnContents l ++ contents c.
Proof.
  unfold columnContents. rewrite fmap_app, join_app. simpl. rewrite app_nil_r. reflexivity.
Qed.

Lemma columnContents_step (l : list C) c (rolled : bool) new slot v :
  last l = Some c → contents new = [] →
  slot = (if rolled then 0 else chunkenc.NumSamples c) →
  columnContents
    (alter (chunkenc.AppendAt slot v) (lastIndex (grown rolled new l)) (grown rolled new l))
  = columnContents l ++ [v].
Proof.
  intros Hc Hnew ->. apply last_Some in Hc as [l0 ->].
  unfold grown. destruct rolled.
  - rewrite alter_lastIndex_snoc, columnContents_snoc, contents_first by exact Hnew.
    reflexivity.
  - rewrite alter_lastIndex_snoc, !columnContents_snoc, contents_AppendAt_next.
    rewrite app_assoc. reflexivity.
Qed.

Lemma Append_stored n ps p a s :
  0 ≤ n → aligned n (a, s) → stored ps s →
  let r := Append p (a, s) in
  regular r.1 = true →
  stored (if accepted r.1 then ps ++ [p] else ps) r.2.2.
Proof.
  intros Hn Hal (Hs1 & Hs2 & Hs3). cbv zeta. intros Hreg.
  destruct (Append p (a, s)) as [[[]|e|] [a' s']] eqn:Heq; cbn [fst snd] in *.
  - apply Append_Ok_columns in Heq as (tc & Htc & Ha' & Hts & Hds & Hps & _).
    cbv zeta in *.
    pose proof Htc as Htc'. rewrite <- tailTimestamps_last in Htc'.
    pose proof (aligned_slot n a s tc Hn Hal Htc') as Hslot.
    destruct Hal as (_ & Hb & Ht1 & Ht2 & Ht3 & _ & Hpar). cbn [fst snd] in *.
    destruct (tailSamples_is_Some _ _ Ht1) as [c1 Hc1].
    destruct (tailSamples_is_Some _ _ Ht2) as [c2 Hc2].
    destruct (tailSamples_is_Some _ _ Ht3) as [c3 Hc3].
    pose proof (tailSamples_last _ _ _ Ht1 Hc1) as Hn1.
    pose proof (tailSamples_last _ _ _ Ht2 Hc2) as Hn2.
    pose proof (tailSamples_last _ _ _ Ht3 Hc3) as Hn3.
    assert (chunkenc.NumSamples (timestampChunk.chunk tc) = fillOf n) as Hntc.
    { unfold timestampChunks in Hc1. rewrite fmap_last, Htc in Hc1.
      injection Hc1 as <-. exact Hn1. }
    pose proof (tail_cursors a s (isFull tc) Hb) as (Hi1 & Hi2 & Hi3).
    assert (nextSlot s = if isFull tc then 0 else fillOf n) as Hsl.
    { destruct (isFull tc); [apply Hslot | rewrite <- Hntc; exact Hslot]. }
    unfold stored. simpl accepted. cbv iota.
    rewrite Hts, Hds, Hps, Hi1, Hi2, Hi3, !fmap_app. simpl.
    rewrite <- Hs1, <- Hs2, <- Hs3. split_and!.
    + apply (columnContents_step _ c1); [exact Hc1 | apply contents_NewDeltaChunk|].
      rewrite Hn1. exact Hsl.
    + apply (columnContents_step _ c2); [exact Hc2 | apply contents_NewRLEChunk|].
      rewrite Hn2. exact Hsl.
    + apply (columnContents_step _ c3); [exact Hc3 | apply contents_NewRLEChunk|].
      rewrite Hn3. exact Hsl.
  - assert (validationError e = true) as He by (destruct e; simpl in *; congruence).
    apply Append_validation_error in Heq as [_ Hst]; [|exact He].
    injection Hst as -> ->. unfold stored, timestampChunks.
    rewrite withTypes_timestamps, withTypes_durations, withTypes_periods. auto.
  - discriminate.
Qed.

Lemma appendAll_stored ps n qs (st : state (C:=C)) :
  0 ≤ n → aligned n st → stored qs st.2 →
  let r := appendAll ps st in
  forallb regular r.1 = true →
  n + Z.of_nat (length (acceptedProfiles ps r.1)) ≤ 65535 →
  stored (qs ++ acceptedProfiles ps r.1) r.2.2.
Proof.
  revert n qs st. induction ps as [|p ps IH]; intros n qs [a s] Hn Hal Hst.
  - simpl. intros _ _. rewrite app_nil_r. exact Hst.
  - cbv zeta. rewrite appendAll_cons. cbn [fst snd].
    pose proof (Append_aligned n p a s Hn Hal) as Hstep. cbv zeta in Hstep.
    pose proof (Append_stored n qs p a s Hn Hal Hst) as Hstore. cbv zeta in Hstore.
    destruct (Append p (a, s)) as [r [a1 s1]]. cbn [fst snd] in *.
    simpl forallb. intros Hreg. apply andb_true_iff in Hreg as [Hr Hrs].
    specialize (IH (if accepted r then n + 1 else n)
                  (if accepted r then qs ++ [p] else qs) (a1, s1)).
    cbv zeta in IH. cbn [fst snd] in IH.
    simpl acceptedProfiles. destruct (accepted r) eqn:Hacc.
    + simpl length. rewrite Nat2Z.inj_succ. intros Hle.
      rewrite (app_assoc qs [p] _ : qs ++ p :: _ = _).
      apply IH; [lia | apply Hstep; [exact Hr | lia] | apply Hstore, Hr | exact Hrs | lia].
    + intros Hle.
      apply IH; [lia | apply Hstep; [exact Hr | discriminate] | apply Hstore, Hr
                | exact Hrs | lia].
Qed.

(** In a list of pieces of 120 elements each, but for a shorter last piece,
    the element [i] of the whole is the element [i mod 120] of the piece
    [i / 120]. *)
Lemma lookup_join_pieces {A} (ls : list (list A)) (i : nat) x :
  (∀ (j : nat) l, ls !! j = Some l → (S j < length ls)%nat → length l = 120%nat) →
  (∀ l, last ls = Some l → (length l ≤ 120)%nat) →
  mjoin ls !! i = Some x →
  ls !! (i / 120)%nat ≫= (λ l, l !! (i mod 120)%nat) = Some x.
Proof.
  revert i. induction ls as [|l ls IH]; intros i Hfull Hlast Hi; [discriminate|].
  simpl in Hi. destruct ls as [|l' ls'].
  - simpl in Hi. rewrite app_nil_r in Hi.
    specialize (Hlast l eq_refl). apply lookup_lt_Some in Hi as Hlt.
    rewrite Nat.div_small, Nat.mod_small by lia. exact Hi.
  - pose proof (Hfull 0%nat l eq_refl ltac:(simpl; lia)) as Hl.
    destruct (decide (i < 120)%nat) as [Hlt|Hge].
    + rewrite lookup_app_l in Hi by lia.
      rewrite Nat.div_small, Nat.mod_small by lia. exact Hi.
    + rewrite lookup_app_r in Hi by lia. rewrite Hl in Hi.
      apply IH in Hi.
      * assert (i / 120 = S ((i - 120) / 120))%nat as ->.
        { replace i with ((i - 120) + 1 * 120)%nat at 1 by lia.
          rewrite Nat.div_add by lia. lia. }
        assert (i mod 120 = (i - 120) mod 120)%nat as ->.
        { replace i with ((i - 120) + 1 * 120)%nat at 1 by lia.
          apply Nat.Div0.mod_add. }
        exact Hi.
      * intros j l0 Hj Hlt. apply (Hfull (S j) l0 Hj). simpl in *. lia.
      * intros l0 Hl0. apply Hlast. exact Hl0.
Qed.

Lemma sampleAt_column (l : list C) n (i : nat) v :
  fullBefore l → tailSamples l = Some (fillOf n) →
  columnContents l !! i = Some v →
  sampleAt l (i / 120) (i mod 120) = Some v.
Proof.
  intros Hfull Htail Hi. unfold sampleAt, columnContents in *.
  apply lookup_join_pieces in Hi.
  - rewrite list_lookup_fmap in Hi.
    destruct (l !! (i / 120)%nat) as [c|]; [exact Hi|discriminate].
  - intros j cs Hj Hlt. rewrite length_fmap in Hlt.
    rewrite list_lookup_fmap in Hj.
    destruct (l !! j) as [c|] eqn:Hc; [|discriminate]. injection Hj as <-.
    specialize (Hfull j c Hc Hlt). rewrite NumSamples_contents in Hfull.
    unfold samplesPerChunk in Hfull. lia.
  - intros cs Hcs. rewrite fmap_last in Hcs.
    destruct (last l) as [c|] eqn:Hc; [|discriminate]. injection Hcs as <-.
    pose proof (tailSamples_last l c _ Htail Hc) as Hn.
    rewrite NumSamples_contents in Hn. pose proof (fillOf_range n) as Hr.
    unfold samplesPerChunk in Hr. lia.
Qed.

Lemma NewMemSeries_stored lset id : stored [] (NewMemSeries (C:=C) lset id).
Proof.
  unfold stored, columnContents, timestampChunks. simpl.
  rewrite contents_NewDeltaChunk, contents_NewRLEChunk. auto.
Qed.

(** X15.  With chunks that hold their samples by position: after calls on
    a new series of which at most 65535 were accepted, none failing in the
    encoder, the timestamp, duration and period columns hold, chunk after
    chunk, the timestamps, durations and periods of the accepted samples in
    the order of their acceptance.  The [i]-th accepted sample (from 0) is
    at slot [i mod 120] of the chunk of ordinal [i / 120], in each of the
    three columns. *)
Theorem samples_addressed_by_slot lset id a ps :
  Appender (NewMemSeries (C:=C) lset id) = Ok a →
  let r := appendAll ps (a, NewMemSeries lset id) in
  let accepted := acceptedProfiles ps r.1 in
  forallb regular r.1 = true →
  Z.of_nat (length accepted) ≤ 65535 →
  columnContents (timestampChunks r.2.2) = (λ p, Timestamp (Meta p)) <$> accepted ∧
  columnContents (durations r.2.2) = (λ p, Duration (Meta p)) <$> accepted ∧
  columnContents (periods r.2.2) = (λ p, Period (Meta p)) <$> accepted ∧
  ∀ (i : nat) p, accepted !! i = Some p →
    sampleAt (timestampChunks r.2.2) (i / 120) (i mod 120) = Some (Timestamp (Meta p)) ∧
    sampleAt (durations r.2.2) (i / 120) (i mod 120) = Some (Duration (Meta p)) ∧
    sampleAt (periods r.2.2) (i / 120) (i mod 120) = Some (Period (Meta p)).
Proof.
  intros Ha. cbv zeta. intros Hreg Hle.
  pose proof (appendAll_packed ps 0 _ (Z.le_refl 0) (NewMemSeries_packed lset id a Ha)) as Hp.
  cbv zeta in Hp. specialize (Hp Hreg). rewrite !Z.add_0_l in Hp. specialize (Hp Hle).
  pose proof (appendAll_stored ps 0 [] _ (Z.le_refl 0) (NewMemSeries_aligned lset id a Ha)
                (NewMemSeries_stored lset id)) as Hs.
  cbv zeta in Hs. specialize (Hs Hreg). rewrite !Z.add_0_l in Hs. specialize (Hs Hle).
  simpl app in Hs.
  destruct (appendAll ps (a, NewMemSeries lset id)) as [rs [a1 s1]]. cbn [fst snd] in *.
  destruct Hp as ((_ & _ & Ht1 & Ht2 & Ht3 & _) & Hf1 & Hf2 & Hf3). cbn [fst snd] in *.
  destruct Hs as (Hs1 & Hs2 & Hs3).
  split; [exact Hs1|]. split; [exact Hs2|]. split; [exact Hs3|].
  intros i p Hi. split_and!.
  - eapply sampleAt_column; [exact Hf1 | exact Ht1|].
    rewrite Hs1, list_lookup_fmap, Hi. reflexivity.
  - eapply sampleAt_column; [exact Hf2 | exact Ht2|].
    rewrite Hs2, list_lookup_fmap, Hi. reflexivity.
  - eapply sampleAt_column; [exact Hf3 | exact Ht3|].
    rewrite Hs3, list_lookup_fmap, Hi. reflexivity.
Qed.

End Stored.

(** ** Chunks before the tail chunk *)

Section Sealed.
Context {C : Type} `{!chunkenc.Chunk C}.
Implicit Types (s : MemSeries C) (a : MemSeriesAppender.t) (p q : Profile).

Lemma keepsSealed_refl {A} (l : list A) : keepsSealed l l.
Proof. split; [lia | reflexivity]. Qed.

Lemma keepsSealed_trans {A} (l1 l2 l3 : list A) :
  keepsSealed l1 l2 → keepsSealed l2 l3 → keepsSealed l1 l3.
Proof.
  intros [Hl1 H1] [Hl2 H2]. split; [lia|].
  intros i Hi. rewrite H2 by lia. apply H1, Hi.
Qed.

Lemma keepsSealed_step {A} (l : list A) (rolled : bool) new f :
  keepsSealed l (alter f (lastIndex (grown rolled new l)) (grown rolled new l)).
Proof.
  split.
  - rewrite length_alter, length_grown. destruct rolled; lia.
  - intros i Hi. rewrite list_lookup_alter_ne.
    + unfold grown. destruct rolled; [|reflexivity]. apply lookup_app_l. lia.
    + unfold lastIndex. rewrite length_grown. destruct rolled; lia.
Qed.

Lemma Append_keepsSealed p a s :
  attached (a, s) → regular (Append p (a, s)).1 = true →
  keepsSealed (timestampChunks s) (timestampChunks (Append p (a, s)).2.2) ∧
  keepsSealed (durations s) (durations (Append p (a, s)).2.2) ∧
  keepsSealed (periods s) (periods (Append p (a, s)).2.2).
Proof.
  intros (Hb & Hpar & Hne).
  destruct (Append p (a, s)) as [[[]|e|] [a' s']] eqn:Heq; cbn [fst snd] in *.
  - intros _.
    apply Append_Ok_columns in Heq as (tc & Htc & Ha' & Hts & Hds & Hps & _).
    cbv zeta in *.
    pose proof (tail_cursors a s (isFull tc) Hb) as (Hi1 & Hi2 & Hi3).
    rewrite Hts, Hds, Hps, Hi1, Hi2, Hi3.
    split_and!; apply keepsSealed_step.
  - intros Hreg.
    assert (validationError e = true) as He by (destruct e; simpl in *; congruence).
    apply Append_validation_error in Heq as [_ Hst]; [|exact He].
    injection Hst as -> ->. unfold timestampChunks.
    rewrite withTypes_timestamps, withTypes_durations, withTypes_periods.
    split_and!; apply keepsSealed_refl.
  - discriminate.
Qed.

Lemma appendAll_keepsSealed ps (st : state (C:=C)) :
  attached st → forallb regular (appendAll ps st).1 = true →
  keepsSealed (timestampChunks st.2) (timestampChunks (appendAll ps st).2.2) ∧
  keepsSealed (durations st.2) (durations (appendAll ps st).2.2) ∧
  keepsSealed (periods st.2) (periods (appendAll ps st).2.2).
Proof.
  revert st. induction ps as [|p ps IH]; intros [a s] Hat.
  - intros _. simpl. split_and!; apply keepsSealed_refl.
  - rewrite appendAll_cons. cbn [fst snd]. simpl forallb.
    intros Hreg. apply andb_true_iff in Hreg as [Hr Hrs].
    pose proof (Append_keepsSealed p a s Hat Hr) as (H1 & H2 & H3).
    pose proof (Append_attached p a s Hat Hr) as Hat1.
    destruct (IH _ Hat1 Hrs) as (H1' & H2' & H3').
    split_and!; eapply keepsSealed_trans; eassumption.
Qed.

(** X16.  Calls through the appender of a new series, none failing in the
    encoder, never shorten a fixed column and never write into a chunk
    that is no longer the tail chunk: whatever calls follow, the chunks of
    the timestamp, duration and period columns below the tail chunk are
    the same chunks afterwards, at the same ordinals. *)
Theorem sealed_chunks_are_kept lset id a ps qs :
  Appender (NewMemSeries (C:=C) lset id) = Ok a →
  let r1 := appendAll ps (a, NewMemSeries lset id) in
  let r2 := appendAll qs r1.2 in
  forallb regular r1.1 = true →
  forallb regular r2.1 = true →
  (length (timestamps r1.2.2) ≤ length (timestamps r2.2.2))%nat ∧
  ∀ i : nat, (S i < length (timestamps r1.2.2))%nat →
    timestampChunks r2.2.2 !! i = timestampChunks r1.2.2 !! i ∧
    durations r2.2.2 !! i = durations r1.2.2 !! i ∧
    periods r2.2.2 !! i = periods r1.2.2 !! i.
Proof.
  intros Ha. cbv zeta. intros Hreg1 Hreg2.
  pose proof (appendAll_attached ps _ (NewMemSeries_attached lset id a Ha) Hreg1) as Hat.
  pose proof (appendAll_keepsSealed qs _ Hat Hreg2) as ([Hl1 H1] & [Hl2 H2] & [Hl3 H3]).
  destruct Hat as (_ & (Hd & Hp & _) & _).
  unfold timestampChunks in *. rewrite !length_fmap in *.
  split; [exact Hl1|]. intros i Hi. split_and!.
  - apply H1. exact Hi.
  - apply H2. lia.
  - apply H3. lia.
Qed.

(** X17.  [Append] writes the timestamp through the cursor of the appender
    it is called on, and only a roll moves that cursor.  An accepted call
    through an appender whose timestamp cursor stands on a chunk before the
    tail chunk (an appender taken before another one rolled), when the tail
    chunk is not full: the sample is counted, the appender keeps its
    cursor, the tail timestamp chunk is the chunk it was, and the timestamp
    has been written into the earlier chunk the cursor stands on. *)
Theorem stale_cursor_writes_old_chunk a s p a' s' tc :
  Append p (a, s) = (Ok tt, (a', s')) →
  last (timestamps s) = Some tc →
  isFull tc = false →
  (MemSeriesAppender.timestamps a < lastIndex (timestamps s))%nat →
  a' = a ∧
  numSamples s' = uint16_incr (numSamples s) ∧
  length (timestamps s') = length (timestamps s) ∧
  last (timestampChunks s') = last (timestampChunks s) ∧
  timestampChunks s' !! MemSeriesAppender.timestamps a
  = chunkenc.AppendAt (nextSlot s) (Timestamp (Meta p))
      <$> timestampChunks s !! MemSeriesAppender.timestamps a.
Proof.
  intros Heq Htc Hfull Hlt.
  pose proof (Append_Ok_books p a s _ Heq) as (_ & Hnum & _). cbn [fst snd] in Hnum.
  apply Append_Ok_columns in Heq as (tc' & Htc' & Ha' & Hts & _).
  rewrite Htc in Htc'. injection Htc' as <-. cbv zeta in *.
  rewrite Hfull in *. simpl in Ha', Hts. subst a'.
  split; [reflexivity|]. split; [exact Hnum|].
  assert (length (timestampChunks s') = length (timestampChunks s)) as Hlen.
  { rewrite Hts, length_alter. reflexivity. }
  split; [unfold timestampChunks in Hlen; rewrite !length_fmap in Hlen; exact Hlen|].
  split.
  - rewrite !last_lookup, Hlen, Hts. apply list_lookup_alter_ne.
    unfold timestampChunks. rewrite length_fmap. unfold lastIndex in Hlt. lia.
  - rewrite Hts. apply list_lookup_alter_eq.
Qed.

End Sealed.

(** ** A roll that fails *)

Section RollFailure.
Context {C : Type} `{!chunkenc.Chunk C}.
Implicit Types (s : MemSeries C) (a : MemSeriesAppender.t) (p q : Profile).

Lemma roll_timestamp_cursor_fails t a s e :
  chunkenc.Appender (chunkenc.NewDeltaChunk (C:=C)) = Some e →
  roll t (a, s)
  = (Fail (ErrWrap "failed to add the next timestamp chunk" e), (a, halfRolled t s)).
Proof.
  intros He. destruct s. unfold roll, halfRolled, appendChunk.
  autorewrite with run. cbn -[index lastIndex mbind].
  rewrite (run_index_bind _ _ _ _ _ (lookup_snoc_last' _ _)). cbn -[index lastIndex mbind].
  rewrite He. reflexivity.
Qed.

Lemma withTypes_halfRolled t p s :
  halfRolled t (withTypes p s) = withTypes p (halfRolled t s).
Proof. unfold withTypes, halfRolled. simpl. destruct (numSamples s =? 0); reflexivity. Qed.

(** X18.  A roll is not undone when it fails.  On a series whose tail
    timestamp chunk is full, a sample that passes the checks, and a chunk
    encoder that refuses the cursor of the new timestamp chunk with [e]:
    [Append] returns [e] wrapped as "failed to add the next timestamp
    chunk", with the appender as it was.  The series keeps the new
    timestamp chunk and the new chunk of every key of [flatValues] and
    [cumulativeValues], while the duration and period columns, [numSamples]
    and [maxTime] are as before: columns that were index-parallel no longer
    are. *)
Theorem Append_roll_failure_keeps_new_chunks a s p tc e :
  last (timestamps s) = Some tc →
  isFull tc = true →
  (numSamples s = 0 ∨
   (equalValueType (periodType s) (PeriodType (Meta p)) = true ∧
    equalValueType (sampleType s) (SampleType (Meta p)) = true)) →
  maxTime s < Timestamp (Meta p) →
  chunkenc.Appender (chunkenc.NewDeltaChunk (C:=C)) = Some e →
  let t := Timestamp (Meta p) in
  ∃ s',
    Append p (a, s)
    = (Fail (ErrWrap "failed to add the next timestamp chunk" e), (a, s')) ∧
    timestamps s' = timestamps s ++ [timestampChunk.mk t t chunkenc.NewDeltaChunk] ∧
    durations s' = durations s ∧
    periods s' = periods s ∧
    flatValues s' = appendChunk chunkenc.NewXORChunk <$> flatValues s ∧
    cumulativeValues s' = appendChunk chunkenc.NewXORChunk <$> cumulativeValues s ∧
    numSamples s' = numSamples s ∧
    maxTime s' = maxTime s ∧
    (chunksParallel s → ¬ chunksParallel s').
Proof.
  intros Htc Hfull Htags Hmax He. cbv zeta.
  exists (withTypes p (halfRolled (Timestamp (Meta p)) s)). split.
  - rewrite Append_run, validate_result, withTypes_maxTime.
    assert (equalValueType (periodType (withTypes p s)) (PeriodType (Meta p)) = true ∧
            equalValueType (sampleType (withTypes p s)) (SampleType (Meta p)) = true)
      as [-> ->].
    { destruct Htags as [Hz|[Hp Hs]].
      - destruct (withTypes_zero p s Hz) as [-> ->]. split; apply equalValueType_refl.
      - apply withTypes_matching; assumption. }
    simpl. destruct (Timestamp (Meta p) <=? maxTime s) eqn:E;
      [apply Z.leb_le in E; lia|].
    unfold store, rollDecision. autorewrite with run.
    rewrite <- lookup_lastIndex, <- (withTypes_timestamps p s) in Htc.
    rewrite (run_index_bind _ _ _ _ _ Htc). autorewrite with run.
    unfold isFull in Hfull. rewrite Hfull.
    rewrite bind_run, (roll_timestamp_cursor_fails _ _ _ e He), withTypes_halfRolled.
    reflexivity.
  - rewrite withTypes_timestamps, withTypes_durations, withTypes_periods,
      withTypes_numSamples, withTypes_maxTime.
    split_and!; try reflexivity.
    + apply (withTypes_columnMap p FlatColumn).
    + apply (withTypes_columnMap p CumulativeColumn).
    +
      intros (Hd & _) (Hd' & _). rewrite withTypes_durations, withTypes_timestamps in Hd'.
      simpl in Hd'. rewrite length_app in Hd'. simpl in Hd'. lia.
Qed.

End RollFailure.

(** ** [stats] on parallel columns *)

Section StatsParallel.
Context {C : Type} `{!chunkenc.Chunk C}.
Implicit Types (s : MemSeries C) (m : gmap ProfileTreeValueNodeKey (list C)).

Lemma length_join_uniform {A} (ls : list (list A)) (n : nat) :
  Forall (λ l, length l = n) ls → length (mjoin ls) = (length ls * n)%nat.
Proof.
  induction 1 as [|l ls Hl _ IH]; [reflexivity|].
  simpl. rewrite length_app, IH, Hl. reflexivity.
Qed.

Lemma length_allChunks_uniform m (n : nat) :
  (∀ k chunks, m !! k = Some chunks → length chunks = n) →
  length (allChunks m) = (size m * n)%nat.
Proof.
  intros Hm. unfold allChunks. rewrite (length_join_uniform _ n).
  - rewrite length_fmap, length_map_to_list. reflexivity.
  - apply Forall_fmap, Forall_forall. intros [k chunks] Hk.
    apply elem_of_map_to_list in Hk. simpl. eauto.
Qed.

(** X19.  On a series with index-parallel columns, [stats] returns for
    each of the two maps one entry per key and timestamp chunk: the length
    of [Flat] (resp. [Cumulatives]) is the number of keys of [flatValues]
    (resp. [cumulativeValues]) times the number of timestamp chunks. *)
Theorem stats_of_parallel_columns s :
  chunksParallel s →
  length (MemSeriesStats.Flat (stats s).1)
  = (size (flatValues s) * length (timestamps s))%nat ∧
  length (MemSeriesStats.Cumulatives (stats s).1)
  = (size (cumulativeValues s) * length (timestamps s))%nat.
Proof.
  intros (_ & _ & Hf & Hc). unfold stats. simpl.
  rewrite !columnStats_allChunks, !length_fmap.
  split; apply length_allChunks_uniform; assumption.
Qed.

End StatsParallel.

(** ** Runs on the list-backed and on the counting chunk *)

(** The list-backed chunk holds its samples by position. *)
#[global] Instance ListChunk_Positional : PositionalChunk ListChunk.
Proof.
  refine {| contents := values |}; try reflexivity.
  intros c v. simpl. unfold listAppendAt. simpl.
  rewrite Nat2Z.id, Nat.sub_diag. reflexivity.
Defined.

Lemma Appender_after_appends_witness :
  Appender run3.2.2 ≠ Panic ∧
  (∀ a', Appender run3.2.2 = Ok a' → a' = run3.2.1) ∧
  ((∀ c : ListChunk, chunkenc.Appender c = None) → Appender run3.2.2 = Ok run3.2.1).
Proof.
  assert (Appender freshSeries = Ok freshAppender) as H1 by reflexivity.
  assert (forallb regular run3.1 = true) as H2 by (vm_compute; reflexivity).
  exact (Appender_after_appends [("job", "a")] 1 freshAppender threeSamples H1 H2).
Defined.

Lemma no_timestamp_chunk_panics_witness :
  Appender emptySeries = Panic ∧
  Append (profileAt (treeOf [] []) 5) (freshAppender, emptySeries)
  = (Panic, (freshAppender, withTypes (profileAt (treeOf [] []) 5) emptySeries)).
Proof.
  assert (timestamps emptySeries = []) as H1 by reflexivity.
  assert (numSamples emptySeries = 0 ∨
          (equalValueType (periodType emptySeries)
             (PeriodType (Meta (profileAt (treeOf [] []) 5))) = true ∧
           equalValueType (sampleType emptySeries)
             (SampleType (Meta (profileAt (treeOf [] []) 5))) = true)) as H2
    by (left; reflexivity).
  assert (maxTime emptySeries < Timestamp (Meta (profileAt (treeOf [] []) 5))) as H3
    by (simpl; lia).
  exact (conj (proj1 (no_timestamp_chunk_panics freshAppender emptySeries
                        (profileAt (treeOf [] []) 5) H1))
              (proj2 (no_timestamp_chunk_panics freshAppender emptySeries
                        (profileAt (treeOf [] []) 5) H1) H2 H3)).
Defined.

Lemma Append_error_precedence_witness :
  Append (profileAt (treeOf [] []) 5) (oneSampleState.1, oneSampleState.2)
  = (Fail ErrOutOfOrderSample, (oneSampleState.1, oneSampleState.2)).
Proof.
  assert (numSamples oneSampleState.2 ≠ 0) as H1 by (vm_compute; discriminate).
  assert (equalValueType (periodType oneSampleState.2)
            (PeriodType (Meta (profileAt (treeOf [] []) 5))) = true) as H2
    by (vm_compute; reflexivity).
  assert (equalValueType (sampleType oneSampleState.2)
            (SampleType (Meta (profileAt (treeOf [] []) 5))) = true) as H3
    by (vm_compute; reflexivity).
  assert (Timestamp (Meta (profileAt (treeOf [] []) 5)) ≤ maxTime oneSampleState.2) as H4
    by (vm_compute; discriminate).
  exact (proj2 (proj2 (Append_error_precedence oneSampleState.1 oneSampleState.2
                         (profileAt (treeOf [] []) 5) H1)) H2 H3 H4).
Defined.

Lemma Append_rejects_replay_witness :
  (Append (profileAt (treeOf [] []) 5) oneSampleState).1 = Fail ErrOutOfOrderSample ∧
  (∀ q, Timestamp (Meta q) ≤ Timestamp (Meta (profileAt (treeOf [] []) 5)) →
     ∃ e, (Append q oneSampleState).1 = Fail e ∧ validationError e = true).
Proof.
  assert (Append (profileAt (treeOf [] []) 5) (freshAppender, freshSeries)
          = (Ok tt, oneSampleState)) as H1 by (vm_compute; reflexivity).
  exact (Append_rejects_replay freshAppender freshSeries
           (profileAt (treeOf [] []) 5) oneSampleState H1).
Defined.

Lemma accepted_samples_share_tags_witness :
  Z.of_nat (length (acceptedProfiles threeSamples run3.1)) ≤ 65535 ∧
  ∀ p, p ∈ acceptedProfiles threeSamples run3.1 →
    equalValueType (periodType run3.2.2) (PeriodType (Meta p)) = true ∧
    equalValueType (sampleType run3.2.2) (SampleType (Meta p)) = true.
Proof.
  assert (Z.of_nat (length (acceptedProfiles threeSamples run3.1)) ≤ 65535) as H1
    by (vm_compute; discriminate).
  exact (conj H1
           (accepted_samples_share_tags [("job", "a")] 1 freshAppender threeSamples H1)).
Defined.

Lemma Append_widens_tail_window_witness :
  ∃ tc tc',
    last (timestamps freshSeries) = Some tc ∧
    last (timestamps oneSampleState.2) = Some tc' ∧
    let t := Timestamp (Meta (profileAt (treeOf [] []) 5)) in
    timestampChunk.minTime tc' ≤ t ≤ timestampChunk.maxTime tc' ∧
    (if isFull tc
     then timestampChunk.minTime tc' = t ∧ timestampChunk.maxTime tc' = t ∧
          windows oneSampleState.2 = windows freshSeries ++ [(t, t)]
     else timestampChunk.minTime tc' = Z.min (timestampChunk.minTime tc) t ∧
          timestampChunk.maxTime tc' = Z.max (timestampChunk.maxTime tc) t ∧
          length (timestamps oneSampleState.2) = length (timestamps freshSeries) ∧
          ∀ i : nat, (S i < length (timestamps freshSeries))%nat →
            windows oneSampleState.2 !! i = windows freshSeries !! i).
Proof.
  assert (Append (profileAt (treeOf [] []) 5) (freshAppender, freshSeries)
          = (Ok tt, (oneSampleState.1, oneSampleState.2))) as H1
    by (vm_compute; reflexivity).
  exact (Append_widens_tail_window freshAppender freshSeries
           (profileAt (treeOf [] []) 5) oneSampleState.1 oneSampleState.2 H1).
Defined.

Lemma first_sample_replaces_sentinels_witness :
  let t := Timestamp (Meta (profileAt (treeOf [] []) 5)) in
  0 < t ∧
  oneSampleState.1 = freshAppender ∧
  windows oneSampleState.2 = [(t, t)] ∧
  minTime oneSampleState.2 = t ∧
  maxTime oneSampleState.2 = t ∧
  numSamples oneSampleState.2 = 1.
Proof.
  assert (Append (profileAt (treeOf [] []) 5) (freshAppender, freshSeries)
          = (Ok tt, (oneSampleState.1, oneSampleState.2))) as H1
    by (vm_compute; reflexivity).
  assert (Timestamp (Meta (profileAt (treeOf [] []) 5)) ≤ MaxInt64) as H2
    by (vm_compute; discriminate).
  exact (first_sample_replaces_sentinels [("job", "a")] 1 freshAppender
           (profileAt (treeOf [] []) 5) oneSampleState.1 oneSampleState.2 H1 H2).
Defined.

Lemma series_bounds_are_chunk_bounds_witness :
  ∃ first tail,
    head (timestamps run121.2.2) = Some first ∧
    last (timestamps run121.2.2) = Some tail ∧
    timestampChunk.minTime first = minTime run121.2.2 ∧
    timestampChunk.maxTime tail = maxTime run121.2.2 ∧
    minTime run121.2.2 ≠ 0 ∧
    minTime run121.2.2 ≤ maxTime run121.2.2.
Proof.
  assert (forallb regular run121.1 = true) as H1 by (vm_compute; reflexivity).
  assert (forallb (λ p, Timestamp (Meta p) <=? MaxInt64) samples121 = true) as H2
    by (vm_compute; reflexivity).
  assert (acceptedProfiles samples121 run121.1 ≠ []) as H3 by (vm_compute; discriminate).
  exact (series_bounds_are_chunk_bounds [("job", "a")] 1 freshAppender samples121
           H1 H2 H3).
Defined.

Lemma chunk_windows_ordered_witness :
  let r := run121 in
  (∀ (i : nat) tc1 tc2,
     timestamps r.2.2 !! i = Some tc1 → timestamps r.2.2 !! S i = Some tc2 →
     timestampChunk.maxTime tc1 < timestampChunk.minTime tc2) ∧
  (∀ (i : nat) tc, timestamps r.2.2 !! i = Some tc →
     timestampChunk.minTime tc ≤ timestampChunk.maxTime tc ∨
     (i = 0%nat ∧ timestampChunk.minTime tc = MaxInt64 ∧
      timestampChunk.maxTime tc = MinInt64)) ∧
  (∀ tc, last (timestamps r.2.2) = Some tc →
     timestampChunk.maxTime tc ≤ maxTime r.2.2) ∧
  (acceptedProfiles samples121 r.1 ≠ [] →
   ∃ tc, last (timestamps r.2.2) = Some tc ∧
         timestampChunk.maxTime tc = maxTime r.2.2).
Proof.
  assert (forallb regular run121.1 = true) as H1 by (vm_compute; reflexivity).
  exact (chunk_windows_ordered [("job", "a")] 1 freshAppender samples121 H1).
Defined.

Lemma chunk_fill_law_witness :
  let r := run121 in
  let n := Z.of_nat (length (acceptedProfiles samples121 r.1)) in
  numSamples r.2.2 = n ∧
  columnsHave (chunksOf n) r.2.2 ∧
  ∀ (i : nat) c,
    timestampChunks r.2.2 !! i = Some c ∨ durations r.2.2 !! i = Some c ∨
    periods r.2.2 !! i = Some c →
    chunkenc.NumSamples c
    = if bool_decide (S i = chunksOf n) then fillOf n else samplesPerChunk.
Proof.
  assert (Appender freshSeries = Ok freshAppender) as H1 by reflexivity.
  assert (forallb regular run121.1 = true) as H2 by (vm_compute; reflexivity).
  assert (Z.of_nat (length (acceptedProfiles samples121 run121.1)) ≤ 65535) as H3
    by (vm_compute; discriminate).
  exact (chunk_fill_law [("job", "a")] 1 freshAppender samples121 H1 H2 H3).
Defined.

Lemma samples_addressed_by_slot_witness :
  let r := run121 in
  let accepted := acceptedProfiles samples121 r.1 in
  columnContents (timestampChunks r.2.2) = (λ p, Timestamp (Meta p)) <$> accepted ∧
  columnContents (durations r.2.2) = (λ p, Duration (Meta p)) <$> accepted ∧
  columnContents (periods r.2.2) = (λ p, Period (Meta p)) <$> accepted ∧
  ∀ (i : nat) p, accepted !! i = Some p →
    sampleAt (timestampChunks r.2.2) (i / 120) (i mod 120) = Some (Timestamp (Meta p)) ∧
    sampleAt (durations r.2.2) (i / 120) (i mod 120) = Some (Duration (Meta p)) ∧
    sampleAt (periods r.2.2) (i / 120) (i mod 120) = Some (Period (Meta p)).
Proof.
  assert (Appender freshSeries = Ok freshAppender) as H1 by reflexivity.
  assert (forallb regular run121.1 = true) as H2 by (vm_compute; reflexivity).
  assert (Z.of_nat (length (acceptedProfiles samples121 run121.1)) ≤ 65535) as H3
    by (vm_compute; discriminate).
  exact (samples_addressed_by_slot [("job", "a")] 1 freshAppender samples121 H1 H2 H3).
Defined.

Lemma sealed_chunks_are_kept_witness :
  let r1 := run121 in
  let r2 := appendAll twoMore r1.2 in
  (length (timestamps r1.2.2) ≤ length (timestamps r2.2.2))%nat ∧
  ∀ i : nat, (S i < length (timestamps r1.2.2))%nat →
    timestampChunks r2.2.2 !! i = timestampChunks r1.2.2 !! i ∧
    durations r2.2.2 !! i = durations r1.2.2 !! i ∧
    periods r2.2.2 !! i = periods r1.2.2 !! i.
Proof.
  assert (Appender freshSeries = Ok freshAppender) as H1 by reflexivity.
  assert (forallb regular run121.1 = true) as H2 by (vm_compute; reflexivity).
  assert (forallb regular (appendAll twoMore run121.2).1 = true) as H3
    by (vm_compute; reflexivity).
  exact (sealed_chunks_are_kept [("job", "a")] 1 freshAppender samples121 twoMore
           H1 H2 H3).
Defined.

Lemma stale_cursor_writes_old_chunk_witness :
  staleState.1 = freshAppender ∧
  numSamples staleState.2 = uint16_incr (numSamples run121.2.2) ∧
  length (timestamps staleState.2) = length (timestamps run121.2.2) ∧
  last (timestampChunks staleState.2) = last (timestampChunks run121.2.2) ∧
  timestampChunks staleState.2 !! MemSeriesAppender.timestamps freshAppender
  = chunkenc.AppendAt (nextSlot run121.2.2) (Timestamp (Meta staleSample))
      <$> timestampChunks run121.2.2 !! MemSeriesAppender.timestamps freshAppender.
Proof.
  assert (Append staleSample (freshAppender, run121.2.2)
          = (Ok tt, (staleState.1, staleState.2))) as H1 by (vm_compute; reflexivity).
  assert (last (timestamps run121.2.2)
          = Some (timestampChunk.mk 121 121 (mkListChunk EncDelta [121]))) as H2
    by (vm_compute; reflexivity).
  assert (isFull (timestampChunk.mk 121 121 (mkListChunk EncDelta [121])) = false) as H3
    by reflexivity.
  assert (MemSeriesAppender.timestamps freshAppender
          < lastIndex (timestamps run121.2.2))%nat as H4
    by (vm_compute; lia).
  exact (stale_cursor_writes_old_chunk freshAppender run121.2.2 staleSample
           staleState.1 staleState.2 _ H1 H2 H3 H4).
Defined.

Lemma Append_roll_failure_keeps_new_chunks_witness :
  ∃ s',
    Append (profileAt (treeOf [valueNode "k" 7] []) 121) (freshAppender, fullSeries)
    = (Fail (ErrWrap "failed to add the next timestamp chunk" (ErrEncoder "no cursor")),
       (freshAppender, s')) ∧
    length (timestamps s') = 2%nat ∧
    length (durations s') = 1%nat ∧
    length <$> flatValues s' !! "k" = Some 2%nat ∧
    numSamples s' = 120 ∧
    ¬ chunksParallel s'.
Proof.
  assert (last (timestamps fullSeries)
          = Some (timestampChunk.mk 1 120 (mkCountingChunk EncDelta 120))) as H1
    by reflexivity.
  assert (isFull (timestampChunk.mk 1 120 (mkCountingChunk EncDelta 120)) = true) as H2
    by reflexivity.
  assert (numSamples fullSeries = 0 ∨
          (equalValueType (periodType fullSeries)
             (PeriodType (Meta (profileAt (treeOf [valueNode "k" 7] []) 121))) = true ∧
           equalValueType (sampleType fullSeries)
             (SampleType (Meta (profileAt (treeOf [valueNode "k" 7] []) 121))) = true))
    as H3 by (right; split; reflexivity).
  assert (maxTime fullSeries
          < Timestamp (Meta (profileAt (treeOf [valueNode "k" 7] []) 121))) as H4
    by (simpl; lia).
  assert (chunkenc.Appender (chunkenc.NewDeltaChunk (C:=CountingChunk))
          = Some (ErrEncoder "no cursor")) as H5 by reflexivity.
  assert (chunksParallel fullSeries) as Hpar.
  { split_and!; try reflexivity.
    - intros k chunks Hk. simpl in Hk. apply lookup_singleton_Some in Hk as [_ <-].
      reflexivity.
    - intros k chunks Hk. simpl in Hk. rewrite lookup_empty in Hk. discriminate. }
  destruct (Append_roll_failure_keeps_new_chunks freshAppender fullSeries
              (profileAt (treeOf [valueNode "k" 7] []) 121) _ _ H1 H2 H3 H4 H5)
    as (s' & Heq & Hts & Hds & _ & Hfl & _ & Hn & _ & Hnp).
  exists s'. split; [exact Heq|]. rewrite Hts, Hds, Hfl, Hn.
  split_and!; try reflexivity. exact (Hnp Hpar).
Defined.

Lemma stats_of_parallel_columns_witness :
  length (MemSeriesStats.Flat (stats run3.2.2).1)
  = (size (flatValues run3.2.2) * length (timestamps run3.2.2))%nat ∧
  length (MemSeriesStats.Cumulatives (stats run3.2.2).1)
  = (size (cumulativeValues run3.2.2) * length (timestamps run3.2.2))%nat.
Proof.
  assert (Appender freshSeries = Ok freshAppender) as H1 by reflexivity.
  assert (forallb regular run3.1 = true) as H2 by (vm_compute; reflexivity).
  assert (chunksParallel run3.2.2) as H3
    by exact (proj1 (proj2 (appendAll_attached threeSamples _
                              (NewMemSeries_attached [("job", "a")] 1 freshAppender H1)
                              H2))).
  exact (stats_of_parallel_columns run3.2.2 H3).
Defined.

Lemma Appender_on_parallel_columns_witness :
  Appender fullSeries = Fail (ErrEncoder "no cursor").
Proof.
  assert (chunksParallel fullSeries) as H1.
  { split_and!; try reflexivity.
    - intros k chunks Hk. simpl in Hk. apply lookup_singleton_Some in Hk as [_ <-].
      reflexivity.
    - intros k chunks Hk. simpl in Hk. rewrite lookup_empty in Hk. discriminate. }
  assert (last (timestampChunks fullSeries) = Some (mkCountingChunk EncDelta 120)) as H2
    by reflexivity.
  assert (last (durations fullSeries) = Some (mkCountingChunk EncRLE 120)) as H3
    by reflexivity.
  assert (last (periods fullSeries) = Some (mkCountingChunk EncRLE 120)) as H4
    by reflexivity.
  exact (Appender_on_parallel_columns fullSeries _ _ _ H1 H2 H3 H4).
Defined.

(** * Addressing across the columns *)

Section Addressing.
Context {C : Type} `{!chunkenc.Chunk C}.
Implicit Types (s : MemSeries C) (a : MemSeriesAppender.t) (p q : Profile).
Implicit Types (col : column) (k : ProfileTreeValueNodeKey).

(** The values of a tree for a key are written, one after the other, into
    the tail chunk of the key's column. *)
Lemma writtenColumn_alter slot vals (l : list C) :
  writtenColumn slot vals l = alter (writtenChunk slot vals) (lastIndex l) l.
Proof.
  destruct (last l) as [c|] eqn:Hc.
  - apply last_Some in Hc as [l0 ->].
    rewrite writtenColumn_snoc, alter_lastIndex_snoc. reflexivity.
  - apply last_None in Hc as ->. induction vals as [|n vals IH]; [reflexivity|].
    rewrite writtenColumn_cons. exact IH.
Qed.

(** The ordinal of the tail chunk after the roll decision, for a series of
    [n] samples. *)
Lemma tail_ordinal n (l : list C) new :
  0 ≤ n → length l = chunksOf n →
  lastIndex (grown (fillOf n >=? samplesPerChunk) new l) = Z.to_nat (n / 120).
Proof.
  intros Hn Hlen. unfold lastIndex. rewrite length_grown, Hlen.
  destruct (fillOf n >=? samplesPerChunk) eqn:E.
  - apply Z.geb_le in E. destruct (fillOf_full n Hn) as (Hm & Hnz & _); [lia|].
    unfold chunksOf, samplesPerChunk in *.
    destruct (n =? 0) eqn:E0; [apply Z.eqb_eq in E0; lia|].
    rewrite Nat.sub_succ, Nat.sub_0_r. f_equal. Z.div_mod_to_equations; lia.
  - rewrite Z.geb_leb in E. apply Z.leb_gt in E.
    unfold chunksOf, fillOf, samplesPerChunk in *.
    destruct (n =? 0) eqn:E0.
    + apply Z.eqb_eq in E0. subst n. reflexivity.
    + apply Z.eqb_neq in E0.
      replace (Z.to_nat ((n - 1) / 120 + 1)) with (S (Z.to_nat ((n - 1) / 120)))
        by (rewrite <- Z2Nat.inj_succ; [f_equal; lia | Z.div_mod_to_equations; lia]).
      rewrite Nat.sub_succ, Nat.sub_0_r. f_equal. Z.div_mod_to_equations; lia.
Qed.

(** An accepted [Append] on a series of [n] samples whose counter, cursors
    and tail chunks agree: every column is written at the chunk of ordinal
    [n / 120], with the slot [n mod 120]. *)
Lemma Append_writes_at `{!chunkenc.ChunkContract C} n p a s a' s' :
  0 ≤ n → aligned n (a, s) →
  Append p (a, s) = (Ok tt, (a', s')) →
  ∃ tc, last (timestamps s) = Some tc ∧
    let o := Z.to_nat (n / 120) in
    let slot := n mod 120 in
    columnsHave (S o) s' ∧
    timestampChunks s'
    = alter (chunkenc.AppendAt slot (Timestamp (Meta p))) o
        (grown (isFull tc) chunkenc.NewDeltaChunk (timestampChunks s)) ∧
    durations s'
    = alter (chunkenc.AppendAt slot (Duration (Meta p))) o
        (grown (isFull tc) chunkenc.NewRLEChunk (durations s)) ∧
    periods s'
    = alter (chunkenc.AppendAt slot (Period (Meta p))) o
        (grown (isFull tc) chunkenc.NewRLEChunk (periods s)) ∧
    ∀ col k,
      valuesOf col k (treeValues (Roots (Tree p))) ≠ [] →
      columnMap col s' !! k
      = Some (alter (writtenChunk slot (valuesOf col k (treeValues (Roots (Tree p))))) o
                (default (replicate (S o) chunkenc.NewXORChunk)
                   (grownColumn (isFull tc) (columnMap col s !! k)))).
Proof.
  intros Hn Hal Heq.
  pose proof (Append_chunksParallel p a s a' s' (proj2 (proj2 (proj2 (proj2 (proj2 (proj2 Hal))))))
                Heq) as Hpar'.
  apply Append_Ok_columns in Heq as (tc & Htc & _ & Hts & Hds & Hps & Hcols).
  exists tc. split; [exact Htc|]. cbv zeta in *.
  pose proof (aligned_full_tail n a s tc Hal Htc) as Hfull.
  destruct Hal as (Hnum & Hb & _ & _ & _ & Hlen & Hpar). cbn [fst snd] in *.
  pose proof (tail_cursors a s (isFull tc) Hb) as (Hi1 & Hi2 & Hi3).
  destruct Hpar as (Hd & Hp & Hfl & Hcu).
  assert (∀ (l : list C) new, length l = chunksOf n →
            lastIndex (grown (isFull tc) new l) = Z.to_nat (n / 120)) as Hord.
  { intros l new Hl. rewrite Hfull. apply tail_ordinal; assumption. }
  assert (nextSlot s = n mod 120) as Hslot.
  { unfold nextSlot. rewrite Hnum. reflexivity. }
  rewrite Hi1, Hi2, Hi3, Hslot in *.
  rewrite (Hord (timestampChunks s)) in Hts
    by (unfold timestampChunks; rewrite length_fmap; exact Hlen).
  rewrite (Hord (durations s)) in Hds by congruence.
  rewrite (Hord (periods s)) in Hps by congruence.
  assert (length (timestamps s') = S (Z.to_nat (n / 120))) as Hlen'.
  { apply (f_equal length) in Hts. unfold timestampChunks in Hts.
    rewrite length_alter, length_fmap in Hts. rewrite Hts.
    pose proof (Hord (timestampChunk.chunk <$> timestamps s) chunkenc.NewDeltaChunk) as Ho.
    rewrite length_fmap in Ho. specialize (Ho Hlen). unfold lastIndex in Ho.
    rewrite length_grown in *. destruct (isFull tc); [lia|].
    rewrite length_fmap in *. destruct (timestamps s); [discriminate|simpl in *; lia]. }
  split.
  { destruct Hpar' as (Hd' & Hp' & Hfl' & Hcu').
    unfold columnsHave. rewrite <- Hlen'. auto. }
  split; [exact Hts|]. split; [exact Hds|]. split; [exact Hps|].
  intros col k Hvals. rewrite Hcols.
  assert (length (grown (isFull tc) chunkenc.NewDeltaChunk (timestampChunks s))
          = S (Z.to_nat (n / 120))) as Hntc.
  { apply (f_equal length) in Hts. rewrite length_alter in Hts. rewrite <- Hts.
    unfold timestampChunks. rewrite length_fmap. exact Hlen'. }
  rewrite Hntc. unfold insertedColumn.
  destruct (valuesOf col k (treeValues (Roots (Tree p)))) as [|v vals] eqn:Ev;
    [contradiction|].
  f_equal. rewrite writtenColumn_alter. f_equal.
  unfold lastIndex.
  assert (length (default (replicate (S (Z.to_nat (n / 120))) chunkenc.NewXORChunk)
                    (grownColumn (isFull tc) (columnMap col s !! k)))
          = S (Z.to_nat (n / 120))) as ->; [|lia].
  destruct (columnMap col s !! k) as [old|] eqn:Hold; [simpl|].
  - assert (length old = length (timestamps s)) as Hold'.
    { destruct col; [eapply Hfl | eapply Hcu]; exact Hold. }
    rewrite <- Hntc. unfold grown, timestampChunks.
    destruct (isFull tc); simpl; unfold appendChunk;
      rewrite ?length_app, ?length_fmap; simpl; lia.
  - destruct (isFull tc); apply length_replicate.
Qed.

End Addressing.

Section RunAddressed.
Context {C : Type} `{!chunkenc.Chunk C} `{!PositionalChunk C}.
Implicit Types (s : MemSeries C) (a : MemSeriesAppender.t) (p q : Profile).

#[local] Existing Instance Positional_Contract.

(** The fixed columns of a new series after at most 65535 accepted samples,
    for chunks that hold their samples by position. *)
Lemma fresh_run_addressed lset id a ps :
  Appender (NewMemSeries (C:=C) lset id) = Ok a →
  let r := appendAll ps (a, NewMemSeries lset id) in
  let accepted := acceptedProfiles ps r.1 in
  forallb regular r.1 = true →
  Z.of_nat (length accepted) ≤ 65535 →
  stored accepted r.2.2 ∧
  ∀ (i : nat) p, accepted !! i = Some p →
    sampleAt (timestampChunks r.2.2) (i / 120) (i mod 120) = Some (Timestamp (Meta p)) ∧
    sampleAt (durations r.2.2) (i / 120) (i mod 120) = Some (Duration (Meta p)) ∧
    sampleAt (periods r.2.2) (i / 120) (i mod 120) = Some (Period (Meta p)).
Proof.
  intros Ha. cbv zeta. intros Hreg Hle.
  pose proof (appendAll_packed ps 0 _ (Z.le_refl 0) (NewMemSeries_packed lset id a Ha)) as Hp.
  cbv zeta in Hp. specialize (Hp Hreg). rewrite !Z.add_0_l in Hp. specialize (Hp Hle).
  pose proof (appendAll_stored ps 0 [] _ (Z.le_refl 0) (NewMemSeries_aligned lset id a Ha)
                (NewMemSeries_stored lset id)) as Hs.
  cbv zeta in Hs. specialize (Hs Hreg). rewrite !Z.add_0_l in Hs. specialize (Hs Hle).
  simpl app in Hs.
  destruct (appendAll ps (a, NewMemSeries lset id)) as [rs [a1 s1]]. cbn [fst snd] in *.
  destruct Hp as ((_ & _ & Ht1 & Ht2 & Ht3 & _) & Hf1 & Hf2 & Hf3). cbn [fst snd] in *.
  split; [exact Hs|]. destruct Hs as (Hs1 & Hs2 & Hs3).
  intros i p Hi. split_and!.
  - eapply sampleAt_column; [exact Hf1 | exact Ht1|].
    rewrite Hs1, list_lookup_fmap, Hi. reflexivity.
  - eapply sampleAt_column; [exact Hf2 | exact Ht2|].
    rewrite Hs2, list_lookup_fmap, Hi. reflexivity.
  - eapply sampleAt_column; [exact Hf3 | exact Ht3|].
    rewrite Hs3, list_lookup_fmap, Hi. reflexivity.
Qed.

End RunAddressed.

Section ParallelClaim.
Context {C : Type} `{!chunkenc.Chunk C}.
Implicit Types (s : MemSeries C) (a : MemSeriesAppender.t) (p q : Profile).
Implicit Types (col : column) (k : ProfileTreeValueNodeKey).


End ParallelClaim.

Section PastWrap.
Implicit Types (s : MemSeries ListChunk) (a : MemSeriesAppender.t) (p : Profile).

Lemma lookup_profilesFrom tree t n (i : nat) :
  (i < n)%nat → profilesFrom tree t n !! i = Some (profileAt tree (t + Z.of_nat i + 1)).
Proof.
  revert t i. induction n as [|n IH]; intros t i Hi; [lia|].
  destruct i as [|i]; simpl.
  - do 2 f_equal. lia.
  - rewrite IH by lia. do 2 f_equal. lia.
Qed.

(** A write never moves or overwrites a sample of a list-backed chunk. *)
Lemma sampleAt_alter_AppendAt (l : list ListChunk) slot v (i o j : nat) x :
  sampleAt l o j = Some x →
  sampleAt (alter (chunkenc.AppendAt slot v) i l) o j = Some x.
Proof.
  unfold sampleAt. intros Hx.
  destruct (l !! o) as [c|] eqn:Hc; [|discriminate]. simpl in Hx.
  destruct (decide (i = o)) as [->|Hne].
  - rewrite list_lookup_alter_eq, Hc. simpl. unfold listAppendAt. simpl.
    apply lookup_app_l_Some. exact Hx.
  - rewrite list_lookup_alter_ne, Hc by exact Hne. exact Hx.
Qed.

Lemma sampleAt_grown (rolled : bool) new (l : list ListChunk) (o j : nat) x :
  sampleAt l o j = Some x → sampleAt (grown rolled new l) o j = Some x.
Proof.
  unfold sampleAt, grown. intros Hx. destruct rolled; [|exact Hx].
  destruct (l !! o) as [c|] eqn:Hc; [|discriminate].
  rewrite (lookup_app_l_Some _ _ _ _ Hc). exact Hx.
Qed.

Lemma Append_keeps_samples p a s a' s' (o j : nat) x :
  Append p (a, s) = (Ok tt, (a', s')) →
  sampleAt (timestampChunks s) o j = Some x →
  sampleAt (timestampChunks s') o j = Some x.
Proof.
  intros Heq Hx. apply Append_Ok_columns in Heq as (tc & _ & _ & Hts & _).
  rewrite Hts. apply sampleAt_alter_AppendAt, sampleAt_grown, Hx.
Qed.

(** A sample without values leaves a series without keys without keys. *)
Lemma Append_no_values p a s a' s' :
  Append p (a, s) = (Ok tt, (a', s')) →
  treeValues (Roots (Tree p)) = [] →
  flatValues s = ∅ → flatValues s' = ∅.
Proof.
  intros Heq Hvals Hempty. apply Append_Ok_columns in Heq as (tc & _ & _ & _ & _ & _ & Hcols).
  apply map_eq. intros k. specialize (Hcols FlatColumn k). simpl in Hcols.
  rewrite Hcols, Hvals, Hempty, lookup_empty. unfold grownColumn.
  destruct (isFull tc); reflexivity.
Qed.

Lemma run_no_keys n t a s :
  ready t s → flatValues s = ∅ →
  flatValues (appendAll (profilesFrom (treeOf [] []) t n) (a, s)).2.2 = ∅.
Proof.
  revert t a s. induction n as [|n IH]; intros t a s Hready Hempty; [exact Hempty|].
  simpl profilesFrom. rewrite appendAll_cons.
  destruct (ready_Append (treeOf [] []) t a s Hready) as (a' & s' & Heq & Hready').
  rewrite Heq. cbn [fst snd]. apply (IH (t + 1) a' s' Hready').
  apply (Append_no_values _ _ _ _ _ Heq); [reflexivity | exact Hempty].
Qed.

Lemma run_keeps_samples tree n t a s (o j : nat) x :
  ready t s →
  sampleAt (timestampChunks s) o j = Some x →
  sampleAt (timestampChunks (appendAll (profilesFrom tree t n) (a, s)).2.2) o j = Some x.
Proof.
  revert t a s. induction n as [|n IH]; intros t a s Hready Hx; [exact Hx|].
  simpl profilesFrom. rewrite appendAll_cons.
  destruct (ready_Append tree t a s Hready) as (a' & s' & Heq & Hready').
  rewrite Heq. cbn [fst snd]. apply (IH (t + 1) a' s' Hready').
  apply (Append_keeps_samples _ _ _ _ _ _ _ _ Heq Hx).
Qed.

(** The timestamp of the [i]-th sample of a run of at most 65535 samples is
    at slot [i mod 120] of the chunk [i / 120]. *)
Lemma run_addressed tree n (i : nat) :
  Z.of_nat n ≤ 65535 → (i < n)%nat →
  sampleAt (timestampChunks
              (appendAll (profilesFrom tree 0 n) (freshAppender, freshSeries)).2.2)
    (i / 120) (i mod 120)
  = Some (Z.of_nat i + 1).
Proof.
  intros Hn Hi.
  destruct (run_accepted tree n 0 freshAppender freshSeries ready_freshSeries)
    as [Hacc _]. cbv zeta in Hacc.
  pose proof (run_count tree n 0 freshAppender freshSeries ready_freshSeries) as Hcount.
  cbv zeta in Hcount.
  pose proof (fresh_run_addressed (C:=ListChunk) [("job", "a")] 1 freshAppender
                (profilesFrom tree 0 n) eq_refl) as Hrun.
  cbv zeta in Hrun. unfold freshSeries in *.
  destruct (Hrun (accepted_regular _ Hacc) ltac:(lia)) as [_ Haddr].
  rewrite acceptedProfiles_all in Haddr
    by (try apply length_appendAll; exact Hacc).
  destruct (Haddr i _ (lookup_profilesFrom tree 0 n i Hi)) as (Hts & _).
  rewrite Hts. simpl. f_equal.
Qed.

End PastWrap.

Section PastWrapState.
Implicit Types (s : MemSeries ListChunk) (a : MemSeriesAppender.t) (p : Profile).

Lemma appendAll_app_snd {C} `{!chunkenc.Chunk C} ps qs (st : state (C:=C)) :
  (appendAll (ps ++ qs) st).2 = (appendAll qs (appendAll ps st).2).2.
Proof. rewrite appendAll_app. reflexivity. Qed.

(** The series after 65536 samples without values: the counter is 0, the
    tail chunks hold 16 samples, and slot 0 of the tail timestamp chunk, the
    chunk of ordinal 546, holds the timestamp of the 65521st sample. *)
Lemma wrapped_state :
  let r := appendAll (profilesFrom (treeOf [] []) 0 (Z.to_nat 65535 + 1))
             (freshAppender, freshSeries) in
  forallb accepted r.1 = true ∧
  tailsAt 16 r.2 ∧ numSamples r.2.2 = 0 ∧ ready 65536 r.2.2 ∧
  length (timestamps r.2.2) = 547%nat ∧
  flatValues r.2.2 = ∅ ∧
  sampleAt (timestampChunks r.2.2) 546 0 = Some 65521.
Proof.
  pose proof (wrap_state (treeOf [] [])) as (Hacc & Htails & Hnum & Hready & Hlen).
  pose proof (run_no_keys (Z.to_nat 65535 + 1) 0 freshAppender freshSeries
                ready_freshSeries eq_refl) as Hkeys.
  assert (sampleAt (timestampChunks
                      (appendAll (profilesFrom (treeOf [] []) 0 (Z.to_nat 65535 + 1))
                         (freshAppender, freshSeries)).2.2) 546 0 = Some 65521) as Hx.
  { rewrite profilesFrom_app, appendAll_app_snd.
    destruct (run_aligned (treeOf [] []) (Z.to_nat 65535) ltac:(lia)) as (_ & _ & Hr0).
    pose proof (run_addressed (treeOf [] []) (Z.to_nat 65535) (546 * 120)
                  ltac:(lia) ltac:(lia)) as Hx0.
    rewrite Nat.div_mul, Nat.Div0.mod_mul in Hx0 by lia.
    replace (Z.of_nat (546 * 120) + 1) with 65521 in Hx0 by lia.
    cbv zeta in Hr0. rewrite Z2Nat.id in Hr0 by lia.
    rewrite Z.add_0_l, Z2Nat.id by lia.
    revert Hr0 Hx0.
    generalize (appendAll (profilesFrom (treeOf [] []) 0 (Z.to_nat 65535))
                  (freshAppender, freshSeries)).
    intros [rs [a s]]. cbn [fst snd]. intros Hr0 Hx0.
    exact (run_keeps_samples (treeOf [] []) 1 65535 a s 546 0 65521 Hr0 Hx0). }
  exact (conj Hacc (conj Htails (conj Hnum (conj Hready
           (conj (eq_trans Hlen (eq_refl : chunksOf 65535 = 547%nat)) (conj Hkeys Hx)))))).
Qed.

End PastWrapState.


